(** * Route-synthesis pipeline of the trip planner

    A shallow embedding of [server/controllers/tripController.js]:
    the geometry helpers, the waypoint validator, the snapper, the route
    synthesizer, the LLM waypoint proposer and the retrying orchestrator,
    then the weather forecast (with [processWeatherData] of the weather
    controller, which shares its grouping), the handler [planTrip] and the
    simulated route.

    Numbers.  A JavaScript number is idealised as a real number; the value
    [NaN] is kept apart (type [number]) wherever the code can produce it
    (an array read out of range, a non-finite input).  Rounding is not
    modelled: [+], [-], [*], [/], [Math.sqrt], [Math.sin], ... are the
    exact operations of [R]. *)

From Stdlib Require Import String Ascii Reals Lra Lia Bool ZArith List.
Import ListNotations.

Set Warnings "-register-all".

Open Scope string_scope.
Open Scope list_scope.
Open Scope R_scope.

(* ================================================================= *)
(** * Part I: the program *)
(* ================================================================= *)

(** ** Comparisons of numbers as booleans *)

Definition Rltb (x y : R) : bool := if Rlt_dec x y then true else false.
Definition Rleb (x y : R) : bool := if Rle_dec x y then true else false.
Definition Reqb (x y : R) : bool := if Req_dec_T x y then true else false.

(** ** Geometry utilities *)

(** A point as the validator and [isStraightLine] read it: [{lat, lng}]. *)
Record point := mkPoint { lat : R; lng : R }.

(** A coordinate as the routing service exchanges it: [[lon, lat]]; a
    third entry, the elevation, is never read. *)
Definition coord := (R * R)%type.

(** [const toRad = d => (d * Math.PI) / 180] *)
Definition toRad (d : R) : R := (d * PI) / 180.

(** [haversineMetersLonLat(a, b)], lines 60-69. *)
Definition haversineMetersLonLat (a b : coord) : R :=
  let '(lon1, lat1) := a in
  let '(lon2, lat2) := b in
  let R0 := 6371000 in
  let dLat := toRad (lat2 - lat1) in
  let dLon := toRad (lon2 - lon1) in
  let la1 := toRad lat1 in
  let la2 := toRad lat2 in
  let h := sin (dLat / 2) ^ 2 + cos la1 * cos la2 * sin (dLon / 2) ^ 2 in
  2 * R0 * asin (sqrt h).

(** The body of the loop of [isStraightLine] for one interior point:
    [None] is the [continue] taken when a neighbouring segment has length
    zero, [Some angle] the angle in degrees between the two direction
    vectors [v1 = curr - prev] and [v2 = next - curr]. *)
Definition turnAngle (prev curr next : point) : option R :=
  let v1x := lat curr - lat prev in
  let v1y := lng curr - lng prev in
  let v2x := lat next - lat curr in
  let v2y := lng next - lng curr in
  let len1 := sqrt (v1x ^ 2 + v1y ^ 2) in
  let len2 := sqrt (v2x ^ 2 + v2y ^ 2) in
  if Reqb len1 0 || Reqb len2 0 then None
  else
    let dot := v1x * v2x + v1y * v2y in
    let cosTheta := dot / (len1 * len2) in
    Some (acos (Rmax (-1) (Rmin 1 cosTheta)) * (180 / PI)).

(** The loop [for (let i = 1; i < points.length - 1; i++)]: the list is
    walked by windows of three, carrying the two counters. *)
Fixpoint countAngles (points : list point) (straightAngles totalAngles : nat)
  : nat * nat :=
  match points with
  | prev :: ((curr :: next :: _) as rest) =>
      match turnAngle prev curr next with
      | None => countAngles rest straightAngles totalAngles
      | Some angle =>
          countAngles rest
            (if Rltb 170 angle then S straightAngles else straightAngles)
            (S totalAngles)
      end
  | _ => (straightAngles, totalAngles)
  end.

(** [isStraightLine(points)], lines 575-613. *)
Definition isStraightLine (points : list point) : bool :=
  if (length points <? 3)%nat then false
  else
    let '(straightAngles, totalAngles) := countAngles points 0 0 in
    (0 <? totalAngles)%nat && Rltb 0.7 (INR straightAngles / INR totalAngles).

(** ** JavaScript values *)

(** A number: a real, or [NaN]. *)
Inductive number :=
| NaN
| Fin (r : R).

(** A value as [JSON.parse] and the HTTP client hand it to the code.  An
    object is the list of its own properties, each key once. *)
Inductive jsval :=
| JUndefined
| JNull
| JBool (b : bool)
| JNum (n : number)
| JStr (s : string)
| JArr (items : list jsval)
| JObj (props : list (string * jsval)).

(** What a [throw] carries.  [AxiosError] is the rejection of the HTTP
    client: [error.message], [error.response?.status] and
    [error.response?.data?.error?.message]. *)
Inductive exn :=
| Error (msg : string)
| TypeError (msg : string)
| AxiosError (msg : string) (status : option nat) (apiMessage : option string).

(** [error.message] *)
Definition message (e : exn) : string :=
  match e with
  | Error m | TypeError m | AxiosError m _ _ => m
  end.

(** The outcome of code that may throw. *)
Inductive result (A : Type) :=
| Return (a : A)
| Throw (e : exn).
Arguments Return {A} a.
Arguments Throw {A} e.

(** [Boolean(v)] *)
Definition truthy (v : jsval) : bool :=
  match v with
  | JUndefined | JNull => false
  | JBool b => b
  | JNum NaN => false
  | JNum (Fin r) => negb (Reqb r 0)
  | JStr s => negb (String.eqb s EmptyString)
  | JArr _ | JObj _ => true
  end.

Fixpoint lookup (k : string) (props : list (string * jsval)) : jsval :=
  match props with
  | [] => JUndefined
  | (k', v) :: rest => if String.eqb k k' then v else lookup k rest
  end.

(** The value of [v.k] where the read does not throw, for the keys the
    code reads ([lat], [lng], [waypoints]): a primitive or an array has
    none of them. *)
Definition prop (v : jsval) (k : string) : jsval :=
  match v with
  | JObj props => lookup k props
  | _ => JUndefined
  end.

(** [v.k]: reading a property of [null] or [undefined] throws. *)
Definition getProp (v : jsval) (k : string) : result jsval :=
  match v with
  | JUndefined | JNull =>
      Throw (TypeError "Cannot read properties of null or undefined")
  | _ => Return (prop v k)
  end.

(** [Math.abs(x) <= b] and [Math.abs(x) < b]; a comparison with [NaN] is
    false. *)
Definition absLe (x : number) (b : R) : bool :=
  match x with NaN => false | Fin r => Rleb (Rabs r) b end.
Definition absLt (x : number) (b : R) : bool :=
  match x with NaN => false | Fin r => Rltb (Rabs r) b end.

(** ** Waypoint validation *)

(** The callback of [waypoints.every] in [isWaypointsValid], lines 544-558. *)
Definition isValid (wp : jsval) : result bool :=
  match getProp wp "lat", getProp wp "lng" with
  | Return (JNum la), Return (JNum lo) =>
      Return (absLe la 90 && absLe lo 180
              && negb (absLt la 0.5 && absLt lo 0.5))
  | Throw e, _ => Throw e
  | _, Throw e => Throw e
  | _, _ => Return false
  end.

(** [Array.prototype.every]: stops at the first [false], and at a throw. *)
Fixpoint every (f : jsval -> result bool) (l : list jsval) : result bool :=
  match l with
  | [] => Return true
  | x :: rest =>
      match f x with
      | Throw e => Throw e
      | Return false => Return false
      | Return true => every f rest
      end
  end.

(** How [isStraightLine] reads a waypoint.  It is reached only after
    [every] answered [true], when [lat] and [lng] are real numbers; the
    last branch is never taken there. *)
Definition toPoint (wp : jsval) : point :=
  match prop wp "lat", prop wp "lng" with
  | JNum (Fin la), JNum (Fin lo) => mkPoint la lo
  | _, _ => mkPoint 0 0
  end.

(** [isWaypointsValid(waypoints)], lines 535-572. *)
Definition isWaypointsValid (waypoints : jsval) : result bool :=
  match waypoints with
  | JArr wps =>
      if (length wps <? 3)%nat then Return false
      else
        match every isValid wps with
        | Throw e => Throw e
        | Return false => Return false
        | Return true =>
            let isNotStraight := negb (isStraightLine (map toPoint wps)) in
            Return isNotStraight
        end
  | _ => Return false
  end.

(** ** Arithmetic on numbers *)

(** An operation on numbers: [NaN] as soon as an operand is [NaN]. *)
Definition lift2 (f : R -> R -> R) (a b : number) : number :=
  match a, b with
  | Fin x, Fin y => Fin (f x y)
  | _, _ => NaN
  end.

Definition nadd : number -> number -> number := lift2 Rplus.
Definition nsub : number -> number -> number := lift2 Rminus.
Definition nmul : number -> number -> number := lift2 Rmult.
(** [Math.max] and [Math.min] answer [NaN] when an argument is [NaN]. *)
Definition nmax : number -> number -> number := lift2 Rmax.
Definition nmin : number -> number -> number := lift2 Rmin.

(** [a / b].  A quotient by zero (an infinity or [NaN] in JavaScript) is no
    real number and is rendered as [NaN]; the code divides by 1000, by 3600
    and by [Math.max(totalMeters, 1)] only. *)
Definition ndiv (a b : number) : number :=
  match a, b with
  | Fin x, Fin y => if Reqb y 0 then NaN else Fin (x / y)
  | _, _ => NaN
  end.

(** [x || y] where [x] is a number that may be missing: [undefined] and 0
    are falsy. *)
Definition orElse (x : option R) (y : R) : R :=
  match x with
  | Some r => if Reqb r 0 then y else r
  | None => y
  end.

(** [a[i]] used as a number: [undefined] out of range, [NaN] in
    arithmetic. *)
Definition arrayGet (a : list R) (i : Z) : number :=
  if (i <? 0)%Z then NaN
  else match nth_error a (Z.to_nat i) with
       | Some v => Fin v
       | None => NaN
       end.

(** ** The result of the synthesizer *)

Module RoutePoint.
Record t := mk { lat : R; lng : R; day : nat; order : nat }.
End RoutePoint.

Record Elevation := mkElevation { gain : number; loss : number }.

Module DailyRoute.
Record t := mk {
  day : nat;
  distance : number;
  duration : number;
  elevation : Elevation;
  points : list RoutePoint.t
}.
End DailyRoute.

Module RouteResult.
Record t := mk {
  geometry : list coord;
  points : list RoutePoint.t;
  dailyRoutes : list DailyRoute.t;
  totalDistance : number;
  totalDuration : number;
  totalElevation : Elevation
}.
End RouteResult.

(** [feature.properties] of the directions reply, with the fields the code
    reads: [summary?.distance], [summary?.duration], [ascent], [descent]. *)
Record Properties := mkProperties {
  summary_distance : option R;
  summary_duration : option R;
  ascent : option R;
  descent : option R
}.

(** [feature.properties || {}]: no property at all. *)
Definition noProperties : Properties := mkProperties None None None None.

(** ** Splitting the path into days (lines 234-311) *)

(** [tripType === 'cycling'] *)
Definition isCycling (tripType : string) : bool := String.eqb tripType "cycling".

(** The loop filling [cum] from index 1 on: [acc] is [cum[i - 1]] and
    [prev] is [coords[i - 1]]. *)
Fixpoint cumFrom (acc : R) (prev : coord) (rest : list coord) : list R :=
  match rest with
  | [] => []
  | c :: rest' =>
      let v := acc + haversineMetersLonLat prev c in
      v :: cumFrom v c rest'
  end.

(** [cum]: it starts as [[0]], whatever the geometry. *)
Definition cumulative (coords : list coord) : list R :=
  0 :: match coords with
       | [] => []
       | c :: rest => cumFrom 0 c rest
       end.

(** [cum[cum.length - 1] || (properties.summary?.distance || 0)] *)
Definition totalGeomMeters (cum : list R) (properties : Properties) : R :=
  let lastCum := last cum 0 in
  if Reqb lastCum 0 then orElse (summary_distance properties) 0 else lastCum.

(** [Array.prototype.findIndex]: the first index from [i] on, or -1. *)
Fixpoint findIndex (p : R -> bool) (l : list R) (i : Z) : Z :=
  match l with
  | [] => (-1)%Z
  | v :: rest => if p v then i else findIndex p rest (i + 1)%Z
  end.

(** [splitIdx], lines 245-246. *)
Definition splitIndex (coords : list coord) (properties : Properties) : Z :=
  let cum := cumulative coords in
  let total := totalGeomMeters cum properties in
  let splitIdx := Z.max 1 (findIndex (fun v => Rleb (total / 2) v) cum 0) in
  if (splitIdx =? -1)%Z then Z.of_nat (length coords / 2) else splitIdx.

(** [(tripType === 'cycling') ? (i <= splitIdx ? 1 : 2) : 1] *)
Definition dayOfIndex (tripType : string) (splitIdx : Z) (i : nat) : nat :=
  if isCycling tripType
  then (if (Z.of_nat i <=? splitIdx)%Z then 1 else 2)%nat
  else 1%nat.

(** The loop building [points], lines 249-255: [i] is the index in
    [coords], [order] the counter incremented at each push. *)
Fixpoint buildPoints (tripType : string) (splitIdx : Z)
    (coords : list coord) (i order : nat) : list RoutePoint.t :=
  match coords with
  | [] => []
  | (lon, lat) :: rest =>
      let day := dayOfIndex tripType splitIdx i in
      RoutePoint.mk lat lon day order
        :: buildPoints tripType splitIdx rest (S i) (S order)
  end.

(** [points.filter(p => p.day === d)] *)
Definition pointsOfDay (d : nat) (points : list RoutePoint.t) : list RoutePoint.t :=
  filter (fun p => Nat.eqb (RoutePoint.day p) d) points.

(** From the geometry and the properties of the first feature to the
    returned object. *)
Definition splitIntoDays (tripType : string) (coords : list coord)
    (properties : Properties) : RouteResult.t :=
  let cum := cumulative coords in
  let totalGeom := totalGeomMeters cum properties in
  let splitIdx := splitIndex coords properties in
  let points := buildPoints tripType splitIdx coords 0 0 in
  let totalMeters := orElse (summary_distance properties) totalGeom in
  let totalSec := orElse (summary_duration properties) 0 in
  let day1Meters :=
    if isCycling tripType then arrayGet cum splitIdx else Fin totalMeters in
  let day2Meters :=
    if isCycling tripType then nsub (Fin totalMeters) day1Meters else Fin 0 in
  let day1Frac :=
    nmax (Fin 0) (nmin (Fin 1) (ndiv day1Meters (nmax (Fin totalMeters) (Fin 1)))) in
  let day2Frac := nsub (Fin 1) day1Frac in
  let up := orElse (ascent properties) 0 in
  let down := orElse (descent properties) 0 in
  let dailyRoutes :=
    if isCycling tripType then
      [ DailyRoute.mk 1
          (ndiv day1Meters (Fin 1000))
          (ndiv (nmul (Fin totalSec) day1Frac) (Fin 3600))
          (mkElevation (nmul (Fin up) day1Frac) (nmul (Fin down) day1Frac))
          (pointsOfDay 1 points);
        DailyRoute.mk 2
          (ndiv day2Meters (Fin 1000))
          (ndiv (nmul (Fin totalSec) day2Frac) (Fin 3600))
          (mkElevation (nmul (Fin up) day2Frac) (nmul (Fin down) day2Frac))
          (pointsOfDay 2 points) ]
    else
      [ DailyRoute.mk 1
          (ndiv (Fin totalMeters) (Fin 1000))
          (ndiv (Fin totalSec) (Fin 3600))
          (mkElevation (Fin up) (Fin down))
          points ] in
  RouteResult.mk coords points dailyRoutes
    (ndiv (Fin totalMeters) (Fin 1000))
    (ndiv (Fin totalSec) (Fin 3600))
    (mkElevation (Fin up) (Fin down)).

(** ** Text *)

(** A character of a text is kept as a code unit below 256; [\s] of a
    regular expression and [trim] see these as white space. *)
Definition isSpace (c : ascii) : bool :=
  match nat_of_ascii c with
  | 9 | 10 | 11 | 12 | 13 | 32 | 160 => true
  | _ => false
  end%nat.

(** The line terminators below 256, which [.] does not match. *)
Definition isLineEnd (c : ascii) : bool :=
  match nat_of_ascii c with
  | 10 | 13 => true
  | _ => false
  end%nat.

Fixpoint trimStart (s : string) : string :=
  match s with
  | String c rest => if isSpace c then trimStart rest else s
  | EmptyString => EmptyString
  end.

Fixpoint reverse (s acc : string) : string :=
  match s with
  | String c rest => reverse rest (String c acc)
  | EmptyString => acc
  end.

(** [s.trim()] *)
Definition trim (s : string) : string :=
  reverse (trimStart (reverse (trimStart s) EmptyString)) EmptyString.

(** The number of white-space characters [s] starts with. *)
Fixpoint countSpaces (s : string) : nat :=
  match s with
  | String c rest => if isSpace c then S (countSpaces rest) else O
  | EmptyString => O
  end.

(** The suffix of [s] from the first occurrence of [c] on. *)
Fixpoint fromFirst (c : ascii) (s : string) : option string :=
  match s with
  | String a rest => if Ascii.eqb a c then Some s else fromFirst c rest
  | EmptyString => None
  end.

(** The prefix of [s] up to and including the last occurrence of [c]. *)
Fixpoint throughLast (c : ascii) (s : string) : option string :=
  match s with
  | String a rest =>
      match throughLast c rest with
      | Some p => Some (String a p)
      | None => if Ascii.eqb a c then Some (String a EmptyString) else None
      end
  | EmptyString => None
  end.

(** [content.match(/\{[\s\S]*\}/)]: from the first opening brace to the
    last closing brace after it. *)
Definition matchBraces (content : string) : option string :=
  match fromFirst "{" content with
  | Some (String open rest) =>
      match throughLast "}" rest with
      | Some inner => Some (String open inner)
      | None => None
      end
  | _ => None
  end.

(** [s.replace(/PAT\s*/g, '')] for a literal [pat]: each occurrence goes,
    with the white space after it.  [skip] counts the characters of the
    current match still to drop. *)
Fixpoint removeWithSpaces (pat : string) (skip : nat) (s : string) : string :=
  match s with
  | EmptyString => EmptyString
  | String c rest =>
      match skip with
      | S k => removeWithSpaces pat k rest
      | O =>
          if prefix pat s
          then removeWithSpaces pat
                 (String.length pat - 1
                  + countSpaces (substring (String.length pat) (String.length s) s))
                 rest
          else String c (removeWithSpaces pat 0 rest)
      end
  end.

(** The first character of [s] after its leading white space. *)
Fixpoint afterSpaces (s : string) : option ascii :=
  match s with
  | String c rest => if isSpace c then afterSpaces rest else Some c
  | EmptyString => None
  end.

(** [s.replace(/,\s*C/g, 'C')] for a closing character [C]: a comma
    followed, after white space, by [C] goes with that white space. *)
Fixpoint removeCommaBefore (close : ascii) (skip : nat) (s : string) : string :=
  match s with
  | EmptyString => EmptyString
  | String c rest =>
      match skip with
      | S k => removeCommaBefore close k rest
      | O =>
          if Ascii.eqb c ","
             && match afterSpaces rest with
                | Some a => Ascii.eqb a close
                | None => false
                end
          then removeCommaBefore close (countSpaces rest) rest
          else String c (removeCommaBefore close 0 rest)
      end
  end.

(** Method 3 of the proposer, lines 500-504. *)
Definition fixedContent (content : string) : string :=
  removeCommaBefore "]" 0
    (removeCommaBefore "}" 0
       (removeWithSpaces "```" 0
          (removeWithSpaces "```json" 0 content))).

Definition lowerAscii (c : ascii) : ascii :=
  let n := nat_of_ascii c in
  if ((65 <=? n) && (n <=? 90))%nat then ascii_of_nat (n + 32) else c.

Fixpoint lowerCase (s : string) : string :=
  match s with
  | String c rest => String (lowerAscii c) (lowerCase rest)
  | EmptyString => EmptyString
  end.

(** The part of [s] before its first line terminator. *)
Fixpoint firstLine (s : string) : string :=
  match s with
  | String c rest => if isLineEnd c then EmptyString else String c (firstLine rest)
  | EmptyString => EmptyString
  end.

Fixpoint contains (pat s : string) : bool :=
  prefix pat s
  || match s with
     | String _ rest => contains pat rest
     | EmptyString => false
     end.

(** [/unknown parameter.*(options|avoid_features)/] on a text in lower
    case. *)
Fixpoint unknownParameterIn (s : string) : bool :=
  (prefix "unknown parameter" s
   && (let line := firstLine (substring 17 (String.length s) s) in
       contains "options" line || contains "avoid_features" line))
  || match s with
     | String _ rest => unknownParameterIn rest
     | EmptyString => false
     end.

(** [/Unknown parameter.*(options|avoid_features)/i.test(msg)] *)
Definition unknownParameterTest (msg : string) : bool :=
  unknownParameterIn (lowerCase msg).

(** ** Effects *)

(** An asynchronous function: it runs against the state [W] of the world
    outside (the services, the clock) and returns or throws.  The state
    reached before a throw is kept. *)
Definition M (W A : Type) : Type := W -> W * result A.

Definition ret {W A : Type} (a : A) : M W A := fun s => (s, Return a).

Definition throw {W A : Type} (e : exn) : M W A := fun s => (s, Throw e).

Definition bind {W A B : Type} (m : M W A) (k : A -> M W B) : M W B :=
  fun s =>
    match m s with
    | (s', Return a) => k a s'
    | (s', Throw e) => (s', Throw e)
    end.

(** [try { m } catch (e) { handler e }] *)
Definition tryCatch {W A : Type} (m : M W A) (handler : exn -> M W A) : M W A :=
  fun s =>
    match m s with
    | (s', Throw e) => handler e s'
    | done => done
    end.

(** Synchronous code that may throw, run inside an asynchronous function. *)
Definition liftResult {W A : Type} (r : result A) : M W A := fun s => (s, r).

Declare Scope monad_scope.
Delimit Scope monad_scope with monad.
Notation "x <- m ;; k" := (bind m (fun x => k))
  (at level 61, m at next level, right associativity) : monad_scope.
Notation "m ;; k" := (bind m (fun _ => k))
  (at level 61, right associativity) : monad_scope.
Open Scope monad_scope.

(** How one turn of a retry loop ends: with the value the function returns,
    or by going on to the next turn. *)
Inductive turn (A : Type) :=
| Done (a : A)
| Continue.
Arguments Done {A} a.
Arguments Continue {A}.

(** ** The services *)

(** The request to the language model.  The two prompt texts embed the
    location and the trip type, and differ when [isRetry] is set. *)
Record Prompt := mkPrompt {
  prompt_isRetry : bool;
  prompt_tripType : string;
  prompt_location : string
}.

(** The body posted to the snap service: [{ locations, radius }], for a
    profile. *)
Record SnapRequest := mkSnapRequest {
  snap_profile : string;
  snap_locations : list (jsval * jsval);
  snap_radius : nat
}.

(** An entry of [data.locations] in the snap reply: [null], or an object
    whose [location] may be missing. *)
Inductive SnapItem :=
| NullItem
| Item (location : option coord).

(** The body posted to the directions service, for a profile:
    [coordinates], and whether [options.avoid_features] is sent.  The other
    fields are constants. *)
Record DirectionsRequest := mkDirectionsRequest {
  directions_profile : string;
  directions_coordinates : list coord;
  directions_avoidFerries : bool
}.

(** A feature of the directions reply: [geometry.coordinates] and
    [properties], either of which may be missing. *)
Record Feature := mkFeature {
  feature_coordinates : option (list coord);
  feature_properties : option Properties
}.

(** ** The orchestrator's loop, over any proposer and synthesizer *)

Section Orchestrator.
Context {W : Type}.

(** [await new Promise(resolve => setTimeout(resolve, ms))] *)
Variable setTimeout : nat -> W -> W.
Variable proposer : string -> string -> bool -> M W jsval.
Variable synthesizer : jsval -> string -> M W RouteResult.t.

Definition sleep (ms : nat) : M W unit := fun s => (setTimeout ms s, Return tt).

(** [waypointsResponse && waypointsResponse.waypoints
     && isWaypointsValid(waypointsResponse.waypoints)] *)
Definition accepted (waypointsResponse : jsval) : result bool :=
  if truthy waypointsResponse && truthy (prop waypointsResponse "waypoints")
  then isWaypointsValid (prop waypointsResponse "waypoints")
  else Return false.

(** The [for] loop of [generateRoute], lines 73-113, and the [throw]
    after it.  [remaining] is the number of turns left,
    [maxRetries - attempt + 1]. *)
Fixpoint generateRouteLoop (maxRetries remaining attempt : nat)
    (location tripType : string) : M W RouteResult.t :=
  match remaining with
  | O =>
      throw (Error "AI failed to generate realistic waypoints after multiple attempts.")
  | S remaining' =>
      let isRetry := (1 <? attempt)%nat in
      waypointsResponse <- proposer location tripType isRetry ;;
      ok <- liftResult (accepted waypointsResponse) ;;
      outcome <-
        (if ok : bool then
           tryCatch
             (route <- synthesizer (prop waypointsResponse "waypoints") tripType ;;
              ret (Done route))
             (fun orsError =>
                if (attempt <? maxRetries)%nat
                then sleep 1000 ;; ret Continue
                else throw (Error ("Failed to generate route: "
                                   ++ message orsError)%string))
         else
           (if (attempt <? maxRetries)%nat then sleep 1000 else ret tt) ;;
           ret Continue) ;;
      match outcome with
      | Done route => ret route
      | Continue =>
          generateRouteLoop maxRetries remaining' (S attempt)
            location tripType
      end
  end.

Definition generateRouteWith (location tripType : string) : M W RouteResult.t :=
  let maxRetries := 3%nat in
  generateRouteLoop maxRetries maxRetries 1 location tripType.
End Orchestrator.

(** ** The pipeline over the services *)

Section Pipeline.
Context {W : Type}.

Variable setTimeout : nat -> W -> W.
(** [groq.chat.completions.create(...)], read at
    [response.choices[0]?.message?.content]: the text, if any. *)
Variable groq_create : Prompt -> M W (option string).
(** [JSON.parse]: [None] when it throws. *)
Variable JSON_parse : string -> option jsval.
(** [axios.post] on the snap endpoint: [data?.locations], if any. *)
Variable snap_post : SnapRequest -> M W (option (list SnapItem)).
(** [axios.post] on the directions endpoint: [data?.features], if any. *)
Variable directions_post : DirectionsRequest -> M W (option (list Feature)).

(** *** The waypoint proposer *)

(** The three extraction methods, lines 474-511, each tried when the
    ones before it threw. *)
Definition extractJson (content : string) : option jsval :=
  match JSON_parse content with
  | Some routeData => Some routeData
  | None =>
      let viaRegex :=
        match matchBraces content with
        | Some jsonMatch => JSON_parse jsonMatch
        | None => None
        end in
      match viaRegex with
      | Some routeData => Some routeData
      | None => JSON_parse (fixedContent content)
      end
  end.

(** The [for] loop of [generateRouteWithAI], lines 329-528, and the
    [return null] after it. *)
Fixpoint generateRouteWithAILoop (maxRetries retryDelay remaining attempt : nat)
    (location tripType : string) (isRetry : bool) : M W jsval :=
  match remaining with
  | O => ret JNull
  | S remaining' =>
      outcome <-
        tryCatch
          (response <- groq_create (mkPrompt isRetry tripType location) ;;
           match option_map trim response with
           | None | Some EmptyString =>
               if (attempt <? maxRetries)%nat
               then sleep setTimeout retryDelay ;; ret Continue
               else ret (Done JNull)
           | Some content =>
               match extractJson content with
               | Some routeData => ret (Done routeData)
               | None =>
                   (if (attempt <? maxRetries)%nat
                    then sleep setTimeout retryDelay else ret tt) ;;
                   ret Continue
               end
           end)
          (fun error =>
             (if (attempt <? maxRetries)%nat
              then sleep setTimeout retryDelay else ret tt) ;;
             ret Continue) ;;
      match outcome with
      | Done value => ret value
      | Continue =>
          generateRouteWithAILoop maxRetries retryDelay remaining'
            (S attempt) location tripType isRetry
      end
  end.

(** [generateRouteWithAI(location, tripType, isRetry)], lines 325-532. *)
Definition generateRouteWithAI (location tripType : string) (isRetry : bool)
  : M W jsval :=
  let maxRetries := 3%nat in
  let retryDelay := 1000%nat in
  generateRouteWithAILoop maxRetries retryDelay maxRetries 1
    location tripType isRetry.

(** *** The snapper *)

(** [tripType === 'cycling' ? 'cycling-regular' : 'foot-hiking'] *)
Definition profileOf (tripType : string) : string :=
  if isCycling tripType then "cycling-regular" else "foot-hiking".

(** [waypoints.map(wp => [wp.lng, wp.lat])] *)
Fixpoint locationsOf (wps : list jsval) : result (list (jsval * jsval)) :=
  match wps with
  | [] => Return []
  | wp :: rest =>
      match getProp wp "lng", getProp wp "lat" with
      | Return lon, Return la =>
          match locationsOf rest with
          | Return locs => Return ((lon, la) :: locs)
          | Throw e => Throw e
          end
      | Throw e, _ => Throw e
      | _, Throw e => Throw e
      end
  end.

(** [item?.location || null] *)
Definition snappedOf (item : SnapItem) : option coord :=
  match item with
  | NullItem => None
  | Item location => location
  end.

Definition isNull {A : Type} (p : option A) : bool :=
  match p with
  | None => true
  | Some _ => false
  end.

(** The entries of an array without [null]. *)
Fixpoint present {A : Type} (l : list (option A)) : list A :=
  match l with
  | [] => []
  | Some a :: rest => a :: present rest
  | None :: rest => present rest
  end.

(** [snapWaypoints(waypoints, tripType)], lines 122-156. *)
Definition snapWaypoints (waypoints : jsval) (tripType : string)
  : M W (list coord) :=
  let profile := profileOf tripType in
  locations <-
    liftResult
      (match waypoints with
       | JArr wps => locationsOf wps
       | _ => Throw (TypeError "waypoints.map is not a function")
       end) ;;
  let radius := if isCycling tripType then 120%nat else 200%nat in
  tryCatch
    (data <- snap_post (mkSnapRequest profile locations radius) ;;
     let snapped :=
       map snappedOf (match data with Some items => items | None => [] end) in
     if negb (length snapped =? length locations)%nat || existsb isNull snapped
     then throw (Error "Some waypoints failed to snap (off network / over water).")
     else ret (present snapped))
    (fun error => throw (Error "Snap failed")).

(** *** The synthesizer *)

(** Loop closure, lines 170-176. *)
Definition closeLoop (tripType : string) (coordinates : list coord)
  : list coord :=
  if isCycling tripType && (1 <? length coordinates)%nat then
    let start := nth 0 coordinates (0, 0) in
    let last := nth (length coordinates - 1) coordinates (0, 0) in
    let d := haversineMetersLonLat start last in
    if Rltb 100 d then coordinates ++ [start] else coordinates
  else coordinates.

(** [err.response?.status === 400 && /Unknown parameter.../i.test(msg)] *)
Definition isUnknownParam (err : exn) : bool :=
  match err with
  | AxiosError _ status apiMessage =>
      let msg := match apiMessage with Some m => m | None => EmptyString end in
      match status with
      | Some code => (code =? 400)%nat && unknownParameterTest msg
      | None => false
      end
  | _ => false
  end.

(** [generateRouteWithOpenRouteService(waypoints, tripType)],
    lines 163-321. *)
Definition generateRouteWithOpenRouteService (waypoints : jsval)
    (tripType : string) : M W RouteResult.t :=
  tryCatch
    (snapped <- snapWaypoints waypoints tripType ;;
     let coordinates := closeLoop tripType snapped in
     let profile := profileOf tripType in
     let baseBody := mkDirectionsRequest profile coordinates false in
     let bodyWithAvoid := mkDirectionsRequest profile coordinates true in
     features <-
       tryCatch (directions_post bodyWithAvoid)
         (fun err =>
            if isUnknownParam err then directions_post baseBody
            else throw err) ;;
     match features with
     | None | Some [] => throw (Error "No route found")
     | Some (feature :: _) =>
         match feature_coordinates feature with
         | None =>
             throw (TypeError "Cannot read properties of undefined")
         | Some coords =>
             let properties :=
               match feature_properties feature with
               | Some properties => properties
               | None => noProperties
               end in
             ret (splitIntoDays tripType coords properties)
         end
     end)
    (fun error =>
       throw (Error ("Failed to generate route with OpenRouteService: "
                     ++ message error)%string)).

(** *** The orchestrator *)

(** [generateRoute(location, tripType)], lines 71-117. *)
Definition generateRoute (location tripType : string) : M W RouteResult.t :=
  generateRouteWith setTimeout generateRouteWithAI
    generateRouteWithOpenRouteService location tripType.
End Pipeline.

(** ** The most frequent description (lines 887-901) *)

(** The property names every object inherits from [Object.prototype]:
    read on the empty object [frequency], they yield a function or an
    object, not a count. *)
Definition objectPrototypeKeys : list string :=
  [ "constructor"; "__defineGetter__"; "__defineSetter__"; "hasOwnProperty";
    "__lookupGetter__"; "__lookupSetter__"; "isPrototypeOf";
    "propertyIsEnumerable"; "toString"; "valueOf"; "__proto__";
    "toLocaleString" ].

Definition inherited (key : string) : bool :=
  existsb (String.eqb key) objectPrototypeKeys.

(** [frequency[item] || 0] on the counts stored so far, the latest
    first. *)
Fixpoint countOf (item : string) (frequency : list (string * nat)) : nat :=
  match frequency with
  | [] => 0
  | (key, n) :: rest => if String.eqb item key then n else countOf item rest
  end.

(** The [forEach] of [getMostFrequent].  For an inherited name the sum
    [(frequency[item] || 0) + 1] is a string, which is never greater
    than [maxFreq]: such an item changes neither [maxFreq] nor
    [mostFrequent]. *)
Fixpoint mostFrequentLoop (arr : list string) (frequency : list (string * nat))
    (maxFreq : nat) (mostFrequent : option string) : option string :=
  match arr with
  | [] => mostFrequent
  | item :: rest =>
      if inherited item then mostFrequentLoop rest frequency maxFreq mostFrequent
      else
        let n := (countOf item frequency + 1)%nat in
        let frequency' := (item, n) :: frequency in
        if (maxFreq <? n)%nat
        then mostFrequentLoop rest frequency' n (Some item)
        else mostFrequentLoop rest frequency' maxFreq mostFrequent
  end.

(** [getMostFrequent(arr)]; [None] is [undefined]. *)
Definition getMostFrequent (arr : list string) : option string :=
  mostFrequentLoop arr [] 0 (hd_error arr).

(** ** The weather forecast (lines 795-884) *)

(** [Math.floor] and [Math.round] (a half goes up) on real numbers, and
    the truncation toward zero a [Date] applies to its time value. *)
Definition mathFloor (x : R) : Z := Int_part x.
Definition mathRound (x : R) : Z := Int_part (x + / 2).
Definition truncate (x : R) : Z :=
  if Rleb 0 x then Int_part x else (- Int_part (- x))%Z.

(** [Math.round(x)] of a number. *)
Definition nround (x : number) : number :=
  match x with
  | NaN => NaN
  | Fin r => Fin (IZR (mathRound r))
  end.

(** An entry of [response.data.list], by the fields the code reads:
    [dt], [main.temp], [weather[0].description], [weather[0].icon],
    [main.humidity], [wind.speed] and [pop].  A [dt] that is missing or
    no number makes [dt * 1000] [NaN]. *)
Record ForecastItem := mkForecastItem {
  item_dt : number;
  item_temp : R;
  item_description : string;
  item_icon : string;
  item_humidity : R;
  item_windSpeed : R;
  item_pop : R
}.

(** The time value of [new Date(value)], in milliseconds since the epoch:
    none (an invalid date) for [NaN] and beyond 8.64e15. *)
Definition timeValue (value : number) : option Z :=
  match value with
  | NaN => None
  | Fin v => if Rleb (Rabs v) 8640000000000000 then Some (truncate v) else None
  end.

Definition msPerDay : Z := 86400000.

(** [date.toISOString().split('T')[0]]: the UTC calendar day of a time
    value.  The text YYYY-MM-DD is rendered by the number of the day since
    1970-01-01, which names it one to one. *)
Definition dayKey (time : Z) : Z := (time / msPerDay)%Z.

(** An entry of [dailyData]. *)
Record DayData := mkDayData {
  day_date : Z;
  day_temperatures : list R;
  day_descriptions : list string;
  day_icons : list string;
  day_humidity : list R;
  day_windSpeed : list R;
  day_precipitation : list R
}.

Definition emptyDay (date : Z) : DayData := mkDayData date [] [] [] [] [] [].

(** The six [push]es of one forecast (lines 844-849). *)
Definition pushForecast (forecast : ForecastItem) (day : DayData) : DayData :=
  {| day_date := day_date day;
     day_temperatures := day_temperatures day ++ [item_temp forecast];
     day_descriptions := day_descriptions day ++ [item_description forecast];
     day_icons := day_icons day ++ [item_icon forecast];
     day_humidity := day_humidity day ++ [item_humidity forecast];
     day_windSpeed := day_windSpeed day ++ [item_windSpeed forecast];
     day_precipitation := day_precipitation day ++ [item_pop forecast * 100] |}.

(** One turn of the grouping on [dailyData], an object whose keys are kept
    in the order of their insertion: the day is created at the end when it
    is missing, then the forecast is pushed to it. *)
Fixpoint putForecast (key date : Z) (forecast : ForecastItem)
    (dailyData : list (Z * DayData)) : list (Z * DayData) :=
  match dailyData with
  | [] => [(key, pushForecast forecast (emptyDay date))]
  | (k, day) :: rest =>
      if (k =? key)%Z then (k, pushForecast forecast day) :: rest
      else (k, day) :: putForecast key date forecast rest
  end.

(** [forecastData.forEach(...)], lines 828-850.  [toISOString] throws a
    [RangeError] on an invalid date; its message is kept. *)
Fixpoint groupByDay (forecastData : list ForecastItem)
    (dailyData : list (Z * DayData)) : result (list (Z * DayData)) :=
  match forecastData with
  | [] => Return dailyData
  | forecast :: rest =>
      match timeValue (nmul (item_dt forecast) (Fin 1000)) with
      | None => Throw (Error "Invalid time value")
      | Some date =>
          groupByDay rest (putForecast (dayKey date) date forecast dailyData)
      end
  end.

(** [Math.min(...a)] and [Math.max(...a)].  On an empty array JavaScript
    answers an infinity, which is no real number and is rendered as
    [NaN]; a day of [dailyData] holds one temperature at least. *)
Definition spreadMin (a : list R) : number :=
  match a with
  | [] => NaN
  | x :: rest => Fin (fold_left Rmin rest x)
  end.
Definition spreadMax (a : list R) : number :=
  match a with
  | [] => NaN
  | x :: rest => Fin (fold_left Rmax rest x)
  end.

(** [a.reduce((x, y) => x + y, 0) / a.length]; 0 / 0 is [NaN]. *)
Definition mean (a : list R) : number :=
  ndiv (Fin (fold_left Rplus a 0)) (Fin (INR (length a))).

Record Temperature := mkTemperature {
  temperature_min : number;
  temperature_max : number;
  temperature_current : option R
}.

(** An entry of [forecasts]; [None] is [undefined]. *)
Record DayForecast := mkDayForecast {
  forecast_date : Z;
  forecast_temperature : Temperature;
  forecast_description : option string;
  forecast_icon : option string;
  forecast_humidity : number;
  forecast_windSpeed : number;
  forecast_precipitation : number
}.

(** The object pushed to [forecasts], lines 862-874. *)
Definition summarize (day : DayData) : DayForecast :=
  {| forecast_date := day_date day;
     forecast_temperature :=
       {| temperature_min := spreadMin (day_temperatures day);
          temperature_max := spreadMax (day_temperatures day);
          temperature_current := hd_error (day_temperatures day) |};
     forecast_description := getMostFrequent (day_descriptions day);
     forecast_icon := hd_error (day_icons day);
     forecast_humidity := nround (mean (day_humidity day));
     forecast_windSpeed :=
       ndiv (nround (nmul (mean (day_windSpeed day)) (Fin 10))) (Fin 10);
     forecast_precipitation := nround (mean (day_precipitation day)) |}.

(** [new Date(dayKey) >= tomorrow]: a date-only text is read as the
    midnight of that day in UTC. *)
Definition fromTomorrow (tomorrow : Z) (entry : Z * DayData) : bool :=
  (tomorrow <=? fst entry * msPerDay)%Z.

(** Lines 857-875, over the entries of [dailyData] in the order of its
    keys. *)
Definition nextDays (tomorrow : Z) (dailyData : list (Z * DayData))
    : list DayForecast :=
  map (fun entry => summarize (snd entry))
      (firstn 3 (filter (fromTomorrow tomorrow) dailyData)).

(** The query sent to the forecast service; [units] and [cnt] are
    constants. *)
Record WeatherRequest := mkWeatherRequest {
  weather_lat : number;
  weather_lon : number;
  weather_appid : string
}.

Section Weather.
Context {W : Type}.

(** [process.env.WEATHER_API_KEY] *)
Variable WEATHER_API_KEY : option string.
(** [axios.get] on the forecast service, read at [response.data.list]:
    [None] when [response.data] or the list is missing. *)
Variable weather_get : WeatherRequest -> M W (option (list ForecastItem)).
(** The time value of [tomorrow]: the clock's next local midnight. *)
Variable tomorrow : W -> Z.

Definition nextMidnight : M W Z := fun s => (s, Return (tomorrow s)).

Definition keySet (key : option string) : option string :=
  match key with
  | Some text => if String.eqb text EmptyString then None else Some text
  | None => None
  end.

(** [getWeatherData(startLat, startLng)], lines 795-884; the value is the
    field [forecast] of the object returned. *)
Definition getWeatherData (startLat startLng : number) : M W (list DayForecast) :=
  tryCatch
    (match keySet WEATHER_API_KEY with
     | None => ret []
     | Some appid =>
         list_ <- weather_get (mkWeatherRequest startLat startLng appid) ;;
         match list_ with
         | None => ret []
         | Some forecastData =>
             dailyData <- liftResult (groupByDay forecastData []) ;;
             tomorrow <- nextMidnight ;;
             ret (nextDays tomorrow dailyData)
         end
     end)
    (fun error => ret []).
End Weather.

(** ** The forecast of the weather controller *)

(** [a.slice(0, end)] for an integer [end]: a negative [end] counts from
    the end of the array. *)
Definition sliceTo (A : Type) (a : list A) (end_ : Z) : list A :=
  if (end_ <? 0)%Z then firstn (length a - Z.to_nat (- end_)) a
  else firstn (Z.to_nat end_) a.
Arguments sliceTo {A} a end_.

(** [processWeatherData(weatherData, days)] of the weather controller,
    over [weatherData.list] and the integer [slice] reads in [days]. *)
Definition processWeatherData (list_ : list ForecastItem) (days : Z)
    : result (list DayForecast) :=
  match groupByDay list_ [] with
  | Throw e => Throw e
  | Return dailyData =>
      Return (map (fun entry => summarize (snd entry)) (sliceTo dailyData days))
  end.

(** ** The handler (lines 12-49) *)

(** [Object.hasOwn(object, key)] on the properties of an object. *)
Definition hasOwn (key : string) (props : list (string * jsval)) : bool :=
  existsb (fun entry => String.eqb (fst entry) key) props.

(** The conversion of a value of [JSON.parse] to a text, as [String(v)]
    and a template do it, over the text [numberText] of a number.  An
    object answers [[object Object]], unless it has a property [toString]
    of its own: that property is no function and the [valueOf] it inherits
    answers the object itself, so that the conversion throws a
    [TypeError].  An array is the texts of its elements joined by commas,
    the empty text standing for [null] and [undefined]; the elements are
    converted in order. *)
Fixpoint toText (numberText : number -> string) (v : jsval) : result string :=
  match v with
  | JUndefined => Return "undefined"
  | JNull => Return "null"
  | JBool b => Return (if b then "true" else "false")
  | JNum n => Return (numberText n)
  | JStr s => Return s
  | JObj props =>
      if hasOwn "toString" props
      then Throw (TypeError "Cannot convert object to primitive value")
      else Return "[object Object]"
  | JArr items =>
      (fix join (items : list jsval) : result string :=
         match items with
         | [] => Return EmptyString
         | x :: rest =>
             let element :=
               match x with
               | JUndefined | JNull => Return EmptyString
               | _ => toText numberText x
               end in
             match element with
             | Throw e => Throw e
             | Return text =>
                 match rest with
                 | [] => Return text
                 | _ =>
                     match join rest with
                     | Throw e => Throw e
                     | Return texts => Return (text ++ "," ++ texts)%string
                     end
                 end
             end
         end) items
  end.

(** [Number(v)] on a value of [JSON.parse], over the number [parse] reads
    in a text.  An object is converted through its text, which is no
    number, and an array through its text; the conversion throws where
    the conversion to a text does. *)
Definition toNumber (parse : string -> number) (numberText : number -> string)
    (v : jsval) : result number :=
  match v with
  | JUndefined => Return NaN
  | JNull => Return (Fin 0)
  | JBool b => Return (Fin (if b then 1 else 0))
  | JNum n => Return n
  | JStr s => Return (parse s)
  | JObj _ =>
      match toText numberText v with
      | Throw e => Throw e
      | Return _ => Return NaN
      end
  | JArr _ =>
      match toText numberText v with
      | Throw e => Throw e
      | Return text => Return (parse text)
      end
  end.

(** What the handler answers: the status and the body. *)
Inductive Body :=
| Failure (message : string)
| Success (route : RouteResult.t) (weather : list DayForecast).

Record Response := mkResponse {
  response_status : nat;
  response_body : Body
}.

Section Handler.
Context {W : Type}.

Variable setTimeout : nat -> W -> W.
Variable groq_create : Prompt -> M W (option string).
Variable JSON_parse : string -> option jsval.
Variable snap_post : SnapRequest -> M W (option (list SnapItem)).
Variable directions_post : DirectionsRequest -> M W (option (list Feature)).
Variable WEATHER_API_KEY : option string.
Variable weather_get : WeatherRequest -> M W (option (list ForecastItem)).
Variable tomorrow : W -> Z.
(** The number a text reads as, and the text of a number. *)
Variable parse : string -> number.
Variable numberText : number -> string.

(** [!Number(v)] *)
Definition noNumber (v : jsval) : result bool :=
  match toNumber parse numberText v with
  | Throw e => Throw e
  | Return n => Return (negb (truthy (JNum n)))
  end.

(** [!location || !Number(location.lat) || !Number(location.lng)], line
    30: an operand is evaluated only when the ones before it are
    false. *)
Definition locationMissing (location : jsval) : result bool :=
  if negb (truthy location) then Return true
  else
    match noNumber (prop location "lat") with
    | Throw e => Throw e
    | Return true => Return true
    | Return false => noNumber (prop location "lng")
    end.

(** [generateRoute(location, tripType)] on a value.  Its first statement,
    line 74, embeds [location] in a template, which throws when the value
    has no text; the text is what the prompts embed afterwards. *)
Definition generateRouteOn (location : jsval) (tripType : string)
    : M W RouteResult.t :=
  name <- liftResult (toText numberText location) ;;
  generateRoute setTimeout groq_create JSON_parse snap_post directions_post
    name tripType.

(** [planTrip], lines 12-49, on [req.body.location] and a
    [req.body.tripType] that is a string.  The test of line 30 is outside
    the [try]: what it throws leaves the handler. *)
Definition planTrip (location : jsval) (tripType : string) : M W Response :=
  let parsed :=
    match location with
    | JStr json => JSON_parse json
    | _ => Some location
    end in
  match parsed with
  | None => ret (mkResponse 400 (Failure "Invalid location format"))
  | Some location =>
      missing <- liftResult (locationMissing location) ;;
      if missing : bool
      then ret (mkResponse 400 (Failure "Location with lat/lng is required"))
      else
        tryCatch
          (routeData <- generateRouteOn (prop location "name") tripType ;;
           lat <- liftResult (toNumber parse numberText (prop location "lat")) ;;
           lng <- liftResult (toNumber parse numberText (prop location "lng")) ;;
           weatherData <- getWeatherData WEATHER_API_KEY weather_get tomorrow
                            lat lng ;;
           ret (mkResponse 200 (Success routeData weatherData)))
          (fun error => ret (mkResponse 500 (Failure "Failed to plan trip")))
  end.
End Handler.

(** ** The simulated route (lines 617-792) *)

(** A point of the simulated route. *)
Record SimulatedPoint := mkSimulatedPoint {
  simulated_lat : number;
  simulated_lng : number;
  simulated_day : nat;
  simulated_order : nat
}.

Record SimulatedDay := mkSimulatedDay {
  simulatedDay_day : nat;
  simulatedDay_distance : R;
  simulatedDay_duration : R;
  simulatedDay_elevation : R * R;
  simulatedDay_points : list SimulatedPoint
}.

(** The object the hiking branch returns; it has no [geometry]. *)
Record SimulatedRoute := mkSimulatedRoute {
  simulated_points : list SimulatedPoint;
  simulated_dailyRoutes : list SimulatedDay;
  simulated_totalDistance : R;
  simulated_totalDuration : R;
  simulated_totalElevation : R * R
}.

Definition baseCoordinates : list (string * (R * R)) :=
  [ ("Paris, France", (48.8566, 2.3522));
    ("London, UK", (51.5074, -0.1278));
    ("New York, USA", (40.7128, -74.0060));
    ("Tokyo, Japan", (35.6762, 139.6503));
    ("Sydney, Australia", (-33.8688, 151.2093));
    ("Rome, Italy", (41.9028, 12.4964));
    ("Barcelona, Spain", (41.3851, 2.1734));
    ("Amsterdam, Netherlands", (52.3676, 4.9041));
    ("Berlin, Germany", (52.5200, 13.4050));
    ("Prague, Czech Republic", (50.0755, 14.4378)) ].

Fixpoint ownCoordinates (location : string) (table : list (string * (R * R)))
    : option (R * R) :=
  match table with
  | [] => None
  | (name, coordinates) :: rest =>
      if String.eqb location name then Some coordinates
      else ownCoordinates location rest
  end.

(** [baseCoordinates[location] || { lat: 40.7128, lng: -74.0060 }], read
    at [lat] and [lng].  A name inherited from [Object.prototype] yields
    a function or an object, which is truthy and has neither field:
    [undefined], [NaN] in the sums. *)
Definition baseCoordOf (location : string) : number * number :=
  match ownCoordinates location baseCoordinates with
  | Some (lat, lng) => (Fin lat, Fin lng)
  | None =>
      if inherited location then (NaN, NaN)
      else (Fin 40.7128, Fin (-74.0060))
  end.

Section Simulation.
Context {W : Type}.

(** [Math.random()], on the state of the generator. *)
Variable random : W -> W * R.

Definition Math_random : M W R :=
  fun s => let (s', r) := random s in (s', Return r).

(** The loop of the cycling branch, lines 649-695, from the index [i] for
    [remaining] turns. *)
Fixpoint cyclingLoop (remaining i day : nat) (currentLat currentLng : number)
    (direction : R) (dayPoints : list SimulatedPoint)
    : M W (list SimulatedPoint) :=
  match remaining with
  | O => ret dayPoints
  | S remaining' =>
      let progress := INR i / (35 - 1) in
      let direction :=
        if (i <? 8)%nat then direction
        else if (i <? 15)%nat then direction + 0.3
        else if (i <? 22)%nat then direction + sin (progress * PI) * 0.1
        else if (i <? 28)%nat then direction - 0.4
        else direction + 0.2 in
      let latOffset := cos direction * 0.002 in
      let lngOffset := sin direction * 0.002 in
      r1 <- Math_random ;;
      let latOffset := latOffset + (r1 - 0.5) * 0.0005 in
      r2 <- Math_random ;;
      let lngOffset := lngOffset + (r2 - 0.5) * 0.0005 in
      let currentLat := nadd currentLat (Fin latOffset) in
      let currentLng := nadd currentLng (Fin lngOffset) in
      cyclingLoop remaining' (S i) day currentLat currentLng direction
        (dayPoints ++ [mkSimulatedPoint currentLat currentLng day i])
  end.

(** One turn of the loop over the days, lines 640-705. *)
Definition cyclingDay (baseCoord : number * number) (dailyDistance : R)
    (day : nat) : M W SimulatedDay :=
  let numPoints := 35%nat in
  let currentLat := nadd (fst baseCoord) (Fin ((INR day - 1) * 0.05)) in
  let currentLng := nadd (snd baseCoord) (Fin ((INR day - 1) * 0.05)) in
  r <- Math_random ;;
  let direction := r * PI * 2 in
  dayPoints <- cyclingLoop numPoints 0 day currentLat currentLng direction [] ;;
  gain <- Math_random ;;
  loss <- Math_random ;;
  ret (mkSimulatedDay day dailyDistance (dailyDistance / 15)
         (gain * 500, loss * 500) dayPoints).

(** The loop of the hiking branch, lines 730-776. *)
Fixpoint hikingLoop (remaining i : nat) (center : number * number)
    (trailDirection currentAngle : R) (points : list SimulatedPoint)
    : M W (list SimulatedPoint) :=
  match remaining with
  | O => ret points
  | S remaining' =>
      let numPoints := 35 in
      let radius := 0.008 in
      let progress := INR i / (numPoints - 1) in
      let (angleChange, radiusChange) :=
        if (i <? 8)%nat then (0.1, 0.8 + progress * 0.4)
        else if (i <? 15)%nat then (0.05, 1.2)
        else if (i <? 22)%nat then (-0.15, 1.0)
        else if (i <? 28)%nat then (0.2, 0.9)
        else (-0.1, 0.7) in
      let trailDirection := trailDirection + angleChange in
      let currentAngle :=
        currentAngle + (2 * PI / numPoints + trailDirection * 0.1) in
      let currentRadius := radius * radiusChange in
      let latOffset := cos currentAngle * currentRadius in
      let lngOffset := sin currentAngle * currentRadius in
      let terrainVariation := sin (progress * PI * 3) * 0.001 in
      r <- Math_random ;;
      let naturalVariation := (r - 0.5) * 0.0005 in
      let point :=
        mkSimulatedPoint
          (nadd (nadd (nadd (fst center) (Fin latOffset)) (Fin terrainVariation))
             (Fin naturalVariation))
          (nadd (nadd (nadd (snd center) (Fin lngOffset)) (Fin terrainVariation))
             (Fin naturalVariation))
          1 i in
      hikingLoop remaining' (S i) center trailDirection currentAngle
        (points ++ [point])
  end.

(** [generateSimulatedRoute(location, tripType)].  The cycling branch
    builds its two days and then reads [geometry], a name that is declared
    nowhere in its scope: a [ReferenceError], whose message is kept. *)
Definition generateSimulatedRoute (location tripType : string)
    : M W SimulatedRoute :=
  let baseCoord := baseCoordOf location in
  if isCycling tripType then
    r <- Math_random ;;
    let dailyDistance := 45 + r * 30 in
    day1 <- cyclingDay baseCoord dailyDistance 1 ;;
    day2 <- cyclingDay baseCoord dailyDistance 2 ;;
    throw (Error "geometry is not defined")
  else
    r <- Math_random ;;
    let dailyDistance := 8 + r * 7 in
    points <- hikingLoop 35 0 baseCoord 0 0 [] ;;
    dayGain <- Math_random ;;
    dayLoss <- Math_random ;;
    gain <- Math_random ;;
    loss <- Math_random ;;
    ret (mkSimulatedRoute points
           [mkSimulatedDay 1 dailyDistance (dailyDistance / 4)
              (dayGain * 300, dayLoss * 300) points]
           dailyDistance (dailyDistance / 4) (gain * 300, loss * 300)).
End Simulation.

(* ================================================================= *)
(** * Part II: predicates used in the statements *)
(* ================================================================= *)

(** Points read along one line: the base point [a] moved by [t] times
    the direction [(dx, dy)], for the parameters [ts] in order. *)
Definition onLine (a : point) (dx dy : R) (ts : list R) : list point :=
  map (fun t => mkPoint (lat a + t * dx) (lng a + t * dy)) ts.

(** The parameters never go backwards: the line is traversed in order. *)
Fixpoint inOrder (ts : list R) : Prop :=
  match ts with
  | t1 :: ((t2 :: _) as rest) => t1 <= t2 /\ inOrder rest
  | _ => True
  end.

(** A waypoint whose [lat] and [lng] are numbers within bounds and not
    both within 0.5 of zero. *)
Definition coordinateOk (wp : jsval) : Prop :=
  exists la lo : R,
    prop wp "lat" = JNum (Fin la) /\ prop wp "lng" = JNum (Fin lo)
    /\ Rabs la <= 90 /\ Rabs lo <= 180
    /\ ~ (Rabs la < 0.5 /\ Rabs lo < 0.5).

(** Two numbers that are equal: the same real, and not [NaN]. *)
Definition sameNumber (a b : number) : Prop :=
  exists x : R, a = Fin x /\ b = Fin x.

(** [i] is the first index of [cum] whose value reaches [threshold]. *)
Definition firstAtLeast (cum : list R) (threshold : R) (i : nat) : Prop :=
  (exists v, nth_error cum i = Some v /\ threshold <= v)
  /\ (forall j v, (j < i)%nat -> nth_error cum j = Some v -> v < threshold).

(** The daily route [d] holds the point of order [i]. *)
Definition holdsVertex (i : nat) (d : DailyRoute.t) : bool :=
  existsb (fun p => Nat.eqb (RoutePoint.order p) i) (DailyRoute.points d).

(** The split index as the half-distance rule with a midpoint default
    describes it. *)
Definition splitIndexAsDescribed (coords : list coord) (properties : Properties)
  : Prop :=
  let cum := cumulative coords in
  let half := totalGeomMeters cum properties / 2 in
  (forall i, firstAtLeast cum half i ->
             splitIndex coords properties = Z.of_nat i)
  /\ ((forall i, ~ firstAtLeast cum half i) ->
      splitIndex coords properties = Z.of_nat (length coords / 2)).

(** The two days of a route add up to its totals. *)
Definition splitConserves (r : RouteResult.t) : Prop :=
  exists d1 d2 : DailyRoute.t,
    RouteResult.dailyRoutes r = [d1; d2]
    /\ sameNumber (nadd (DailyRoute.distance d1) (DailyRoute.distance d2))
                  (RouteResult.totalDistance r)
    /\ sameNumber (nadd (DailyRoute.duration d1) (DailyRoute.duration d2))
                  (RouteResult.totalDuration r)
    /\ sameNumber (nadd (gain (DailyRoute.elevation d1))
                        (gain (DailyRoute.elevation d2)))
                  (gain (RouteResult.totalElevation r))
    /\ sameNumber (nadd (loss (DailyRoute.elevation d1))
                        (loss (DailyRoute.elevation d2)))
                  (loss (RouteResult.totalElevation r)).

(** A small geometry of three vertices, out and back. *)
Definition outAndBack : list coord := [(2, 41); (3, 42); (2, 41)].

(** What a run leaves in its trace: the calls made to the services, to
    the proposer and the synthesizer, and the delays waited. *)
Inductive call :=
| Proposed (isRetry : bool)
| Synthesized (waypoints : jsval)
| Slept (ms : nat)
| Asked (prompt : Prompt)
| SnapPosted (request : SnapRequest)
| DirectionsPosted (request : DirectionsRequest).

(** The same computation over a state that also holds the trace; each run
    appends [calls] to it. *)
Definition logging {W A : Type} (calls : list call) (m : M W A)
  : M (W * list call) A :=
  fun '(s, log) => let '(s', r) := m s in ((s', log ++ calls), r).

(** The same delay over a state with a trace, where it is recorded. *)
Definition loggedTimeout {W : Type} (setTimeout : nat -> W -> W) (ms : nat)
  : W * list call -> W * list call :=
  fun '(s, log) => (setTimeout ms s, log ++ [Slept ms]).

(** ** The extraction stages, as the specification words them *)

(** The position of the first and of the last occurrence of a character. *)
Fixpoint firstIndex (c : ascii) (s : string) : option nat :=
  match s with
  | EmptyString => None
  | String a rest =>
      if Ascii.eqb a c then Some O else option_map S (firstIndex c rest)
  end.

Fixpoint lastIndex (c : ascii) (s : string) : option nat :=
  match s with
  | EmptyString => None
  | String a rest =>
      match lastIndex c rest with
      | Some j => Some (S j)
      | None => if Ascii.eqb a c then Some O else None
      end
  end.

(** Stage (b): the largest substring that begins with an opening and ends
    with a closing brace.  It runs from the first opening brace of the
    text to its last closing brace, and there is none when no closing
    brace follows the first opening one. *)
Definition largestBraced (content : string) : option string :=
  match firstIndex "{" content, lastIndex "}" content with
  | Some i, Some j =>
      if (i <? j)%nat then Some (substring i (j - i + 1) content) else None
  | _, _ => None
  end.

(** The text without its first [n] characters, and without the white
    space it begins with. *)
Fixpoint dropChars (n : nat) (s : string) : string :=
  match n, s with
  | S n', String _ rest => dropChars n' rest
  | _, _ => s
  end.

Fixpoint skipSpaces (s : string) : string :=
  match s with
  | String c rest => if isSpace c then skipSpaces rest else s
  | EmptyString => EmptyString
  end.

(** The replacement of every match of a pattern, from left to right:
    [matchAt] tells whether the pattern matches at the start of a text and
    what is left of the text after the match; the search goes on after
    each match.  A match is never empty here, and [fuel] above the length
    of the text is enough. *)
Fixpoint replaceAll (fuel : nat) (matchAt : string -> option string)
    (replacement : string) (s : string) : string :=
  match fuel, s with
  | S fuel', String c rest =>
      match matchAt s with
      | Some after =>
          (replacement ++ replaceAll fuel' matchAt replacement after)%string
      | None => String c (replaceAll fuel' matchAt replacement rest)
      end
  | _, _ => s
  end.

Definition replaceEvery (matchAt : string -> option string)
    (replacement : string) (s : string) : string :=
  replaceAll (S (String.length s)) matchAt replacement s.

(** A code-fence marker with the white space after it. *)
Definition fenceAt (marker : string) (s : string) : option string :=
  if prefix marker s
  then Some (skipSpaces (dropChars (String.length marker) s))
  else None.

(** A trailing comma: a comma that only white space separates from the
    closing character [close]; the match ends after [close]. *)
Definition trailingCommaAt (close : ascii) (s : string) : option string :=
  match s with
  | String c rest =>
      if Ascii.eqb c ","
      then match skipSpaces rest with
           | String a after => if Ascii.eqb a close then Some after else None
           | EmptyString => None
           end
      else None
  | EmptyString => None
  end.

(** Stage (c): the text without its code-fence markers, those with [json]
    first, and without its trailing commas, before a closing brace first
    and before a closing bracket then. *)
Definition stripped (content : string) : string :=
  replaceEvery (trailingCommaAt "]") "]"
    (replaceEvery (trailingCommaAt "}") "}"
       (replaceEvery (fenceAt "```") EmptyString
          (replaceEvery (fenceAt "```json") EmptyString content))).

(** The three extraction stages of the proposer in their order: the whole
    text, the largest braced substring, the text without code fences and
    trailing commas. *)
Definition stages (JSON_parse : string -> option jsval) (content : string)
  : list (option jsval) :=
  [ JSON_parse content;
    match largestBraced content with
    | Some braced => JSON_parse braced
    | None => None
    end;
    JSON_parse (stripped content) ].

(** The result of the first stage that succeeds. *)
Fixpoint firstSuccess (results : list (option jsval)) : option jsval :=
  match results with
  | [] => None
  | Some value :: _ => Some value
  | None :: rest => firstSuccess rest
  end.


(** A snap reply that misses a waypoint: an entry is [null] or has no
    [location]. *)
Definition missesOne (items : list SnapItem) : Prop :=
  exists item, In item items /\ snappedOf item = None.

(** A waypoint as the proposer gives it. *)
Definition waypointAt (la lo : R) : jsval :=
  JObj [("lat", JNum (Fin la)); ("lng", JNum (Fin lo)); ("name", JStr "stop")].

Definition threeWaypoints : list jsval :=
  [waypointAt 41 2; waypointAt 42 3; waypointAt 41 3].

(** A snap service that always answers with the same three coordinates,
    the last one degree of latitude north of the first. *)
Definition threePointSnap : SnapRequest -> M unit (option (list SnapItem)) :=
  fun _ s =>
    (s, Return (Some [Item (Some (2, 41)); Item (Some (3, 42)); Item (Some (2, 42))])).

(** A directions service that finds no route. *)
Definition noRoute : DirectionsRequest -> M unit (option (list Feature)) :=
  fun _ s => (s, Return (Some [])).

(** [null] or [undefined]. *)
Definition nullish (v : jsval) : Prop := v = JNull \/ v = JUndefined.

(** The pair [[lng, lat]] the snapper sends for a waypoint with numeric
    coordinates. *)
Definition lngLatOf (wp : jsval) : jsval * jsval :=
  (JNum (Fin (lng (toPoint wp))), JNum (Fin (lat (toPoint wp)))).

(** The request [snapWaypoints] posts for the locations [locations]. *)
Definition snapRequestFor (tripType : string) (locations : list (jsval * jsval))
  : SnapRequest :=
  mkSnapRequest (if isCycling tripType then "cycling-regular" else "foot-hiking")
    locations (if isCycling tripType then 120 else 200)%nat.

(** Three waypoints with a right angle at the second. *)
Definition rightAngleWaypoints : list jsval :=
  [waypointAt 41 2; waypointAt 41 3; waypointAt 42 3].

(** The requests to the snap service that [snapWaypoints] makes for
    [waypoints]: one when the locations can be read, none otherwise. *)
Definition snapRequests (tripType : string) (waypoints : jsval) : list call :=
  match waypoints with
  | JArr wps =>
      match locationsOf wps with
      | Return locations => [SnapPosted (snapRequestFor tripType locations)]
      | Throw _ => []
      end
  | _ => []
  end.

(** The synthesizer over services whose requests are recorded. *)
Definition tracedSynthesizer {W : Type}
    (snap_post : SnapRequest -> M W (option (list SnapItem)))
    (directions_post : DirectionsRequest -> M W (option (list Feature)))
  : jsval -> string -> M (W * list call) RouteResult.t :=
  generateRouteWithOpenRouteService
    (fun q => logging [SnapPosted q] (snap_post q))
    (fun q => logging [DirectionsPosted q] (directions_post q)).

(** The body of the directions request for the snapped coordinates. *)
Definition directionsBody (tripType : string) (snapped : list coord)
    (avoidFerries : bool) : DirectionsRequest :=
  mkDirectionsRequest (if isCycling tripType then "cycling-regular" else "foot-hiking")
    (closeLoop tripType snapped) avoidFerries.

(** The message of the synthesizer's failure for the cause [e]. *)
Definition synthesisFailure {A : Type} (e : exn) : result A :=
  Throw (Error ("Failed to generate route with OpenRouteService: " ++ message e)%string).

(** A call that is no request to the directions service. *)
Definition notDirections (c : call) : Prop :=
  match c with
  | DirectionsPosted _ => False
  | _ => True
  end.

(** [feature.properties || {}] *)
Definition propertiesOf (feature : Feature) : Properties :=
  match feature_properties feature with
  | Some properties => properties
  | None => noProperties
  end.

(** What the synthesizer makes of the features of a directions reply. *)
Definition routeFromFeatures (tripType : string)
    (features : option (list Feature)) : result RouteResult.t :=
  match features with
  | None | Some [] => synthesisFailure (Error "No route found")
  | Some (feature :: _) =>
      match feature_coordinates feature with
      | None => synthesisFailure (TypeError "Cannot read properties of undefined")
      | Some coords => Return (splitIntoDays tripType coords (propertiesOf feature))
      end
  end.

(** A rejection of the directions service for an option it does not know,
    and one for a server fault. *)
Definition unknownOptionError : exn :=
  AxiosError "Request failed with status code 400" (Some 400%nat)
    (Some "Unknown parameter 'options'").

Definition serverFault : exn :=
  AxiosError "Request failed with status code 500" (Some 500%nat) None.

(** A directions service that rejects [avoid_features] as unknown and
    finds no route without it. *)
Definition probingDirections : DirectionsRequest -> M unit (option (list Feature)) :=
  fun q s =>
    if directions_avoidFerries q then (s, Throw unknownOptionError)
    else (s, Return (Some [])).

(** A snap service that is down. *)
Definition snapDown : SnapRequest -> M unit (option (list SnapItem)) :=
  fun _ s => (s, Throw serverFault).

(** The properties of a reply that reports 8000 m, 10800 s, 300 m of
    ascent and 250 m of descent. *)
Definition reportedProperties : Properties :=
  mkProperties (Some 8000) (Some 10800) (Some 300) (Some 250).

(** A geometry of two vertices, one degree of latitude apart. *)
Definition northward : list coord := [(2, 41); (2, 41 + 1)].

(** The proposer over services whose requests and delays are recorded. *)
Definition tracedProposer {W : Type} (setTimeout : nat -> W -> W)
    (groq_create : Prompt -> M W (option string))
    (JSON_parse : string -> option jsval)
  : string -> string -> bool -> M (W * list call) jsval :=
  generateRouteWithAI (loggedTimeout setTimeout)
    (fun p => logging [Asked p] (groq_create p)) JSON_parse.

(** The orchestrator over a proposer and a synthesizer whose calls are
    recorded, with the delays. *)
Definition tracedOrchestrator {W : Type} (setTimeout : nat -> W -> W)
    (proposer : string -> string -> bool -> M W jsval)
    (synthesizer : jsval -> string -> M W RouteResult.t)
  : string -> string -> M (W * list call) RouteResult.t :=
  generateRouteWith (loggedTimeout setTimeout)
    (fun l t isRetry => logging [Proposed isRetry] (proposer l t isRetry))
    (fun w t => logging [Synthesized w] (synthesizer w t)).

Definition isProposed (c : call) : bool :=
  match c with Proposed _ => true | _ => false end.
Definition isSynthesized (c : call) : bool :=
  match c with Synthesized _ => true | _ => false end.
Definition isSlept (c : call) : bool :=
  match c with Slept _ => true | _ => false end.
Definition isAsked (c : call) : bool :=
  match c with Asked _ => true | _ => false end.

(** The number of calls of one kind in a trace. *)
Definition count (kind : call -> bool) (log : list call) : nat :=
  length (filter kind log).

(** A call to the synthesizer is made with waypoints the validator
    accepts. *)
Definition synthesizesValid (c : call) : Prop :=
  match c with
  | Synthesized w => isWaypointsValid w = Return true
  | _ => True
  end.

(** An answer of the proposer with the right-angle waypoints. *)
Definition rightAngleAnswer : jsval :=
  JObj [("waypoints", JArr rightAngleWaypoints)].

(** The character [c] occurs in [s]. *)
Fixpoint hasChar (c : ascii) (s : string) : bool :=
  match s with
  | EmptyString => false
  | String a rest => Ascii.eqb a c || hasChar c rest
  end.

(** The number of occurrences of [x] in [l]. *)
Definition occurrences (x : string) (l : list string) : nat :=
  count_occ string_dec l x.

(** The state of the loop after the items [seen]: the counts are the
    numbers of occurrences, [maxFreq] is the greatest of them, and
    [mostFrequent] is the item that first reached it. *)
Definition frequencyState (seen : list string) (frequency : list (string * nat))
    (maxFreq : nat) (mostFrequent : option string) : Prop :=
  (forall x, countOf x frequency = occurrences x seen)
  /\ (forall x, occurrences x seen <= maxFreq)%nat
  /\ (seen = [] -> maxFreq = 0%nat)
  /\ (seen <> [] ->
      exists m before after,
        mostFrequent = Some m
        /\ seen = before ++ m :: after
        /\ occurrences m (before ++ [m]) = maxFreq
        /\ (forall x, x <> m -> occurrences x (before ++ [m]) < maxFreq)%nat).

(** ** The forecast, day by day *)

(** The time value of a record, if its [dt] gives a valid date. *)
Definition timeOf (forecast : ForecastItem) : option Z :=
  timeValue (nmul (item_dt forecast) (Fin 1000)).

Definition hasTime (forecast : ForecastItem) : bool :=
  match timeOf forecast with
  | Some _ => true
  | None => false
  end.

(** The record falls on the UTC day [key]. *)
Definition onDay (key : Z) (forecast : ForecastItem) : bool :=
  match timeOf forecast with
  | Some time => (dayKey time =? key)%Z
  | None => false
  end.

Definition recordsOfDay (records : list ForecastItem) (key : Z)
    : list ForecastItem :=
  filter (onDay key) records.

(** The days of a list, each once, in the order of their first
    appearance. *)
Fixpoint distinct (days : list Z) : list Z :=
  match days with
  | [] => []
  | day :: rest => day :: filter (fun d => negb (d =? day)%Z) (distinct rest)
  end.

Definition daysOf (records : list ForecastItem) : list Z :=
  distinct (flat_map (fun forecast =>
                        match timeOf forecast with
                        | Some time => [dayKey time]
                        | None => []
                        end) records).

(** The readings of some records, in their order, dated by the first. *)
Definition collect (records : list ForecastItem) : DayData :=
  {| day_date :=
       match records with
       | first :: _ =>
           match timeOf first with Some time => time | None => 0%Z end
       | [] => 0%Z
       end;
     day_temperatures := map item_temp records;
     day_descriptions := map item_description records;
     day_icons := map item_icon records;
     day_humidity := map item_humidity records;
     day_windSpeed := map item_windSpeed records;
     day_precipitation := map (fun forecast => item_pop forecast * 100) records |}.

(** The forecast of the day [key], from all the records of that day. *)
Definition dayForecast (records : list ForecastItem) (key : Z) : DayForecast :=
  summarize (collect (recordsOfDay records key)).

(** [dailyData] as the records determine it. *)
Definition grouped (records : list ForecastItem) : list (Z * DayData) :=
  map (fun key => (key, collect (recordsOfDay records key))) (daysOf records).

(** The day [key] starts at or after [tomorrow]. *)
Definition startsFrom (tomorrow key : Z) : bool :=
  (tomorrow <=? key * msPerDay)%Z.

(** Three records: two of the day 1 after the epoch, three hours apart,
    and one of the day 2, with the service that answers them and a clock
    whose next midnight is the start of the day 1. *)
Definition sampleRecords : list ForecastItem :=
  [ mkForecastItem (Fin 86400) 10 "clear sky" "01d" 40 3 0;
    mkForecastItem (Fin 97200) 14 "few clouds" "02d" 50 4 0;
    mkForecastItem (Fin 172800) 12 "clear sky" "01d" 60 5 0 ].

Definition sampleWeather (request : WeatherRequest)
    : M unit (option (list ForecastItem)) :=
  ret (Some sampleRecords).

Definition sampleTomorrow (s : unit) : Z := 86400000.

(** The sum of an array, as [reduce] computes it. *)
Definition total (a : list R) : R := fold_left Rplus a 0.

(** The temperatures of a forecast are real numbers in order. *)
Definition orderedTemperature (forecast : DayForecast) : Prop :=
  exists lo hi current,
    forecast_temperature forecast = mkTemperature (Fin lo) (Fin hi) (Some current)
    /\ lo <= current <= hi.

(** The request to the forecast service fails, or its reply has no list, or
    a record of the list has no valid date. *)
Definition noForecast {W : Type} (run : W * result (option (list ForecastItem)))
    : Prop :=
  (exists e, snd run = Throw e)
  \/ snd run = Return None
  \/ exists records, snd run = Return (Some records)
                     /\ forallb hasTime records = false.

(** A day of three readings. *)
Definition sampleDay : DayData :=
  mkDayData 86400000 [10; 14; 12] ["clear sky"; "few clouds"; "clear sky"]
    ["01d"; "02d"; "01d"] [40; 50; 61] [3; 4; 5] [0; 0; 0].

(** ** The handler's answers *)

(** The location the handler works on: the value a text parses to, none
    when [JSON.parse] throws, and the value itself when it is no text. *)
Definition locationOf (JSON_parse : string -> option jsval) (location : jsval)
    : option jsval :=
  match location with
  | JStr json => JSON_parse json
  | _ => Some location
  end.

(** The value is an object with a property [toString] of its own, or an
    array that holds such a value. *)
Fixpoint holdsToString (v : jsval) : bool :=
  match v with
  | JObj props => existsb (fun entry => String.eqb (fst entry) "toString") props
  | JArr items => existsb holdsToString items
  | _ => false
  end.

(** [NaN] or 0: the numbers that are falsy. *)
Definition zeroOrNaN (n : number) : Prop := n = NaN \/ n = Fin 0.

Definition invalidFormat : Response :=
  mkResponse 400 (Failure "Invalid location format").
Definition locationRequired : Response :=
  mkResponse 400 (Failure "Location with lat/lng is required").
Definition planningFailed : Response :=
  mkResponse 500 (Failure "Failed to plan trip").

(** What the conversion of a value without text throws. *)
Definition noPrimitive : exn :=
  TypeError "Cannot convert object to primitive value".

(** Services that answer nothing, on a world without state. *)
Definition silentTimeout (ms : nat) (s : unit) : unit := s.
Definition silentModel (prompt : Prompt) : M unit (option string) := ret None.
Definition noJson (json : string) : option jsval := None.
Definition silentSnap (body : SnapRequest) : M unit (option (list SnapItem)) :=
  ret None.
Definition silentDirections (body : DirectionsRequest)
    : M unit (option (list Feature)) := ret None.
Definition noParse (s : string) : number := NaN.
Definition noText (n : number) : string := EmptyString.

(** [planTrip] over these services. *)
Definition samplePlanTrip : jsval -> string -> M unit Response :=
  planTrip silentTimeout silentModel noJson silentSnap silentDirections
    (Some "key") sampleWeather sampleTomorrow noParse noText.

Definition greenwich : jsval :=
  JObj [("name", JStr "Greenwich"); ("lat", JNum (Fin 51)); ("lng", JNum (Fin 0))].
Definition barcelona : jsval :=
  JObj [("name", JStr "Barcelona"); ("lat", JNum (Fin 41)); ("lng", JNum (Fin 2))].
(** A location whose [lat] is the object [{ toString: 1 }]. *)
Definition unreadableLat : jsval :=
  JObj [("lat", JObj [("toString", JNum (Fin 1))]); ("lng", JNum (Fin 2))].

(** ** The simulated route *)

(** The state of the generator after [n] numbers. *)
Fixpoint draws {W : Type} (random : W -> W * R) (n : nat) (s : W) : W :=
  match n with
  | O => s
  | S n' => draws random n' (fst (random s))
  end.

(** [Math.random] answers in [0, 1). *)
Definition unitInterval {W : Type} (random : W -> W * R) : Prop :=
  forall s, 0 <= snd (random s) < 1.

(** The point has real coordinates, each within 0.01085 degrees of the
    center. *)
Definition nearCenter (lat lng : R) (p : SimulatedPoint) : Prop :=
  exists la lo,
    simulated_lat p = Fin la /\ simulated_lng p = Fin lo
    /\ Rabs (la - lat) <= 0.01085 /\ Rabs (lo - lng) <= 0.01085.

(** A generator that always answers 1/2. *)
Definition halves (s : unit) : unit * R := (s, / 2).

(** ** An answer on which the validator throws *)

(** The answer [{ "waypoints": [null, null, null] }], which [JSON.parse]
    yields for a reply of the model with that text. *)
Definition nullWaypoints : jsval :=
  JObj [("waypoints", JArr [JNull; JNull; JNull])].

(** A proposer that gives this answer at every call. *)
Definition nullProposer {W : Type} (location tripType : string) (isRetry : bool)
  : M W jsval :=
  ret nullWaypoints.

(** ** Replies of the model that need the later stages *)

(** A [JSON.parse] that reads the empty object alone. *)
Definition bracesParse (json : string) : option jsval :=
  if String.eqb json "{}" then Some (JObj []) else None.

(** A reply between code fences and with a trailing comma, which only
    stage (c) reads, and a reply with words around the object, which
    stage (b) reads. *)
Definition fencedReply : string := " ```json {, }``` ".
Definition wordyReply : string := "Here it is: {} and no more".

(* ================================================================= *)
(** * Part III: properties *)
(* ================================================================= *)

Lemma Rltb_true x y : Rltb x y = true <-> x < y.
Proof. unfold Rltb; destruct (Rlt_dec x y); split; intros; try easy. Qed.

Lemma Rltb_false x y : Rltb x y = false <-> ~ x < y.
Proof. unfold Rltb; destruct (Rlt_dec x y); split; intros; try easy. Qed.

Lemma Rleb_true x y : Rleb x y = true <-> x <= y.
Proof. unfold Rleb; destruct (Rle_dec x y); split; intros; try easy. Qed.

Lemma Rleb_false x y : Rleb x y = false <-> ~ x <= y.
Proof. unfold Rleb; destruct (Rle_dec x y); split; intros; try easy. Qed.

Lemma Reqb_true x y : Reqb x y = true <-> x = y.
Proof. unfold Reqb; destruct (Req_dec_T x y); split; intros; try easy. Qed.

Lemma Reqb_false x y : Reqb x y = false <-> x <> y.
Proof. unfold Reqb; destruct (Req_dec_T x y); split; intros; try easy. Qed.

(** ** [isStraightLine] *)

Lemma sq_eq_nonneg (a b : R) : 0 <= a -> 0 <= b -> a ^ 2 = b ^ 2 -> a = b.
Proof. intros Ha Hb H. nra. Qed.

(** Two direction vectors that point the same way make the angle 0. *)
Lemma turnAngle_same_direction (prev curr next : point) (k1 k2 dx dy angle : R) :
  0 <= k1 -> 0 <= k2 ->
  lat curr - lat prev = k1 * dx -> lng curr - lng prev = k1 * dy ->
  lat next - lat curr = k2 * dx -> lng next - lng curr = k2 * dy ->
  turnAngle prev curr next = Some angle ->
  angle = 0.
Proof.
  intros Hk1 Hk2 E1 E2 E3 E4. unfold turnAngle.
  rewrite E1, E2, E3, E4.
  set (len1 := sqrt ((k1 * dx) ^ 2 + (k1 * dy) ^ 2)).
  set (len2 := sqrt ((k2 * dx) ^ 2 + (k2 * dy) ^ 2)).
  destruct (Reqb len1 0) eqn:Z1; [discriminate|].
  destruct (Reqb len2 0) eqn:Z2; [discriminate|].
  apply Reqb_false in Z1. apply Reqb_false in Z2. simpl.
  intros H. injection H as <-.
  assert (P1 : 0 <= len1) by apply sqrt_pos.
  assert (P2 : 0 <= len2) by apply sqrt_pos.
  assert (S1 : len1 ^ 2 = (k1 * dx) ^ 2 + (k1 * dy) ^ 2)
    by (apply pow2_sqrt; nra).
  assert (S2 : len2 ^ 2 = (k2 * dx) ^ 2 + (k2 * dy) ^ 2)
    by (apply pow2_sqrt; nra).
  assert (D : k1 * dx * (k2 * dx) + k1 * dy * (k2 * dy) = len1 * len2).
  { apply sq_eq_nonneg.
    - assert (0 <= k1 * k2) by nra. nra.
    - nra.
    - replace ((len1 * len2) ^ 2) with (len1 ^ 2 * len2 ^ 2) by ring.
      rewrite S1, S2. ring. }
  rewrite D.
  replace (len1 * len2 / (len1 * len2)) with 1 by (field; split; assumption).
  rewrite Rmin_left by lra. rewrite Rmax_right by lra.
  rewrite acos_1. ring.
Qed.

(** Two perpendicular direction vectors make the angle 90. *)
Lemma turnAngle_perpendicular (prev curr next : point) (angle : R) :
  (lat curr - lat prev) * (lat next - lat curr)
  + (lng curr - lng prev) * (lng next - lng curr) = 0 ->
  turnAngle prev curr next = Some angle ->
  angle = 90.
Proof.
  intros D. unfold turnAngle.
  destruct (_ || _); [discriminate|].
  intros H. injection H as <-. rewrite D.
  unfold Rdiv at 1. rewrite Rmult_0_l.
  rewrite Rmin_right by lra. rewrite Rmax_right by lra.
  rewrite acos_0. field. apply PI_neq0.
Qed.

(** Two opposite direction vectors make the angle 180. *)
Lemma turnAngle_opposite (prev curr next : point) (angle : R) :
  lat next - lat curr = - (lat curr - lat prev) ->
  lng next - lng curr = - (lng curr - lng prev) ->
  turnAngle prev curr next = Some angle ->
  angle = 180.
Proof.
  intros E1 E2. unfold turnAngle. rewrite E1, E2.
  set (x := lat curr - lat prev). set (y := lng curr - lng prev).
  replace ((- x) ^ 2 + (- y) ^ 2) with (x ^ 2 + y ^ 2) by ring.
  set (len := sqrt (x ^ 2 + y ^ 2)).
  destruct (Reqb len 0) eqn:Z1; [discriminate|].
  apply Reqb_false in Z1. simpl.
  intros H. injection H as <-.
  assert (S1 : len ^ 2 = x ^ 2 + y ^ 2) by (apply pow2_sqrt; nra).
  replace ((x * - x + y * - y) / (len * len)) with (-1).
  2:{ replace (x * - x + y * - y) with (- (len ^ 2)) by (rewrite S1; ring).
      field. assumption. }
  rewrite Rmin_right by lra. rewrite Rmax_left by lra.
  replace (-1) with (- (1)) by ring.
  rewrite acos_opp, acos_1. field. apply PI_neq0.
Qed.

(** Along a line traversed in order no angle is counted as straight. *)
Lemma countAngles_onLine (a : point) (dx dy : R) (ts : list R) :
  inOrder ts ->
  forall s t, fst (countAngles (onLine a dx dy ts) s t) = s.
Proof.
  induction ts as [|t1 ts IH]; intros Ho s t; [reflexivity|].
  destruct ts as [|t2 [|t3 ts']]; try reflexivity.
  destruct Ho as [H12 Ho]. pose proof Ho as [H23 _].
  specialize (IH Ho).
  change (onLine a dx dy (t1 :: t2 :: t3 :: ts'))
    with (mkPoint (lat a + t1 * dx) (lng a + t1 * dy)
            :: onLine a dx dy (t2 :: t3 :: ts')).
  change (onLine a dx dy (t2 :: t3 :: ts'))
    with (mkPoint (lat a + t2 * dx) (lng a + t2 * dy)
            :: mkPoint (lat a + t3 * dx) (lng a + t3 * dy)
            :: onLine a dx dy ts') in *.
  cbn [countAngles].
  destruct (turnAngle _ _ _) as [angle|] eqn:E.
  - apply (turnAngle_same_direction _ _ _ (t2 - t1) (t3 - t2) dx dy) in E;
      cbn [lat lng]; try lra; try ring.
    subst angle.
    replace (Rltb 170 0) with false
      by (symmetry; apply Rltb_false; lra).
    apply IH.
  - apply IH.
Qed.

(** Whatever the line, the base point and the parameters, as long as the
    points are traversed in order, [isStraightLine] answers [false]. *)
Lemma isStraightLine_onLine_false (a : point) (dx dy : R) (ts : list R) :
  inOrder ts -> isStraightLine (onLine a dx dy ts) = false.
Proof.
  intros Ho. unfold isStraightLine.
  destruct (_ <? 3)%nat; [reflexivity|].
  pose proof (countAngles_onLine a dx dy ts Ho 0%nat 0%nat) as H.
  destruct (countAngles _ _ _) as [s t]. cbn in H. subst s.
  destruct (0 <? t)%nat eqn:T; [|reflexivity]. cbn.
  apply Rltb_false. unfold Rdiv. rewrite Rmult_0_l. lra.
Qed.

(** C1 (code side).  On the three points (41,2), (41,3), (41,4) of one
    straight line, traversed in order, [isStraightLine] returns [false];
    on the right-angle zigzag (0,0), (0,1), (1,1), (1,2) it returns
    [false] as well. *)
Theorem isStraightLine_colinear_false :
  isStraightLine [mkPoint 41 2; mkPoint 41 3; mkPoint 41 4] = false
  /\ isStraightLine [mkPoint 0 0; mkPoint 0 1; mkPoint 1 1; mkPoint 1 2] = false.
Proof.
  split.
  - replace [mkPoint 41 2; mkPoint 41 3; mkPoint 41 4]
      with (onLine (mkPoint 41 2) 0 1 [0; 1; 2]).
    + apply isStraightLine_onLine_false. cbn. lra.
    + unfold onLine. cbn. repeat f_equal; ring.
  - unfold isStraightLine. cbn [length Nat.ltb Nat.leb countAngles].
    destruct (turnAngle (mkPoint 0 0) (mkPoint 0 1) (mkPoint 1 1))
      as [a1|] eqn:E1;
    destruct (turnAngle (mkPoint 0 1) (mkPoint 1 1) (mkPoint 1 2))
      as [a2|] eqn:E2;
    try (apply turnAngle_perpendicular in E1; [subst a1 | cbn; ring]);
    try (apply turnAngle_perpendicular in E2; [subst a2 | cbn; ring]);
    replace (Rltb 170 90) with false
      by (symmetry; apply Rltb_false; lra);
    cbn; try reflexivity;
    apply Rltb_false; lra.
Qed.

(** What the function does detect: a path that turns back on itself. *)
Lemma isStraightLine_back_and_forth :
  isStraightLine [mkPoint 0 0; mkPoint 1 1; mkPoint 0 0] = true.
Proof.
  unfold isStraightLine. cbn [length Nat.ltb Nat.leb countAngles].
  destruct (turnAngle _ _ _) as [a1|] eqn:E1.
  - apply turnAngle_opposite in E1; [subst a1 | cbn; ring | cbn; ring].
    replace (Rltb 170 180) with true by (symmetry; apply Rltb_true; lra).
    cbn. apply Rltb_true. lra.
  - exfalso. unfold turnAngle in E1. cbn [lat lng] in E1.
    destruct (Reqb _ 0) eqn:Z1.
    + apply Reqb_true in Z1. apply sqrt_eq_0 in Z1; nra.
    + destruct (Reqb (sqrt ((0 - 1) ^ 2 + (0 - 1) ^ 2)) 0) eqn:Z2; [|discriminate].
      apply Reqb_true in Z2. apply sqrt_eq_0 in Z2; nra.
Qed.

(** ** [isWaypointsValid] *)

Lemma absLe_true x b : absLe x b = true <-> exists r, x = Fin r /\ Rabs r <= b.
Proof.
  destruct x as [|r]; cbn.
  - split; [discriminate | intros (r & H & _); discriminate].
  - rewrite Rleb_true. split.
    + intros H. exists r. auto.
    + intros (r' & E & H). injection E as ->. exact H.
Qed.

Lemma isValid_true (wp : jsval) : isValid wp = Return true <-> coordinateOk wp.
Proof.
  unfold coordinateOk. split.
  - unfold isValid, getProp.
    destruct wp; try discriminate;
      destruct (prop _ "lat") as [ | | |la| | | ] eqn:Ela; try discriminate;
      destruct (prop _ "lng") as [ | | |lo| | | ] eqn:Elo; try discriminate;
      intros H; injection H as H;
      apply andb_prop in H as [H Hz]; apply andb_prop in H as [Hla Hlo];
      apply absLe_true in Hla as (a & -> & Ha);
      apply absLe_true in Hlo as (o & -> & Ho);
      exists a, o; repeat split; auto;
      intros [Z1 Z2]; cbn in Hz;
      apply Rltb_true in Z1; apply Rltb_true in Z2;
      rewrite Z1, Z2 in Hz; discriminate.
  - intros (la & lo & Ela & Elo & Hla & Hlo & Hz).
    unfold isValid, getProp.
    destruct wp; try (cbn in Ela; discriminate).
    rewrite Ela, Elo. f_equal. cbn.
    apply Rleb_true in Hla, Hlo. rewrite Hla, Hlo. cbn.
    destruct (Rltb (Rabs la) 0.5) eqn:Z1; [|reflexivity].
    destruct (Rltb (Rabs lo) 0.5) eqn:Z2; [|reflexivity].
    apply Rltb_true in Z1, Z2. tauto.
Qed.

Lemma every_isValid_true (wps : list jsval) :
  every isValid wps = Return true <-> Forall coordinateOk wps.
Proof.
  induction wps as [|wp wps IH]; cbn.
  - split; auto.
  - destruct (isValid wp) as [[|]|e] eqn:E.
    + rewrite IH. apply isValid_true in E. split.
      * intros H. constructor; assumption.
      * intros H. inversion H; assumption.
    + split; [discriminate|]. intros H. inversion H as [|? ? H1 _]; subst.
      apply isValid_true in H1. congruence.
    + split; [discriminate|]. intros H. inversion H as [|? ? H1 _]; subst.
      apply isValid_true in H1. congruence.
Qed.

(** C2.  [isWaypointsValid] returns [true] exactly when its argument is an
    array of at least 3 points, every point has numeric [lat] and [lng]
    with |lat| <= 90 and |lng| <= 180 and is not the near-zero placeholder
    (both below 0.5 in absolute value), and [isStraightLine] answers
    [false] on the points. *)
Theorem isWaypointsValid_true_iff (waypoints : jsval) :
  isWaypointsValid waypoints = Return true
  <-> exists wps : list jsval,
        waypoints = JArr wps
        /\ (3 <= length wps)%nat
        /\ Forall coordinateOk wps
        /\ isStraightLine (map toPoint wps) = false.
Proof.
  split.
  - destruct waypoints as [ | | | | |wps| ]; try discriminate.
    unfold isWaypointsValid.
    destruct (length wps <? 3)%nat eqn:L; [discriminate|].
    apply Nat.ltb_ge in L.
    destruct (every isValid wps) as [[|]|e] eqn:E; try discriminate.
    intros H. injection H as H. apply negb_true_iff in H.
    exists wps. repeat split; auto. now apply every_isValid_true.
  - intros (wps & -> & L & Hall & Hs). unfold isWaypointsValid.
    apply Nat.ltb_ge in L. rewrite L.
    apply every_isValid_true in Hall. rewrite Hall, Hs. reflexivity.
Qed.

(** ** The split index *)

Lemma findIndex_range (p : R -> bool) (l : list R) (k : Z) :
  (0 <= k)%Z ->
  findIndex p l k = (-1)%Z
  \/ (k <= findIndex p l k < k + Z.of_nat (length l))%Z.
Proof.
  revert k. induction l as [|v l IH]; intros k Hk; cbn [findIndex length].
  - left; reflexivity.
  - destruct (p v).
    + right. lia.
    + destruct (IH (k + 1)%Z ltac:(lia)) as [E|E]; [left; exact E | right; lia].
Qed.

Lemma findIndex_first (th : R) (l : list R) (i : nat) (k : Z) :
  firstAtLeast l th i ->
  findIndex (fun v => Rleb th v) l k = (k + Z.of_nat i)%Z.
Proof.
  revert i k. induction l as [|v l IH]; intros i k [(w & Hw & Hle) Hbefore].
  - destruct i; discriminate.
  - cbn [findIndex]. destruct i as [|i].
    + cbn in Hw. injection Hw as ->.
      apply Rleb_true in Hle. rewrite Hle. lia.
    + assert (Hv : v < th) by (apply (Hbefore 0%nat); [lia | reflexivity]).
      replace (Rleb th v) with false by (symmetry; apply Rleb_false; lra).
      rewrite (IH i (k + 1)%Z); [lia|]. split.
      * exists w. split; assumption.
      * intros j u Hj Hu. apply (Hbefore (S j)); [lia | exact Hu].
Qed.

Lemma findIndex_none (th : R) (l : list R) (k : Z) :
  Forall (fun v => v < th) l ->
  findIndex (fun v => Rleb th v) l k = (-1)%Z.
Proof.
  intros H. revert k. induction H as [|v l Hv _ IH]; intros k; cbn [findIndex].
  - reflexivity.
  - replace (Rleb th v) with false by (symmetry; apply Rleb_false; lra).
    apply IH.
Qed.

(** The test [splitIdx === -1] comes after [Math.max(1, ...)]: it never
    holds, and the split index is the clamped [findIndex]. *)
Lemma splitIndex_clamped (coords : list coord) (properties : Properties) :
  splitIndex coords properties
  = Z.max 1 (findIndex
               (fun v => Rleb (totalGeomMeters (cumulative coords) properties / 2) v)
               (cumulative coords) 0).
Proof.
  unfold splitIndex. cbv zeta.
  destruct (Z.eqb_spec (Z.max 1 (findIndex
      (fun v => Rleb (totalGeomMeters (cumulative coords) properties / 2) v)
      (cumulative coords) 0)) (-1)) as [E|_]; [lia | reflexivity].
Qed.

Lemma splitIndex_ge_1 (coords : list coord) (properties : Properties) :
  (1 <= splitIndex coords properties)%Z.
Proof. rewrite splitIndex_clamped. lia. Qed.

(** When no vertex reaches half the total, the index is 1, not the
    midpoint. *)
Lemma splitIndex_not_found (coords : list coord) (properties : Properties) :
  Forall (fun v => v < totalGeomMeters (cumulative coords) properties / 2)
         (cumulative coords) ->
  splitIndex coords properties = 1%Z.
Proof.
  intros H. rewrite splitIndex_clamped, findIndex_none by exact H. reflexivity.
Qed.

Lemma length_cumFrom (acc : R) (prev : coord) (rest : list coord) :
  length (cumFrom acc prev rest) = length rest.
Proof.
  revert acc prev. induction rest as [|c rest IH]; intros; cbn; [|rewrite IH]; reflexivity.
Qed.

Lemma length_cumulative (coords : list coord) :
  length (cumulative coords) = Nat.max 1 (length coords).
Proof.
  destruct coords as [|c rest]; cbn; [reflexivity|].
  rewrite length_cumFrom. destruct rest; reflexivity.
Qed.

Lemma splitIndex_in_range (coords : list coord) (properties : Properties) :
  (2 <= length coords)%nat ->
  (1 <= splitIndex coords properties < Z.of_nat (length coords))%Z.
Proof.
  intros Hn. split; [apply splitIndex_ge_1|].
  rewrite splitIndex_clamped.
  pose proof (findIndex_range
    (fun v => Rleb (totalGeomMeters (cumulative coords) properties / 2) v)
    (cumulative coords) 0 ltac:(lia)) as H.
  rewrite length_cumulative in H. lia.
Qed.

Lemma haversine_same_point (a : coord) : haversineMetersLonLat a a = 0.
Proof.
  destruct a as [lon la]. unfold haversineMetersLonLat, toRad.
  replace ((la - la) * PI / 180 / 2) with 0 by (field; apply PI_neq0).
  replace ((lon - lon) * PI / 180 / 2) with 0 by (field; apply PI_neq0).
  rewrite sin_0.
  replace (0 ^ 2 + cos (la * PI / 180) * cos (la * PI / 180) * 0 ^ 2) with 0
    by ring.
  rewrite sqrt_0, asin_0. ring.
Qed.

(** C7 (as amended).  When some vertex reaches half the total geometric
    length, the split index is the index of the first such vertex, raised
    to 1 when that index is 0. *)
Theorem splitIndex_first_reaching_half
    (coords : list coord) (properties : Properties) (i : nat) :
  firstAtLeast (cumulative coords)
               (totalGeomMeters (cumulative coords) properties / 2) i ->
  splitIndex coords properties = Z.max 1 (Z.of_nat i).
Proof.
  intros H. rewrite splitIndex_clamped.
  rewrite (findIndex_first _ _ i 0 H). reflexivity.
Qed.

Lemma totalGeomMeters_zero_path (cum : list R) :
  last cum 0 = 0 -> totalGeomMeters cum noProperties = 0.
Proof.
  intros H. unfold totalGeomMeters. rewrite H. cbn.
  destruct (Reqb 0 0); reflexivity.
Qed.

Lemma firstAtLeast_two_equal_vertices (c : coord) :
  firstAtLeast (cumulative [c; c])
    (totalGeomMeters (cumulative [c; c]) noProperties / 2) 0.
Proof.
  unfold cumulative, cumFrom. rewrite haversine_same_point.
  rewrite totalGeomMeters_zero_path by (cbn; ring).
  split.
  - exists 0. split; [reflexivity | lra].
  - intros j v Hj. lia.
Qed.

Lemma splitIndex_first_reaching_half_witness :
  splitIndex [(2, 41); (2, 41)] noProperties = Z.max 1 (Z.of_nat 0).
Proof.
  apply (splitIndex_first_reaching_half [(2, 41); (2, 41)] noProperties 0).
  apply firstAtLeast_two_equal_vertices.
Defined.

(** C7 (as stated) fails on a path of two equal vertices: the first vertex
    reaches half of the total length 0, its index is 0, and the split
    index is 1. *)
Lemma splitIndex_not_as_described :
  ~ splitIndexAsDescribed [(2, 41); (2, 41)] noProperties.
Proof.
  intros [H _]. specialize (H 0%nat (firstAtLeast_two_equal_vertices _)).
  pose proof (splitIndex_ge_1 [(2, 41); (2, 41)] noProperties). lia.
Qed.

(** On a path of positive total length the first vertex does not reach
    the half, and the split index is exactly the index of the first
    vertex that does. *)
Lemma splitIndex_positive_length
    (coords : list coord) (properties : Properties) (i : nat) :
  0 < totalGeomMeters (cumulative coords) properties ->
  firstAtLeast (cumulative coords)
               (totalGeomMeters (cumulative coords) properties / 2) i ->
  splitIndex coords properties = Z.of_nat i.
Proof.
  intros Hpos H. rewrite splitIndex_clamped, (findIndex_first _ _ i 0 H).
  destruct i as [|i]; [|lia].
  destruct H as [(v & Hv & Hle) _]. cbn in Hv. injection Hv as <-. lra.
Qed.

(** The midpoint is never taken: on four equal vertices with a reported
    distance of 1000 m no vertex reaches 500 m, the midpoint index is 2,
    and the split index is 1. *)
Lemma splitIndex_midpoint_not_taken :
  splitIndex [(2, 41); (2, 41); (2, 41); (2, 41)]
             (mkProperties (Some 1000) None None None) = 1%Z
  /\ Z.of_nat (length [(2, 41); (2, 41); (2, 41); (2, 41)] / 2) = 2%Z.
Proof.
  split; [|reflexivity].
  apply splitIndex_not_found.
  assert (Hcum : cumulative [(2, 41); (2, 41); (2, 41); (2, 41)] = [0; 0; 0; 0]).
  { unfold cumulative, cumFrom. rewrite !haversine_same_point.
    repeat f_equal; ring. }
  rewrite Hcum. unfold totalGeomMeters. cbn [last summary_distance orElse].
  replace (Reqb 0 0) with true by (symmetry; apply Reqb_true; reflexivity).
  replace (Reqb 1000 0) with false by (symmetry; apply Reqb_false; lra).
  repeat (constructor; [lra|]). constructor.
Qed.

(** ** The points and their days *)

Lemma buildPoints_coords tripType splitIdx coords i o :
  map (fun p => (RoutePoint.lng p, RoutePoint.lat p))
      (buildPoints tripType splitIdx coords i o) = coords.
Proof.
  revert i o. induction coords as [|[lon la] rest IH]; intros; cbn.
  - reflexivity.
  - rewrite IH. reflexivity.
Qed.

Lemma buildPoints_orders tripType splitIdx coords i o :
  map RoutePoint.order (buildPoints tripType splitIdx coords i o)
  = seq o (length coords).
Proof.
  revert i o. induction coords as [|[lon la] rest IH]; intros; cbn.
  - reflexivity.
  - rewrite IH. reflexivity.
Qed.

Lemma buildPoints_days tripType splitIdx coords i :
  Forall (fun p => RoutePoint.day p
                   = dayOfIndex tripType splitIdx (RoutePoint.order p))
         (buildPoints tripType splitIdx coords i i).
Proof.
  revert i. induction coords as [|[lon la] rest IH]; intros; cbn.
  - constructor.
  - constructor; [reflexivity | apply IH].
Qed.

Lemma dayOfIndex_cases tripType splitIdx i :
  dayOfIndex tripType splitIdx i = 1%nat \/ dayOfIndex tripType splitIdx i = 2%nat.
Proof.
  unfold dayOfIndex. destruct (isCycling tripType); auto.
  destruct (_ <=? _)%Z; auto.
Qed.

Lemma dayOfIndex_2_later tripType splitIdx i j :
  dayOfIndex tripType splitIdx i = 2%nat -> (i <= j)%nat ->
  dayOfIndex tripType splitIdx j = 2%nat.
Proof.
  unfold dayOfIndex. destruct (isCycling tripType); [|discriminate].
  destruct (Z.leb_spec (Z.of_nat i) splitIdx); [discriminate|].
  intros _ Hij. destruct (Z.leb_spec (Z.of_nat j) splitIdx); [lia | reflexivity].
Qed.

Lemma pointsOfDay_1_empty tripType splitIdx coords i j :
  dayOfIndex tripType splitIdx i = 2%nat -> (i <= j)%nat ->
  pointsOfDay 1 (buildPoints tripType splitIdx coords j j) = [].
Proof.
  intros H2. revert j. induction coords as [|[lon la] rest IH]; intros j Hij.
  - reflexivity.
  - cbn. rewrite (dayOfIndex_2_later _ _ _ _ H2 Hij). cbn.
    apply IH. lia.
Qed.

(** The points of day 1 followed by those of day 2 are all the points, in
    their order. *)
Lemma pointsOfDay_partition tripType splitIdx coords i :
  pointsOfDay 1 (buildPoints tripType splitIdx coords i i)
  ++ pointsOfDay 2 (buildPoints tripType splitIdx coords i i)
  = buildPoints tripType splitIdx coords i i.
Proof.
  revert i. induction coords as [|[lon la] rest IH]; intros i.
  - reflexivity.
  - cbn [buildPoints pointsOfDay filter RoutePoint.day].
    destruct (dayOfIndex_cases tripType splitIdx i) as [E|E]; rewrite E; cbn.
    + f_equal. apply IH.
    + fold (pointsOfDay 1 (buildPoints tripType splitIdx rest (S i) (S i))).
      rewrite (pointsOfDay_1_empty _ _ _ i (S i) E) by lia. cbn.
      f_equal. specialize (IH (S i)).
      rewrite (pointsOfDay_1_empty _ _ _ i (S i) E) in IH by lia.
      exact IH.
Qed.

Ltac bool_lia :=
  apply Bool.eq_iff_eq_true;
  rewrite ?orb_true_iff, ?andb_true_iff, ?Nat.eqb_eq, ?Nat.leb_le, ?Nat.ltb_lt;
  cbn [length]; lia.

Lemma existsb_order_buildPoints tripType splitIdx coords i k :
  existsb (fun p => Nat.eqb (RoutePoint.order p) k)
          (buildPoints tripType splitIdx coords i i)
  = ((i <=? k) && (k <? i + length coords))%nat.
Proof.
  revert i. induction coords as [|[lon la] rest IH]; intros i.
  - cbn [buildPoints existsb]. bool_lia.
  - cbn [buildPoints existsb RoutePoint.order]. rewrite IH. bool_lia.
Qed.

Lemma existsb_order_pointsOfDay tripType splitIdx coords d i k :
  existsb (fun p => Nat.eqb (RoutePoint.order p) k)
          (pointsOfDay d (buildPoints tripType splitIdx coords i i))
  = ((i <=? k) && (k <? i + length coords)
     && (dayOfIndex tripType splitIdx k =? d))%nat.
Proof.
  revert i. induction coords as [|[lon la] rest IH]; intros i.
  - cbn [buildPoints pointsOfDay filter existsb]. bool_lia.
  - cbn [buildPoints pointsOfDay filter RoutePoint.day].
    fold (pointsOfDay d (buildPoints tripType splitIdx rest (S i) (S i))).
    destruct (Nat.eqb_spec (dayOfIndex tripType splitIdx i) d) as [Ed|Ed].
    + cbn [existsb RoutePoint.order]. rewrite IH.
      destruct (Nat.eqb_spec i k) as [->|Hik].
      * rewrite Ed, Nat.eqb_refl. bool_lia.
      * bool_lia.
    + rewrite IH.
      destruct (Nat.eqb_spec i k) as [->|Hik].
      * apply Nat.eqb_neq in Ed. rewrite Ed, !andb_false_r. reflexivity.
      * bool_lia.
Qed.

Lemma splitIntoDays_points tripType coords properties :
  RouteResult.points (splitIntoDays tripType coords properties)
  = buildPoints tripType (splitIndex coords properties) coords 0 0.
Proof. reflexivity. Qed.

Lemma splitIntoDays_daily_points tripType coords properties :
  map DailyRoute.points
      (RouteResult.dailyRoutes (splitIntoDays tripType coords properties))
  = let points := buildPoints tripType (splitIndex coords properties) coords 0 0 in
    if isCycling tripType
    then [pointsOfDay 1 points; pointsOfDay 2 points]
    else [points].
Proof.
  unfold splitIntoDays. cbv zeta. cbn [RouteResult.dailyRoutes].
  destruct (isCycling tripType); reflexivity.
Qed.

Lemma splitIntoDays_daily_days tripType coords properties :
  map DailyRoute.day
      (RouteResult.dailyRoutes (splitIntoDays tripType coords properties))
  = if isCycling tripType then [1; 2]%nat else [1%nat].
Proof.
  unfold splitIntoDays. cbv zeta. cbn [RouteResult.dailyRoutes].
  destruct (isCycling tripType); reflexivity.
Qed.

Lemma holdsVertex_by_points (i : nat) (ds : list DailyRoute.t) :
  length (filter (holdsVertex i) ds)
  = length (filter (existsb (fun p => Nat.eqb (RoutePoint.order p) i))
                   (map DailyRoute.points ds)).
Proof.
  induction ds as [|d ds IH]; [reflexivity|].
  cbn [map filter]. unfold holdsVertex at 1.
  destruct (existsb _ _); cbn [length]; rewrite IH; reflexivity.
Qed.

Lemma carries_day_by_points (ds : list DailyRoute.t) :
  Forall2 (fun d pts => Forall (fun p => RoutePoint.day p = d) pts)
          (map DailyRoute.day ds) (map DailyRoute.points ds) ->
  Forall (fun d => Forall (fun p => RoutePoint.day p = DailyRoute.day d)
                          (DailyRoute.points d)) ds.
Proof.
  induction ds as [|d ds IH]; intros H; [constructor|].
  inversion H; subst. constructor; auto.
Qed.

Lemma pointsOfDay_day d pts :
  Forall (fun p => RoutePoint.day p = d) (pointsOfDay d pts).
Proof.
  apply Forall_forall. intros p Hp. apply filter_In in Hp as [_ Hp].
  now apply Nat.eqb_eq in Hp.
Qed.

(** C5.  In the result of the synthesis the points are the vertices of the
    geometry with the orders 0, 1, 2, ...; the daily routes' point lists,
    put end to end in day order, are exactly these points, so the orders
    increase strictly along them; every vertex is held by exactly one
    daily route; the points of a daily route carry its day; and a point's
    day is, for cycling, 1 when its index is at or before the split index
    and 2 otherwise, for any other trip type 1. *)
Theorem day_partition_complete
    (tripType : string) (coords : list coord) (properties : Properties) :
  let r := splitIntoDays tripType coords properties in
  let splitIdx := splitIndex coords properties in
  map (fun p => (RoutePoint.lng p, RoutePoint.lat p)) (RouteResult.points r)
  = coords
  /\ map RoutePoint.order (RouteResult.points r) = seq 0 (length coords)
  /\ concat (map DailyRoute.points (RouteResult.dailyRoutes r))
     = RouteResult.points r
  /\ map RoutePoint.order
         (concat (map DailyRoute.points (RouteResult.dailyRoutes r)))
     = seq 0 (length coords)
  /\ Forall (fun i => length (filter (holdsVertex i) (RouteResult.dailyRoutes r))
                      = 1%nat)
            (seq 0 (length coords))
  /\ Forall (fun d => Forall (fun p => RoutePoint.day p = DailyRoute.day d)
                             (DailyRoute.points d))
            (RouteResult.dailyRoutes r)
  /\ Forall (fun p => RoutePoint.day p
                      = if isCycling tripType
                        then (if (Z.of_nat (RoutePoint.order p) <=? splitIdx)%Z
                              then 1%nat else 2%nat)
                        else 1%nat)
            (RouteResult.points r).
Proof.
  intros r splitIdx. subst r splitIdx.
  assert (Hconcat :
    concat (map DailyRoute.points
              (RouteResult.dailyRoutes (splitIntoDays tripType coords properties)))
    = RouteResult.points (splitIntoDays tripType coords properties)).
  { rewrite splitIntoDays_daily_points, splitIntoDays_points. cbv zeta.
    destruct (isCycling tripType); cbn [concat]; rewrite app_nil_r.
    - apply pointsOfDay_partition.
    - reflexivity. }
  repeat split.
  - apply buildPoints_coords.
  - apply buildPoints_orders.
  - exact Hconcat.
  - rewrite Hconcat. apply buildPoints_orders.
  - apply Forall_forall. intros i Hi. apply in_seq in Hi.
    rewrite holdsVertex_by_points, splitIntoDays_daily_points. cbv zeta.
    destruct (isCycling tripType) eqn:C; cbn [filter].
    + rewrite !existsb_order_pointsOfDay.
      destruct (Nat.leb_spec 0 i); [|lia].
      destruct (Nat.ltb_spec i (0 + length coords)); [|lia]. cbn [andb].
      destruct (dayOfIndex_cases tripType (splitIndex coords properties) i)
        as [E|E]; rewrite E; reflexivity.
    + rewrite existsb_order_buildPoints.
      destruct (Nat.leb_spec 0 i); [|lia].
      destruct (Nat.ltb_spec i (0 + length coords)); [|lia]. reflexivity.
  - apply carries_day_by_points.
    rewrite splitIntoDays_daily_points, splitIntoDays_daily_days. cbv zeta.
    destruct (isCycling tripType) eqn:C; repeat constructor;
      try apply pointsOfDay_day.
    pose proof (buildPoints_days tripType (splitIndex coords properties) coords 0) as H.
    eapply Forall_impl; [|exact H]. intros p Hp. cbn beta in Hp.
    rewrite Hp. unfold dayOfIndex. rewrite C. reflexivity.
  - apply buildPoints_days.
Qed.

(** C10.  With at least 2 vertices in the geometry the split index is at
    least 1, and for cycling the first daily route, of day 1, starts with
    the first two vertices of the geometry. *)
Theorem first_day_holds_two_vertices
    (coords : list coord) (properties : Properties) :
  (2 <= length coords)%nat ->
  (1 <= splitIndex coords properties)%Z
  /\ exists (lon0 lat0 lon1 lat1 : R) (rest : list coord)
            (d1 : DailyRoute.t) (ds : list DailyRoute.t)
            (pts : list RoutePoint.t),
       coords = (lon0, lat0) :: (lon1, lat1) :: rest
       /\ RouteResult.dailyRoutes (splitIntoDays "cycling" coords properties)
          = d1 :: ds
       /\ DailyRoute.day d1 = 1%nat
       /\ DailyRoute.points d1
          = RoutePoint.mk lat0 lon0 1 0 :: RoutePoint.mk lat1 lon1 1 1 :: pts.
Proof.
  intros Hn. pose proof (splitIndex_ge_1 coords properties) as Hs.
  split; [exact Hs|].
  destruct coords as [|[lon0 lat0] [|[lon1 lat1] rest]]; cbn in Hn; try lia.
  exists lon0, lat0, lon1, lat1, rest.
  unfold splitIntoDays. cbv zeta.
  change (isCycling "cycling") with true. cbv iota.
  cbn [RouteResult.dailyRoutes].
  eexists. eexists. eexists.
  split; [reflexivity|]. split; [reflexivity|]. split; [reflexivity|].
  cbn [DailyRoute.points].
  cbn [buildPoints]. unfold dayOfIndex.
  change (isCycling "cycling") with true. cbv iota.
  repeat match goal with
         | |- context [(?a <=? ?b)%Z] => destruct (Z.leb_spec a b); [|lia]
         end.
  cbn [pointsOfDay filter RoutePoint.day Nat.eqb]. reflexivity.
Qed.

Lemma first_day_holds_two_vertices_witness :
  (1 <= splitIndex outAndBack noProperties)%Z
  /\ exists (lon0 lat0 lon1 lat1 : R) (rest : list coord)
            (d1 : DailyRoute.t) (ds : list DailyRoute.t)
            (pts : list RoutePoint.t),
       outAndBack = (lon0, lat0) :: (lon1, lat1) :: rest
       /\ RouteResult.dailyRoutes
            (splitIntoDays "cycling" outAndBack noProperties)
          = d1 :: ds
       /\ DailyRoute.day d1 = 1%nat
       /\ DailyRoute.points d1
          = RoutePoint.mk lat0 lon0 1 0 :: RoutePoint.mk lat1 lon1 1 1 :: pts.
Proof.
  apply (first_day_holds_two_vertices outAndBack noProperties).
  unfold outAndBack. simpl. lia.
Defined.

(** ** Conservation of the totals over the two days *)

Lemma ndiv_Fin (x y : R) : y <> 0 -> ndiv (Fin x) (Fin y) = Fin (x / y).
Proof.
  intros H. unfold ndiv. apply Reqb_false in H. rewrite H. reflexivity.
Qed.

Lemma arrayGet_in_range (a : list R) (i : Z) :
  (0 <= i < Z.of_nat (length a))%Z -> exists v, arrayGet a i = Fin v.
Proof.
  intros H. unfold arrayGet.
  destruct (Z.ltb_spec i 0); [lia|].
  destruct (nth_error a (Z.to_nat i)) as [v|] eqn:E.
  - exists v. reflexivity.
  - apply nth_error_None in E. lia.
Qed.

Lemma arrayGet_out_of_range (a : list R) (i : Z) :
  (Z.of_nat (length a) <= i)%Z -> arrayGet a i = NaN.
Proof.
  intros H. unfold arrayGet.
  destruct (Z.ltb_spec i 0); [reflexivity|].
  destruct (nth_error a (Z.to_nat i)) as [v|] eqn:E; [|reflexivity].
  assert (nth_error a (Z.to_nat i) <> None) as N by congruence.
  apply nth_error_Some in N. lia.
Qed.

(** C6 (as amended).  For a cycling route over a geometry of at least 2
    vertices, in real arithmetic: the distances of the two days add up to
    the total distance, their durations to the total duration, their
    elevation gains and losses to the total gain and loss; the first day
    has the distance accumulated up to the split index, and its duration
    and elevation are the totals of the service times the fraction [f] of
    that distance in the total (kept within 0 and 1), those of the second
    day the totals times [1 - f]. *)
Theorem split_conserves_totals (coords : list coord) (properties : Properties) :
  (2 <= length coords)%nat ->
  let r := splitIntoDays "cycling" coords properties in
  let totalSec := orElse (summary_duration properties) 0 in
  let up := orElse (ascent properties) 0 in
  let down := orElse (descent properties) 0 in
  splitConserves r
  /\ exists (day1Meters totalMeters f : R) (d1 d2 : DailyRoute.t),
       RouteResult.dailyRoutes r = [d1; d2]
       /\ arrayGet (cumulative coords) (splitIndex coords properties)
          = Fin day1Meters
       /\ RouteResult.totalDistance r = Fin (totalMeters / 1000)
       /\ f = Rmax 0 (Rmin 1 (day1Meters / Rmax totalMeters 1))
       /\ DailyRoute.distance d1 = Fin (day1Meters / 1000)
       /\ DailyRoute.duration d1 = Fin (totalSec * f / 3600)
       /\ DailyRoute.duration d2 = Fin (totalSec * (1 - f) / 3600)
       /\ DailyRoute.elevation d1 = mkElevation (Fin (up * f)) (Fin (down * f))
       /\ DailyRoute.elevation d2
          = mkElevation (Fin (up * (1 - f))) (Fin (down * (1 - f))).
Proof.
  intros Hn r totalSec up down.
  destruct (arrayGet_in_range (cumulative coords) (splitIndex coords properties))
    as [m1 Hm1].
  { pose proof (splitIndex_in_range coords properties Hn).
    rewrite length_cumulative. lia. }
  set (tm := orElse (summary_distance properties)
               (totalGeomMeters (cumulative coords) properties)).
  assert (Hmax : Rmax tm 1 <> 0) by (pose proof (Rmax_r tm 1); lra).
  assert (Hr : r = RouteResult.mk coords
    (buildPoints "cycling" (splitIndex coords properties) coords 0 0)
    [ DailyRoute.mk 1 (Fin (m1 / 1000))
        (Fin (totalSec * Rmax 0 (Rmin 1 (m1 / Rmax tm 1)) / 3600))
        (mkElevation (Fin (up * Rmax 0 (Rmin 1 (m1 / Rmax tm 1))))
                     (Fin (down * Rmax 0 (Rmin 1 (m1 / Rmax tm 1)))))
        (pointsOfDay 1
           (buildPoints "cycling" (splitIndex coords properties) coords 0 0));
      DailyRoute.mk 2 (Fin ((tm - m1) / 1000))
        (Fin (totalSec * (1 - Rmax 0 (Rmin 1 (m1 / Rmax tm 1))) / 3600))
        (mkElevation (Fin (up * (1 - Rmax 0 (Rmin 1 (m1 / Rmax tm 1)))))
                     (Fin (down * (1 - Rmax 0 (Rmin 1 (m1 / Rmax tm 1))))))
        (pointsOfDay 2
           (buildPoints "cycling" (splitIndex coords properties) coords 0 0)) ]
    (Fin (tm / 1000)) (Fin (totalSec / 3600))
    (mkElevation (Fin up) (Fin down))).
  { unfold r, splitIntoDays. cbv zeta.
    change (isCycling "cycling") with true. cbv iota.
    rewrite Hm1. fold tm. fold totalSec. fold up. fold down.
    unfold nmax, nmin, nsub, nmul, lift2.
    rewrite (ndiv_Fin m1 (Rmax tm 1)) by exact Hmax.
    rewrite !ndiv_Fin by lra. reflexivity. }
  rewrite Hr. split.
  - exists (DailyRoute.mk 1 (Fin (m1 / 1000))
        (Fin (totalSec * Rmax 0 (Rmin 1 (m1 / Rmax tm 1)) / 3600))
        (mkElevation (Fin (up * Rmax 0 (Rmin 1 (m1 / Rmax tm 1))))
                     (Fin (down * Rmax 0 (Rmin 1 (m1 / Rmax tm 1)))))
        (pointsOfDay 1
           (buildPoints "cycling" (splitIndex coords properties) coords 0 0))).
    eexists. split; [reflexivity|].
    cbn [DailyRoute.distance DailyRoute.duration DailyRoute.elevation gain loss
         RouteResult.totalDistance RouteResult.totalDuration
         RouteResult.totalElevation nadd lift2].
    unfold nadd, lift2.
    repeat split; eexists; (split; [|reflexivity]); f_equal; field.
  - exists m1, tm, (Rmax 0 (Rmin 1 (m1 / Rmax tm 1))).
    eexists. eexists. split; [reflexivity|].
    cbn [DailyRoute.distance DailyRoute.duration DailyRoute.elevation
         RouteResult.totalDistance].
    repeat split; try reflexivity. exact Hm1.
Qed.

Lemma split_conserves_totals_witness :
  splitConserves (splitIntoDays "cycling" outAndBack noProperties).
Proof.
  apply (split_conserves_totals outAndBack noProperties).
  unfold outAndBack. simpl. lia.
Defined.

(** C6 (as stated) fails on a geometry of a single vertex: the read
    [cum[splitIdx]] is out of range and the distance of day 1 is [NaN]. *)
Lemma split_not_conserved_single_vertex :
  ~ splitConserves (splitIntoDays "cycling" [(2, 41)] noProperties).
Proof.
  intros (d1 & d2 & Hd & (x & Hx & _) & _).
  unfold splitIntoDays in Hd. cbv zeta in Hd.
  change (isCycling "cycling") with true in Hd. cbv iota in Hd.
  cbn [RouteResult.dailyRoutes] in Hd.
  rewrite (arrayGet_out_of_range (cumulative [(2, 41)])) in Hd.
  2:{ pose proof (splitIndex_ge_1 [(2, 41)] noProperties). cbn. lia. }
  injection Hd as <- <-. cbn in Hx. discriminate.
Qed.

(** ** The snapper *)

Lemma length_locationsOf (wps : list jsval) (locations : list (jsval * jsval)) :
  locationsOf wps = Return locations -> length locations = length wps.
Proof.
  revert locations. induction wps as [|wp wps IH]; intros locations; cbn.
  - intros H. injection H as <-. reflexivity.
  - destruct (getProp wp "lng"); [|discriminate].
    destruct (getProp wp "lat"); [|discriminate].
    destruct (locationsOf wps) as [locs|]; [|discriminate].
    intros H. injection H as <-. cbn. f_equal. apply IH. reflexivity.
Qed.

Lemma existsb_isNull_missesOne (items : list SnapItem) :
  existsb isNull (map snappedOf items) = true <-> missesOne items.
Proof.
  rewrite existsb_exists. split.
  - intros (p & Hin & Hp). apply in_map_iff in Hin as (item & <- & Hin).
    exists item. split; [exact Hin|]. destruct (snappedOf item); [discriminate|reflexivity].
  - intros (item & Hin & Hnone). exists (snappedOf item). split.
    + apply in_map. exact Hin.
    + rewrite Hnone. reflexivity.
Qed.

Lemma length_present {A : Type} (l : list (option A)) :
  existsb isNull l = false -> length (present l) = length l.
Proof.
  induction l as [|[a|] l IH]; cbn; intros H.
  - reflexivity.
  - f_equal. apply IH. exact H.
  - discriminate.
Qed.

(** C4.  Once the request to the snap service is made: a reply whose
    number of entries differs from the number of waypoints, or in which
    an entry is null or without location, makes [snapWaypoints] throw
    'Snap failed'; so does any error of the transport or the service; and
    whenever [snapWaypoints] returns, it returns as many coordinates as
    there are waypoints, never fewer. *)
Theorem snap_all_or_nothing {W : Type}
    (snap_post : SnapRequest -> M W (option (list SnapItem)))
    (waypoints : jsval) (tripType : string)
    (wps : list jsval) (locations : list (jsval * jsval)) :
  waypoints = JArr wps ->
  locationsOf wps = Return locations ->
  let request :=
    mkSnapRequest (profileOf tripType) locations
      (if isCycling tripType then 120 else 200)%nat in
  (forall s s' items,
      snap_post request s = (s', Return (Some items)) ->
      length items <> length wps \/ missesOne items ->
      snapWaypoints snap_post waypoints tripType s
      = (s', Throw (Error "Snap failed")))
  /\ (forall s s',
      snap_post request s = (s', Return None) ->
      wps <> [] ->
      snapWaypoints snap_post waypoints tripType s
      = (s', Throw (Error "Snap failed")))
  /\ (forall s s' e,
      snap_post request s = (s', Throw e) ->
      snapWaypoints snap_post waypoints tripType s
      = (s', Throw (Error "Snap failed")))
  /\ (forall s s' coordinates,
      snapWaypoints snap_post waypoints tripType s = (s', Return coordinates) ->
      length coordinates = length wps).
Proof.
  intros -> Hloc request.
  pose proof (length_locationsOf _ _ Hloc) as Hlen.
  assert (Hrun : forall s,
    snapWaypoints snap_post (JArr wps) tripType s
    = match snap_post request s with
      | (s', Return data) =>
          let snapped :=
            map snappedOf (match data with Some items => items | None => [] end) in
          if negb (length snapped =? length locations)%nat || existsb isNull snapped
          then (s', Throw (Error "Snap failed"))
          else (s', Return (present snapped))
      | (s', Throw e) => (s', Throw (Error "Snap failed"))
      end).
  { intros s. unfold snapWaypoints, bind, tryCatch, liftResult, throw, ret.
    rewrite Hloc. fold request.
    destruct (snap_post request s) as [s' [data|e]]; [|reflexivity].
    cbv zeta. destruct (_ || _); reflexivity. }
  repeat split.
  - intros s s' items E Hbad. rewrite Hrun, E. cbv zeta.
    rewrite length_map, Hlen.
    destruct Hbad as [Hn|Hm].
    + apply Nat.eqb_neq in Hn. rewrite Hn. reflexivity.
    + apply existsb_isNull_missesOne in Hm. rewrite Hm.
      rewrite orb_true_r. reflexivity.
  - intros s s' E Hne. rewrite Hrun, E. cbv zeta. cbn [map length].
    rewrite Hlen. destruct wps; [congruence|]. reflexivity.
  - intros s s' e E. rewrite Hrun, E. reflexivity.
  - intros s s' coordinates. rewrite Hrun.
    destruct (snap_post request s) as [s1 [data|e]]; [|discriminate].
    cbv zeta.
    destruct (Nat.eqb_spec
                (length (map snappedOf
                           (match data with Some items => items | None => [] end)))
                (length locations)) as [El|El]; [|discriminate].
    cbn [negb orb].
    destruct (existsb isNull _) eqn:En; [discriminate|].
    intros H. injection H as _ <-.
    rewrite length_present by exact En. congruence.
Qed.

Lemma snap_all_or_nothing_witness :
  snapWaypoints
    (fun _ s => (s, Return (Some [Item (Some (2, 41)); NullItem; Item (Some (3, 41))])))
    (JArr threeWaypoints) "hiking" tt
  = (tt, Throw (Error "Snap failed")).
Proof.
  apply (proj1 (snap_all_or_nothing
                  (fun _ s => (s, Return (Some [Item (Some (2, 41)); NullItem;
                                                Item (Some (3, 41))])))
                  (JArr threeWaypoints) "hiking" threeWaypoints
                  [(JNum (Fin 2), JNum (Fin 41)); (JNum (Fin 3), JNum (Fin 42));
                   (JNum (Fin 3), JNum (Fin 41))]
                  eq_refl eq_refl))
    with (items := [Item (Some (2, 41)); NullItem; Item (Some (3, 41))]).
  - reflexivity.
  - right. exists NullItem. split; [simpl; auto | reflexivity].
Defined.

(** ** Loop closure *)

Lemma nth_length_minus_1 {A : Type} (l : list A) (d : A) :
  nth (length l - 1) l d = last l d.
Proof.
  induction l as [|a l IH]; [reflexivity|].
  destruct l as [|b l]; [reflexivity|].
  cbn [length last] in *. rewrite <- IH.
  replace (S (S (length l)) - 1)%nat
    with (S (S (length l) - 1))%nat by lia.
  reflexivity.
Qed.

Lemma closeLoop_cycling (tripType : string) (coordinates : list coord) :
  isCycling tripType = true -> (2 <= length coordinates)%nat ->
  closeLoop tripType coordinates
  = if Rltb 100 (haversineMetersLonLat (hd (0, 0) coordinates)
                                       (last coordinates (0, 0)))
    then coordinates ++ [hd (0, 0) coordinates]
    else coordinates.
Proof.
  intros C L. unfold closeLoop. rewrite C.
  destruct (Nat.ltb_spec 1 (length coordinates)); [|lia]. cbn [andb].
  rewrite nth_length_minus_1.
  destruct coordinates; reflexivity.
Qed.

Lemma closeLoop_not_cycling (tripType : string) (coordinates : list coord) :
  isCycling tripType = false -> closeLoop tripType coordinates = coordinates.
Proof. intros C. unfold closeLoop. rewrite C. reflexivity. Qed.

Lemma snapWaypoints_silent {W : Type}
    (snap_post : SnapRequest -> M W (option (list SnapItem)))
    (waypoints : jsval) (tripType : string) (s : W) (log : list call) :
  snapWaypoints (fun q => logging [] (snap_post q)) waypoints tripType (s, log)
  = let '(s', r) := snapWaypoints snap_post waypoints tripType s in
    ((s', log), r).
Proof.
  unfold snapWaypoints, bind, tryCatch, liftResult, logging, throw, ret.
  destruct (match waypoints with JArr wps => locationsOf wps | _ => _ end)
    as [locations|e]; [|reflexivity].
  destruct (snap_post _ s) as [s' [data|e]]; rewrite app_nil_r; [|reflexivity].
  cbv zeta. destruct (_ || _); reflexivity.
Qed.

(** One degree of latitude along a meridian is more than 100 m. *)
Lemma haversine_one_degree_north (lon la : R) :
  100 < haversineMetersLonLat (lon, la) (lon, la + 1).
Proof.
  unfold haversineMetersLonLat, toRad.
  replace ((lon - lon) * PI / 180 / 2) with 0 by (field; apply PI_neq0).
  replace ((la + 1 - la) * PI / 180 / 2) with (PI / 360) by field.
  rewrite sin_0.
  replace (sin (PI / 360) ^ 2
           + cos (la * PI / 180) * cos ((la + 1) * PI / 180) * 0 ^ 2)
    with (sin (PI / 360) ^ 2) by ring.
  pose proof PI2_3_2 as Hlo. pose proof PI_4 as Hhi.
  assert (Hs : 0 < sin (PI / 360)) by (apply sin_gt_0; lra).
  rewrite sqrt_pow2 by lra.
  rewrite asin_sin by lra. lra.
Qed.

(** C8.  When the snap returned at least 2 coordinates: for cycling, the
    first coordinate is added at the end if the last lies more than 100 m
    from it, and nothing changes otherwise; for another trip type nothing
    is added; and the coordinates so obtained are the ones every request
    to the directions service carries. *)
Theorem loop_closure_before_directions {W : Type}
    (snap_post : SnapRequest -> M W (option (list SnapItem)))
    (directions_post : DirectionsRequest -> M W (option (list Feature)))
    (waypoints : jsval) (tripType : string)
    (snapped : list coord) (s s1 : W) :
  (2 <= length snapped)%nat ->
  snapWaypoints snap_post waypoints tripType s = (s1, Return snapped) ->
  let first := hd (0, 0) snapped in
  let d := haversineMetersLonLat first (last snapped (0, 0)) in
  (isCycling tripType = true -> 100 < d ->
   closeLoop tripType snapped = snapped ++ [first])
  /\ (isCycling tripType = true -> ~ 100 < d ->
      closeLoop tripType snapped = snapped)
  /\ (isCycling tripType = false -> closeLoop tripType snapped = snapped)
  /\ exists s' log r,
       generateRouteWithOpenRouteService
         (fun q => logging [] (snap_post q))
         (fun q => logging [DirectionsPosted q] (directions_post q))
         waypoints tripType (s, [])
       = ((s', log), r)
       /\ let body :=
            mkDirectionsRequest (profileOf tripType) (closeLoop tripType snapped) in
          (log = [DirectionsPosted (body true)]
           \/ log = [DirectionsPosted (body true); DirectionsPosted (body false)]).
Proof.
  intros L Hsnap first d. repeat split.
  - intros C Hd. rewrite closeLoop_cycling by assumption.
    fold first. fold d. apply Rltb_true in Hd. rewrite Hd. reflexivity.
  - intros C Hd. rewrite closeLoop_cycling by assumption.
    fold first. fold d. apply Rltb_false in Hd. rewrite Hd. reflexivity.
  - apply closeLoop_not_cycling.
  - unfold generateRouteWithOpenRouteService.
    unfold bind at 1. unfold tryCatch at 1. unfold bind at 1.
    rewrite snapWaypoints_silent, Hsnap. cbv zeta.
    unfold bind, tryCatch, logging, throw, ret.
    destruct (directions_post
                (mkDirectionsRequest (profileOf tripType)
                   (closeLoop tripType snapped) true) s1)
      as [s2 [features|e]].
    + destruct features as [[|[[coords|] properties] features]|];
        do 3 eexists; (split; [reflexivity|]); left; reflexivity.
    + destruct (isUnknownParam e).
      * destruct (directions_post
                    (mkDirectionsRequest (profileOf tripType)
                       (closeLoop tripType snapped) false) s2)
          as [s3 [features|e']].
        -- destruct features as [[|[[coords|] properties] features]|];
             do 3 eexists; (split; [reflexivity|]); right; reflexivity.
        -- do 3 eexists. split; [reflexivity|]. right. reflexivity.
      * do 3 eexists. split; [reflexivity|]. left. reflexivity.
Qed.

Lemma loop_closure_before_directions_witness :
  closeLoop "cycling" [(2, 41); (3, 42); (2, 42)]
  = [(2, 41); (3, 42); (2, 42); (2, 41)].
Proof.
  apply (proj1 (loop_closure_before_directions threePointSnap noRoute
                  (JArr threeWaypoints) "cycling"
                  [(2, 41); (3, 42); (2, 42)] tt tt
                  ltac:(simpl; lia) eq_refl)).
  - reflexivity.
  - cbn [hd last].
    replace 42 with (41 + 1) by lra.
    apply haversine_one_degree_north.
Defined.

(** ** The proposer *)

(** *** The braces match is the largest braced substring *)








(** *** The replacements are the stripping of fences and trailing commas *)














Section ProposerTurns.
Context {W : Type}.
Variable setTimeout : nat -> W -> W.
Variable groq_create : Prompt -> M W (option string).
Variable JSON_parse : string -> option jsval.
Variables (maxRetries retryDelay : nat) (location tripType : string)
          (isRetry : bool).

Let prompt := mkPrompt isRetry tripType location.
Let loop := generateRouteWithAILoop setTimeout groq_create JSON_parse
              maxRetries retryDelay.



End ProposerTurns.


Lemma fst_logging {W A : Type} (calls : list call) (m : M W A)
    (s : W) (log : list call) :
  fst (logging calls m (s, log)) = (fst (m s), log ++ calls).
Proof. unfold logging. destruct (m s). reflexivity. Qed.


Lemma fencedReply_extracted :
  firstSuccess (stages bracesParse (trim fencedReply)) = Some (JObj [])
  /\ stages bracesParse (trim fencedReply) = [None; None; Some (JObj [])]
  /\ stages bracesParse (trim wordyReply) = [None; Some (JObj []); None].
Proof. vm_compute. repeat split. Qed.


(** ** The orchestrator *)

Section OrchestratorTurns.
Context {W : Type}.
Variable setTimeout : nat -> W -> W.
Variable proposer : string -> string -> bool -> M W jsval.
Variable synthesizer : jsval -> string -> M W RouteResult.t.
Variables (maxRetries : nat) (location tripType : string).

Let loop := generateRouteLoop setTimeout proposer synthesizer maxRetries.

(** A turn in which the proposer's answer is not accepted: the delay
    when a turn is left, then the next turn; the synthesizer is not
    called. *)
Lemma rejected_turn (remaining attempt : nat) (s s1 : W) (r : jsval) :
  proposer location tripType (1 <? attempt)%nat s = (s1, Return r) ->
  accepted r = Return false ->
  loop (S remaining) attempt location tripType s
  = loop remaining (S attempt) location tripType
      (if (attempt <? maxRetries)%nat then setTimeout 1000%nat s1 else s1).
Proof.
  intros E Hr. unfold loop. cbn [generateRouteLoop]. cbv zeta.
  unfold bind at 1. rewrite E.
  unfold bind at 1. unfold liftResult. rewrite Hr.
  unfold bind at 1. unfold bind at 1.
  destruct (attempt <? maxRetries)%nat; reflexivity.
Qed.
End OrchestratorTurns.

(** The retry bound where it holds.  When the proposer, at every call,
    yields an answer on which the acceptance test is false (null, an
    answer without waypoints, or waypoints on which [isWaypointsValid]
    answers [false]), [generateRoute] calls it exactly 3 times, without
    the retry hint at the first call and with it at the second and third,
    waits 1000 ms between the calls, never calls the synthesizer, and
    throws the error of exhausted attempts. *)
Theorem generateRoute_three_attempts {W : Type}
    (setTimeout : nat -> W -> W)
    (proposer : string -> string -> bool -> M W jsval)
    (synthesizer : jsval -> string -> M W RouteResult.t)
    (location tripType : string) :
  (forall isRetry s, exists s' r,
      proposer location tripType isRetry s = (s', Return r)
      /\ accepted r = Return false) ->
  forall s,
    (exists s',
        generateRouteWith setTimeout proposer synthesizer location tripType s
        = (s', Throw (Error "AI failed to generate realistic waypoints after multiple attempts.")))
    /\ (exists s',
        generateRouteWith (loggedTimeout setTimeout)
          (fun l t isRetry => logging [Proposed isRetry] (proposer l t isRetry))
          (fun w t => logging [Synthesized w] (synthesizer w t))
          location tripType (s, [])
        = ((s', [Proposed false; Slept 1000; Proposed true; Slept 1000;
                 Proposed true]),
           Throw (Error "AI failed to generate realistic waypoints after multiple attempts."))).
Proof.
  intros H s. unfold generateRouteWith. cbv zeta.
  destruct (H false s) as (s1 & r1 & E1 & A1).
  destruct (H true (setTimeout 1000%nat s1)) as (s2 & r2 & E2 & A2).
  destruct (H true (setTimeout 1000%nat s2)) as (s3 & r3 & E3 & A3).
  split.
  - exists s3.
    rewrite (rejected_turn _ _ _ _ _ _ _ 1%nat s s1 r1 E1 A1). cbn [Nat.ltb Nat.leb].
    rewrite (rejected_turn _ _ _ _ _ _ _ 2%nat _ s2 r2 E2 A2). cbn [Nat.ltb Nat.leb].
    rewrite (rejected_turn _ _ _ _ _ _ _ 3%nat _ s3 r3 E3 A3). cbn [Nat.ltb Nat.leb].
    reflexivity.
  - exists s3.
    rewrite (rejected_turn _ _ _ _ _ _ _ 1%nat (s, []) (s1, [Proposed false]) r1);
      [| unfold logging; cbn [Nat.ltb Nat.leb]; rewrite E1; reflexivity | exact A1].
    cbn [Nat.ltb Nat.leb loggedTimeout app].
    rewrite (rejected_turn _ _ _ _ _ _ _ 2%nat _
               (s2, [Proposed false; Slept 1000; Proposed true]) r2);
      [| unfold logging; cbn [Nat.ltb Nat.leb]; rewrite E2; reflexivity | exact A2].
    cbn [Nat.ltb Nat.leb loggedTimeout app].
    rewrite (rejected_turn _ _ _ _ _ _ _ 3%nat _
               (s3, [Proposed false; Slept 1000; Proposed true; Slept 1000;
                     Proposed true]) r3);
      [| unfold logging; cbn [Nat.ltb Nat.leb]; rewrite E3; reflexivity | exact A3].
    cbn [Nat.ltb Nat.leb]. reflexivity.
Qed.

Lemma generateRoute_three_attempts_witness :
  exists s',
    generateRouteWith (loggedTimeout (fun (_ : nat) (s : unit) => s))
      (fun l t isRetry =>
         logging [Proposed isRetry] (fun s : unit => (s, Return JNull)))
      (fun w t =>
         logging [Synthesized w]
           (fun s : unit => (s, Throw (Error "unreachable"))))
      "Barcelona, Spain" "hiking" (tt, [])
    = ((s', [Proposed false; Slept 1000; Proposed true; Slept 1000;
             Proposed true]),
       Throw (Error "AI failed to generate realistic waypoints after multiple attempts.")).
Proof.
  apply (proj2 (generateRoute_three_attempts
                  (fun (_ : nat) (s : unit) => s)
                  (fun _ _ _ (s : unit) => (s, Return JNull))
                  (fun _ _ (s : unit) => (s, Throw (Error "unreachable")))
                  "Barcelona, Spain" "hiking"
                  (fun isRetry s =>
                     ex_intro _ s (ex_intro _ JNull (conj eq_refl eq_refl)))
                  tt)).
Defined.

(** An array that holds [null] makes the validator throw; the throw
    leaves [generateRoute] at the first turn. *)
Lemma generateRoute_validator_throws {W : Type}
    (setTimeout : nat -> W -> W)
    (synthesizer : jsval -> string -> M W RouteResult.t)
    (location tripType : string) (s : W) :
  generateRouteWith setTimeout
    (fun _ _ _ s => (s, Return (JObj [("waypoints", JArr [JNull; JNull; JNull])])))
    synthesizer location tripType s
  = (s, Throw (TypeError "Cannot read properties of null or undefined")).
Proof. reflexivity. Qed.

(** C3.  The retry bound fails on waypoints that are invalid because an
    entry is [null].  With a proposer that answers
    [{ waypoints: [null, null, null] }] at every call, the validator does
    not answer [false]: it throws a [TypeError] on the first entry, and
    [generateRoute], which calls it outside any [try], ends with this
    [TypeError] after a single call to the proposer, without retry hint,
    delay or second attempt, and not with the error of exhausted
    attempts. *)
Theorem generateRoute_null_waypoints_one_attempt {W : Type}
    (setTimeout : nat -> W -> W)
    (synthesizer : jsval -> string -> M W RouteResult.t)
    (location tripType : string) (s : W) :
  isWaypointsValid (prop nullWaypoints "waypoints")
  = Throw (TypeError "Cannot read properties of null or undefined")
  /\ tracedOrchestrator setTimeout nullProposer synthesizer location tripType
       (s, [])
     = ((s, [Proposed false]),
        Throw (TypeError "Cannot read properties of null or undefined"))
  /\ snd (tracedOrchestrator setTimeout nullProposer synthesizer location
            tripType (s, []))
     <> Throw (Error "AI failed to generate realistic waypoints after multiple attempts.").
Proof.
  split; [reflexivity|].
  assert (Hrun : tracedOrchestrator setTimeout nullProposer synthesizer
                   location tripType (s, [])
                 = ((s, [Proposed false]),
                    Throw (TypeError "Cannot read properties of null or undefined"))).
  { unfold tracedOrchestrator, generateRouteWith. cbv zeta.
    cbn [generateRouteLoop]. cbv zeta.
    unfold bind at 1. unfold logging, nullProposer, ret. cbn [Nat.ltb Nat.leb].
    unfold bind at 1. unfold liftResult. reflexivity. }
  split; [exact Hrun|]. rewrite Hrun. discriminate.
Qed.

(* ================================================================= *)
(** * Part IV: further properties of the code *)
(* ================================================================= *)

(** ** The distance *)

Lemma asin_nonneg (x : R) : 0 <= x -> 0 <= asin x.
Proof.
  intros Hx. pose proof PI_RGT_0 as Hpi. unfold asin.
  destruct (Rle_dec x (-1)); [lra|].
  destruct (Rle_dec 1 x); [lra|].
  assert (Hlt : x < 1) by lra.
  assert (Hs : 0 < sqrt (1 - x²)).
  { apply sqrt_lt_R0. unfold Rsqr. nra. }
  destruct (Req_dec x 0) as [->|Hx0].
  - unfold Rdiv. rewrite Rmult_0_l, atan_0. lra.
  - assert (0 < x / sqrt (1 - x²)).
    { apply Rdiv_lt_0_compat; lra. }
    pose proof (atan_increasing 0 (x / sqrt (1 - x²)) H) as Hi.
    rewrite atan_0 in Hi. lra.
Qed.

Lemma haversine_nonneg (a b : coord) : 0 <= haversineMetersLonLat a b.
Proof.
  destruct a as [lon1 lat1], b as [lon2 lat2].
  unfold haversineMetersLonLat.
  set (h := sin _ ^ 2 + _).
  pose proof (asin_nonneg (sqrt h) (sqrt_pos h)). lra.
Qed.

(** X1.  The distance does not depend on the order of its two points:
    [haversineMetersLonLat(a, b)] is [haversineMetersLonLat(b, a)]. *)
Theorem haversine_symmetric (a b : coord) :
  haversineMetersLonLat a b = haversineMetersLonLat b a.
Proof.
  destruct a as [lon1 lat1], b as [lon2 lat2].
  unfold haversineMetersLonLat, toRad.
  replace ((lat1 - lat2) * PI / 180 / 2) with (- ((lat2 - lat1) * PI / 180 / 2))
    by field.
  replace ((lon1 - lon2) * PI / 180 / 2) with (- ((lon2 - lon1) * PI / 180 / 2))
    by field.
  rewrite !sin_neg. do 3 f_equal. ring.
Qed.

(** X2.  The distance is never negative and never more than half the
    circumference of the sphere of radius 6371000 m, and the distance from
    a point to itself is 0. *)
Theorem haversine_range (a b : coord) :
  0 <= haversineMetersLonLat a b <= 6371000 * PI
  /\ haversineMetersLonLat a a = 0.
Proof.
  split; [split|].
  - apply haversine_nonneg.
  - destruct a as [lon1 lat1], b as [lon2 lat2].
    unfold haversineMetersLonLat.
    set (h := sin _ ^ 2 + _).
    pose proof (asin_bound (sqrt h)). lra.
  - apply haversine_same_point.
Qed.

(** ** The validator's throws *)

Lemma isValid_throws (wp : jsval) :
  (exists e, isValid wp = Throw e) <-> nullish wp.
Proof.
  unfold nullish, isValid, getProp. split.
  - intros [e H]. destruct wp; auto;
      destruct (prop _ "lat") as [ | | |la| | | ]; try discriminate;
      destruct (prop _ "lng") as [ | | |lo| | | ]; discriminate.
  - intros [->| ->]; eexists; reflexivity.
Qed.

Lemma every_isValid_throws (wps : list jsval) :
  (exists e, every isValid wps = Throw e)
  <-> exists before bad after,
        wps = before ++ bad :: after /\ nullish bad /\ Forall coordinateOk before.
Proof.
  induction wps as [|wp wps IH]; cbn [every].
  - split.
    + intros [e H]. discriminate.
    + intros (before & bad & after & H & _). destruct before; discriminate.
  - destruct (isValid wp) as [[|]|e] eqn:E.
    + rewrite IH. apply isValid_true in E. split.
      * intros (before & bad & after & -> & Hb & Hok).
        exists (wp :: before), bad, after. repeat split; auto.
      * intros (before & bad & after & H & Hb & Hok).
        destruct before as [|w before]; cbn in H; injection H as -> ->.
        -- apply isValid_throws in Hb as [e He].
           apply isValid_true in E. congruence.
        -- exists before, bad, after. inversion Hok; subst. auto.
    + split; [intros [e H]; discriminate|].
      intros (before & bad & after & H & Hb & Hok).
      destruct before as [|w before]; cbn in H; injection H as -> ->.
      * apply isValid_throws in Hb as [e He]. congruence.
      * inversion Hok as [|? ? H1 _]; subst. apply isValid_true in H1. congruence.
    + split; [|intros _; eexists; reflexivity].
      intros _. exists [], wp, wps. repeat split; auto.
      apply isValid_throws. eexists. exact E.
Qed.

(** X3.  [isWaypointsValid] throws exactly on an array of at least 3
    entries in which an entry is [null] or [undefined] and every entry
    before it has valid coordinates; on any other value it returns a
    boolean. *)
Theorem isWaypointsValid_throws_iff (waypoints : jsval) :
  (exists e, isWaypointsValid waypoints = Throw e)
  <-> exists before bad after,
        waypoints = JArr (before ++ bad :: after)
        /\ (3 <= length (before ++ bad :: after))%nat
        /\ nullish bad
        /\ Forall coordinateOk before.
Proof.
  split.
  - intros [e H]. destruct waypoints as [ | | | | |wps| ]; try discriminate.
    unfold isWaypointsValid in H.
    destruct (Nat.ltb_spec (length wps) 3); [discriminate|].
    destruct (every isValid wps) as [[|]|e'] eqn:E; try discriminate.
    destruct (proj1 (every_isValid_throws wps) (ex_intro _ e' E))
      as (before & bad & after & -> & Hb & Hok).
    exists before, bad, after. auto.
  - intros (before & bad & after & -> & L & Hb & Hok).
    unfold isWaypointsValid.
    destruct (Nat.ltb_spec (length (before ++ bad :: after)) 3); [lia|].
    destruct (proj2 (every_isValid_throws (before ++ bad :: after)))
      as [e E].
    { exists before, bad, after. auto. }
    rewrite E. eexists. reflexivity.
Qed.

(** ** From the validator to the snapper *)

Lemma locationsOf_valid (wps : list jsval) :
  Forall coordinateOk wps -> locationsOf wps = Return (map lngLatOf wps).
Proof.
  induction 1 as [|wp wps (la & lo & Ela & Elo & _) _ IH]; [reflexivity|].
  cbn [locationsOf map]. rewrite IH.
  destruct wp; try (cbn in Ela; discriminate).
  unfold lngLatOf, toPoint, getProp. rewrite Ela, Elo. reflexivity.
Qed.

Lemma isWaypointsValid_true_array (waypoints : jsval) :
  isWaypointsValid waypoints = Return true ->
  exists wps, waypoints = JArr wps /\ Forall coordinateOk wps.
Proof.
  destruct waypoints as [ | | | | |wps| ]; try discriminate.
  unfold isWaypointsValid.
  destruct (length wps <? 3)%nat; [discriminate|].
  destruct (every isValid wps) as [[|]|e] eqn:E; try discriminate.
  intros _. exists wps. split; [reflexivity|]. now apply every_isValid_true.
Qed.

(** What [snapWaypoints] does once the locations are computed. *)
Lemma snapWaypoints_run {W : Type}
    (snap_post : SnapRequest -> M W (option (list SnapItem)))
    (wps : list jsval) (tripType : string)
    (locations : list (jsval * jsval)) (s : W) :
  locationsOf wps = Return locations ->
  snapWaypoints snap_post (JArr wps) tripType s
  = match snap_post (snapRequestFor tripType locations) s with
    | (s', Return data) =>
        let snapped :=
          map snappedOf (match data with Some items => items | None => [] end) in
        if negb (length snapped =? length locations)%nat || existsb isNull snapped
        then (s', Throw (Error "Snap failed"))
        else (s', Return (present snapped))
    | (s', Throw e) => (s', Throw (Error "Snap failed"))
    end.
Proof.
  intros Hloc. unfold snapWaypoints, bind, tryCatch, liftResult, throw, ret.
  rewrite Hloc. unfold snapRequestFor, profileOf.
  destruct (snap_post _ s) as [s' [data|e]]; [|reflexivity].
  cbv zeta. destruct (_ || _); reflexivity.
Qed.

Lemma snapWaypoints_logged {W : Type}
    (snap_post : SnapRequest -> M W (option (list SnapItem)))
    (wps : list jsval) (tripType : string)
    (locations : list (jsval * jsval)) (s : W) (log : list call) :
  locationsOf wps = Return locations ->
  snapWaypoints (fun q => logging [SnapPosted q] (snap_post q))
    (JArr wps) tripType (s, log)
  = let '(s', r) := snapWaypoints snap_post (JArr wps) tripType s in
    ((s', log ++ [SnapPosted (snapRequestFor tripType locations)]), r).
Proof.
  intros Hloc. rewrite !(snapWaypoints_run _ _ _ _ _ Hloc). unfold logging.
  destruct (snap_post _ s) as [s' [data|e]]; [|reflexivity].
  cbv zeta. destruct (_ || _); reflexivity.
Qed.

Lemma snapWaypoints_no_request {W : Type}
    (snap_post : SnapRequest -> M W (option (list SnapItem)))
    (waypoints : jsval) (tripType : string) (s : W) (log : list call) :
  (forall wps locations,
      waypoints = JArr wps -> locationsOf wps <> Return locations) ->
  exists msg,
    snapWaypoints (fun q => logging [SnapPosted q] (snap_post q))
      waypoints tripType (s, log)
    = ((s, log), Throw (TypeError msg)).
Proof.
  intros H. unfold snapWaypoints, bind, liftResult.
  destruct waypoints as [ | | | | |wps| ]; try (eexists; reflexivity).
  destruct (locationsOf wps) as [locations|e] eqn:E.
  - exfalso. exact (H wps locations eq_refl E).
  - assert (exists msg, e = TypeError msg) as [msg ->].
    { clear H. revert e E. induction wps as [|wp wps IH]; [discriminate|].
      intros e. cbn [locationsOf]. unfold getProp.
      destruct wp; try (intros H; injection H as <-; eexists; reflexivity);
        (destruct (locationsOf wps) as [locs|e']; [discriminate|]);
        intros H; injection H as <-; apply IH; reflexivity. }
    eexists. reflexivity.
Qed.

(** X4.  The waypoints [isWaypointsValid] accepts form an array for which
    [snapWaypoints] posts exactly one request, carrying the pair
    [[lng, lat]] of each waypoint in order, with the profile and radius
    of the trip type; the call then returns or throws 'Snap failed', and
    never a [TypeError]. *)
Theorem valid_waypoints_reach_the_snap_service {W : Type}
    (snap_post : SnapRequest -> M W (option (list SnapItem)))
    (waypoints : jsval) (tripType : string) (s : W) :
  isWaypointsValid waypoints = Return true ->
  exists wps s' r,
    waypoints = JArr wps
    /\ snapWaypoints (fun q => logging [SnapPosted q] (snap_post q))
         waypoints tripType (s, [])
       = ((s', [SnapPosted (snapRequestFor tripType (map lngLatOf wps))]), r)
    /\ ((exists coordinates, r = Return coordinates) \/ r = Throw (Error "Snap failed")).
Proof.
  intros Hv. destruct (isWaypointsValid_true_array _ Hv) as (wps & -> & Hok).
  pose proof (locationsOf_valid wps Hok) as Hloc.
  exists wps. rewrite (snapWaypoints_logged _ _ _ _ _ _ Hloc).
  rewrite (snapWaypoints_run _ _ _ _ _ Hloc).
  destruct (snap_post _ s) as [s' [data|e]].
  - cbv zeta. destruct (_ || _); do 2 eexists;
      (split; [reflexivity|]); (split; [reflexivity|]); eauto.
  - do 2 eexists. split; [reflexivity|]. split; [reflexivity|]. auto.
Qed.

Lemma Rabs_le_of_bounds (x b : R) : 0 <= x <= b -> Rabs x <= b.
Proof. intros H. rewrite Rabs_pos_eq; lra. Qed.

Lemma Rabs_not_lt (x b : R) : b <= x -> 0 <= b -> ~ Rabs x < b.
Proof. intros H Hb. rewrite Rabs_pos_eq; lra. Qed.

Lemma waypointAt_ok (la lo : R) :
  0.5 <= la <= 90 -> 0 <= lo <= 180 -> coordinateOk (waypointAt la lo).
Proof.
  intros Hla Hlo. exists la, lo. repeat split.
  - apply Rabs_le_of_bounds; lra.
  - apply Rabs_le_of_bounds; lra.
  - intros [H _]. revert H. apply Rabs_not_lt; lra.
Qed.

Lemma rightAngleWaypoints_ok : Forall coordinateOk rightAngleWaypoints.
Proof. repeat constructor; apply waypointAt_ok; lra. Qed.

Lemma rightAngleWaypoints_not_straight :
  isStraightLine (map toPoint rightAngleWaypoints) = false.
Proof.
  unfold isStraightLine.
  cbn [map rightAngleWaypoints length Nat.ltb Nat.leb countAngles].
  destruct (turnAngle _ _ _) as [a|] eqn:E; [|reflexivity].
  apply turnAngle_perpendicular in E; [subst a | cbn; ring].
  replace (Rltb 170 90) with false by (symmetry; apply Rltb_false; lra).
  cbn. apply Rltb_false. lra.
Qed.

Lemma rightAngleWaypoints_valid :
  isWaypointsValid (JArr rightAngleWaypoints) = Return true.
Proof.
  unfold isWaypointsValid.
  rewrite (proj2 (every_isValid_true _) rightAngleWaypoints_ok).
  rewrite rightAngleWaypoints_not_straight. reflexivity.
Qed.

Lemma valid_waypoints_reach_the_snap_service_witness :
  exists wps s' r,
    JArr rightAngleWaypoints = JArr wps
    /\ snapWaypoints (fun q => logging [SnapPosted q] (threePointSnap q))
         (JArr rightAngleWaypoints) "hiking" (tt, [])
       = ((s', [SnapPosted (snapRequestFor "hiking" (map lngLatOf wps))]), r)
    /\ ((exists coordinates, r = Return coordinates)
        \/ r = Throw (Error "Snap failed")).
Proof.
  apply (valid_waypoints_reach_the_snap_service threePointSnap
           (JArr rightAngleWaypoints) "hiking" tt).
  apply rightAngleWaypoints_valid.
Defined.

(** ** The snapper's requests *)

Lemma locationsOf_nullish (wps : list jsval) (bad : jsval)
    (locations : list (jsval * jsval)) :
  In bad wps -> nullish bad -> locationsOf wps <> Return locations.
Proof.
  revert locations. induction wps as [|wp wps IH]; intros locations Hin Hb.
  - destruct Hin.
  - cbn [locationsOf]. destruct Hin as [->|Hin].
    + destruct Hb as [->| ->]; discriminate.
    + destruct (getProp wp "lng"); [|discriminate].
      destruct (getProp wp "lat"); [|discriminate].
      destruct (locationsOf wps) as [locs|e] eqn:E; [|discriminate].
      exfalso. exact (IH locs Hin Hb eq_refl).
Qed.

Lemma snapWaypoints_traced {W : Type}
    (snap_post : SnapRequest -> M W (option (list SnapItem)))
    (waypoints : jsval) (tripType : string) (s : W) (log : list call) :
  snapWaypoints (fun q => logging [SnapPosted q] (snap_post q))
    waypoints tripType (s, log)
  = let '(s', r) := snapWaypoints snap_post waypoints tripType s in
    ((s', log ++ snapRequests tripType waypoints), r).
Proof.
  unfold snapRequests.
  destruct waypoints as [ | | | | |wps| ];
    try (unfold snapWaypoints, bind, liftResult; rewrite app_nil_r; reflexivity).
  destruct (locationsOf wps) as [locations|e] eqn:E.
  - apply snapWaypoints_logged. exact E.
  - unfold snapWaypoints, bind, liftResult. rewrite E, app_nil_r. reflexivity.
Qed.

(** X5.  When the snap service answers with one location per waypoint,
    [snapWaypoints] returns exactly these locations, in the order of the
    reply, after a single request. *)
Theorem snap_returns_locations_in_order {W : Type}
    (snap_post : SnapRequest -> M W (option (list SnapItem)))
    (wps : list jsval) (tripType : string)
    (locations : list (jsval * jsval)) (coordinates : list coord) (s s' : W) :
  locationsOf wps = Return locations ->
  length coordinates = length wps ->
  snap_post (snapRequestFor tripType locations) s
  = (s', Return (Some (map (fun c => Item (Some c)) coordinates))) ->
  snapWaypoints (fun q => logging [SnapPosted q] (snap_post q))
    (JArr wps) tripType (s, [])
  = ((s', [SnapPosted (snapRequestFor tripType locations)]), Return coordinates).
Proof.
  intros Hloc Hlen E.
  rewrite (snapWaypoints_logged _ _ _ _ _ _ Hloc).
  rewrite (snapWaypoints_run _ _ _ _ _ Hloc), E. cbv zeta.
  rewrite map_map. cbn [snappedOf].
  rewrite length_map, Hlen, <- (length_locationsOf _ _ Hloc), Nat.eqb_refl.
  assert (Hnone : existsb isNull (map (fun c : coord => Some c) coordinates) = false).
  { clear. induction coordinates; [reflexivity | exact IHcoordinates]. }
  rewrite Hnone. cbn [negb orb app].
  assert (Hp : present (map (fun c : coord => Some c) coordinates) = coordinates).
  { clear. induction coordinates as [|c l IH]; [reflexivity|].
    cbn. rewrite IH. reflexivity. }
  rewrite Hp. reflexivity.
Qed.

Lemma snap_returns_locations_in_order_witness :
  snapWaypoints (fun q => logging [SnapPosted q] (threePointSnap q))
    (JArr rightAngleWaypoints) "cycling" (tt, [])
  = ((tt, [SnapPosted (snapRequestFor "cycling" (map lngLatOf rightAngleWaypoints))]),
     Return [(2, 41); (3, 42); (2, 42)]).
Proof.
  apply (snap_returns_locations_in_order threePointSnap rightAngleWaypoints
           "cycling" (map lngLatOf rightAngleWaypoints)
           [(2, 41); (3, 42); (2, 42)] tt tt).
  - reflexivity.
  - reflexivity.
  - reflexivity.
Defined.

(** X6.  When the waypoints are no array, or an array that holds [null]
    or [undefined], [snapWaypoints] throws a [TypeError] without any
    request to the snap service. *)
Theorem snap_without_request {W : Type}
    (snap_post : SnapRequest -> M W (option (list SnapItem)))
    (waypoints : jsval) (tripType : string) (s : W) :
  (forall wps, waypoints <> JArr wps)
  \/ (exists wps bad, waypoints = JArr wps /\ In bad wps /\ nullish bad) ->
  exists msg,
    snapWaypoints (fun q => logging [SnapPosted q] (snap_post q))
      waypoints tripType (s, [])
    = ((s, []), Throw (TypeError msg)).
Proof.
  intros H. apply snapWaypoints_no_request.
  intros wps locations ->. destruct H as [H|(wps' & bad & E & Hin & Hb)].
  - exfalso. exact (H wps eq_refl).
  - injection E as ->. exact (locationsOf_nullish _ _ _ Hin Hb).
Qed.

Lemma snap_without_request_witness :
  exists msg,
    snapWaypoints (fun q => logging [SnapPosted q] (threePointSnap q))
      (JArr [waypointAt 41 2; JNull; waypointAt 42 3]) "hiking" (tt, [])
    = ((tt, []), Throw (TypeError msg)).
Proof.
  apply (snap_without_request threePointSnap
           (JArr [waypointAt 41 2; JNull; waypointAt 42 3]) "hiking" tt).
  right. exists [waypointAt 41 2; JNull; waypointAt 42 3], JNull.
  split; [reflexivity|]. split; [simpl; auto | left; reflexivity].
Defined.

(** ** The synthesizer's requests and failures *)

Lemma tracedSynthesizer_snap_fails {W : Type}
    (snap_post : SnapRequest -> M W (option (list SnapItem)))
    (directions_post : DirectionsRequest -> M W (option (list Feature)))
    (waypoints : jsval) (tripType : string) (s s1 : W) (e : exn) :
  snapWaypoints snap_post waypoints tripType s = (s1, Throw e) ->
  tracedSynthesizer snap_post directions_post waypoints tripType (s, [])
  = ((s1, snapRequests tripType waypoints), synthesisFailure e).
Proof.
  intros E. unfold tracedSynthesizer, generateRouteWithOpenRouteService.
  unfold tryCatch at 1. unfold bind at 1.
  rewrite snapWaypoints_traced, E. reflexivity.
Qed.

Lemma tracedSynthesizer_after_snap {W : Type}
    (snap_post : SnapRequest -> M W (option (list SnapItem)))
    (directions_post : DirectionsRequest -> M W (option (list Feature)))
    (waypoints : jsval) (tripType : string) (s s1 : W) (snapped : list coord) :
  snapWaypoints snap_post waypoints tripType s = (s1, Return snapped) ->
  tracedSynthesizer snap_post directions_post waypoints tripType (s, [])
  = let log1 := snapRequests tripType waypoints
                ++ [DirectionsPosted (directionsBody tripType snapped true)] in
    match directions_post (directionsBody tripType snapped true) s1 with
    | (s2, Return features) => ((s2, log1), routeFromFeatures tripType features)
    | (s2, Throw err) =>
        if isUnknownParam err then
          let log2 :=
            log1 ++ [DirectionsPosted (directionsBody tripType snapped false)] in
          match directions_post (directionsBody tripType snapped false) s2 with
          | (s3, Return features) => ((s3, log2), routeFromFeatures tripType features)
          | (s3, Throw err2) => ((s3, log2), synthesisFailure err2)
          end
        else ((s2, log1), synthesisFailure err)
    end.
Proof.
  intros E. unfold tracedSynthesizer, generateRouteWithOpenRouteService.
  unfold tryCatch at 1. unfold bind at 1.
  rewrite snapWaypoints_traced, E. cbv zeta.
  unfold bind, tryCatch, logging, throw, ret, directionsBody, profileOf,
    routeFromFeatures, synthesisFailure, propertiesOf.
  cbn [app].
  destruct (directions_post _ s1) as [s2 [features|err]].
  - destruct features as [[|[[coords|] properties] features]|]; reflexivity.
  - destruct (isUnknownParam err); [|reflexivity].
    destruct (directions_post _ s2) as [s3 [features|err2]]; [|reflexivity].
    destruct features as [[|[[coords|] properties] features]|]; reflexivity.
Qed.

(** X7.  When the snap fails, the synthesizer makes no request to the
    directions service and throws 'Failed to generate route with
    OpenRouteService: ' followed by the message of the snap's error. *)
Theorem synthesizer_stops_at_failed_snap {W : Type}
    (snap_post : SnapRequest -> M W (option (list SnapItem)))
    (directions_post : DirectionsRequest -> M W (option (list Feature)))
    (waypoints : jsval) (tripType : string) (s s1 : W) (e : exn) :
  snapWaypoints snap_post waypoints tripType s = (s1, Throw e) ->
  exists log,
    tracedSynthesizer snap_post directions_post waypoints tripType (s, [])
    = ((s1, log),
       Throw (Error ("Failed to generate route with OpenRouteService: "
                     ++ message e)%string))
    /\ Forall notDirections log.
Proof.
  intros E. exists (snapRequests tripType waypoints).
  split; [apply tracedSynthesizer_snap_fails; exact E|].
  unfold snapRequests. destruct waypoints; try constructor.
  destruct (locationsOf items); repeat constructor.
Qed.

Lemma synthesizer_stops_at_failed_snap_witness :
  exists log,
    tracedSynthesizer snapDown noRoute (JArr rightAngleWaypoints) "hiking" (tt, [])
    = ((tt, log),
       Throw (Error "Failed to generate route with OpenRouteService: Snap failed"))
    /\ Forall notDirections log.
Proof.
  apply (synthesizer_stops_at_failed_snap snapDown noRoute
           (JArr rightAngleWaypoints) "hiking" tt tt (Error "Snap failed")).
  reflexivity.
Defined.

(** X8.  When the first request to the directions service is rejected:
    if the rejection has status 400 and names an unknown parameter
    [options] or [avoid_features], the synthesizer posts the same body
    once more without [avoid_features] and the outcome of that second
    request is final (a second rejection is not probed again); otherwise
    it posts nothing more and throws with the message of the rejection. *)
Theorem synthesizer_probes_avoid_features_once {W : Type}
    (snap_post : SnapRequest -> M W (option (list SnapItem)))
    (directions_post : DirectionsRequest -> M W (option (list Feature)))
    (waypoints : jsval) (tripType : string) (s s1 s2 : W)
    (snapped : list coord) (err : exn) :
  snapWaypoints snap_post waypoints tripType s = (s1, Return snapped) ->
  directions_post (directionsBody tripType snapped true) s1 = (s2, Throw err) ->
  let run := tracedSynthesizer snap_post directions_post waypoints tripType (s, []) in
  let first := DirectionsPosted (directionsBody tripType snapped true) in
  let second := DirectionsPosted (directionsBody tripType snapped false) in
  (isUnknownParam err = false ->
   run = ((s2, snapRequests tripType waypoints ++ [first]), synthesisFailure err))
  /\ (isUnknownParam err = true ->
      forall s3 reply,
        directions_post (directionsBody tripType snapped false) s2 = (s3, reply) ->
        run = ((s3, snapRequests tripType waypoints ++ [first; second]),
               match reply with
               | Return features => routeFromFeatures tripType features
               | Throw err2 => synthesisFailure err2
               end)).
Proof.
  intros Esnap E1 run first second. unfold run.
  rewrite (tracedSynthesizer_after_snap _ _ _ _ _ _ _ Esnap). cbv zeta.
  rewrite E1. split.
  - intros ->. reflexivity.
  - intros -> s3 reply E2. rewrite E2, <- app_assoc.
    destruct reply; reflexivity.
Qed.

Lemma synthesizer_probes_avoid_features_once_witness :
  tracedSynthesizer threePointSnap probingDirections
    (JArr rightAngleWaypoints) "hiking" (tt, [])
  = ((tt, snapRequests "hiking" (JArr rightAngleWaypoints)
          ++ [DirectionsPosted (directionsBody "hiking" [(2, 41); (3, 42); (2, 42)] true);
              DirectionsPosted (directionsBody "hiking" [(2, 41); (3, 42); (2, 42)] false)]),
     routeFromFeatures "hiking" (Some [])).
Proof.
  apply (proj2 (synthesizer_probes_avoid_features_once threePointSnap
                  probingDirections (JArr rightAngleWaypoints) "hiking" tt tt tt
                  [(2, 41); (3, 42); (2, 42)] unknownOptionError
                  eq_refl eq_refl) eq_refl tt (Return (Some [])) eq_refl).
Defined.

(** X9.  When the directions service answers the first request: without
    features, or with an empty list of them, the synthesizer throws
    '... No route found'; with features, it returns the route split from
    the geometry and properties of the first feature alone, the
    properties taken as empty when missing.  One request to the
    directions service has been made. *)
Theorem synthesizer_uses_first_feature {W : Type}
    (snap_post : SnapRequest -> M W (option (list SnapItem)))
    (directions_post : DirectionsRequest -> M W (option (list Feature)))
    (waypoints : jsval) (tripType : string) (s s1 s2 : W)
    (snapped : list coord) (features : option (list Feature)) :
  snapWaypoints snap_post waypoints tripType s = (s1, Return snapped) ->
  directions_post (directionsBody tripType snapped true) s1
  = (s2, Return features) ->
  exists r,
    tracedSynthesizer snap_post directions_post waypoints tripType (s, [])
    = ((s2, snapRequests tripType waypoints
            ++ [DirectionsPosted (directionsBody tripType snapped true)]), r)
    /\ (features = None \/ features = Some [] ->
        r = Throw (Error "Failed to generate route with OpenRouteService: No route found"))
    /\ (forall coords properties others,
          features = Some (mkFeature (Some coords) properties :: others) ->
          r = Return (splitIntoDays tripType coords
                        (match properties with
                         | Some p => p
                         | None => noProperties
                         end))).
Proof.
  intros Esnap E1. exists (routeFromFeatures tripType features).
  rewrite (tracedSynthesizer_after_snap _ _ _ _ _ _ _ Esnap). cbv zeta.
  rewrite E1. split; [reflexivity|]. split.
  - intros [->| ->]; reflexivity.
  - intros coords properties others ->. reflexivity.
Qed.

Lemma synthesizer_uses_first_feature_witness :
  exists r,
    tracedSynthesizer threePointSnap noRoute (JArr rightAngleWaypoints)
      "hiking" (tt, [])
    = ((tt, snapRequests "hiking" (JArr rightAngleWaypoints)
            ++ [DirectionsPosted
                  (directionsBody "hiking" [(2, 41); (3, 42); (2, 42)] true)]), r)
    /\ r = Throw (Error "Failed to generate route with OpenRouteService: No route found").
Proof.
  destruct (synthesizer_uses_first_feature threePointSnap noRoute
              (JArr rightAngleWaypoints) "hiking" tt tt tt
              [(2, 41); (3, 42); (2, 42)] (Some []) eq_refl eq_refl)
    as (r & Hrun & Hnone & _).
  exists r. split; [exact Hrun|]. apply Hnone. right. reflexivity.
Defined.

(** ** The assembled route *)

Lemma orElse_zero (x : R) : orElse (Some x) 0 = x.
Proof.
  unfold orElse. destruct (Reqb x 0) eqn:E; [|reflexivity].
  apply Reqb_true in E. auto.
Qed.

Lemma orElse_nonzero (x y : R) : x <> 0 -> orElse (Some x) y = x.
Proof. intros H. unfold orElse. apply Reqb_false in H. rewrite H. reflexivity. Qed.

(** X10.  For a trip type other than cycling, when the service reports a
    distance (not 0), a duration, an ascent and a descent: the route has
    the distance in km, the duration in hours and the reported elevation
    as totals, and a single daily route, of day 1, with the same
    distance, duration and elevation, holding every point; the points are
    the vertices in order, all of day 1. *)
Theorem single_day_route (tripType : string) (coords : list coord)
    (meters seconds up down : R) :
  isCycling tripType = false ->
  meters <> 0 ->
  let r := splitIntoDays tripType coords
             (mkProperties (Some meters) (Some seconds) (Some up) (Some down)) in
  RouteResult.totalDistance r = Fin (meters / 1000)
  /\ RouteResult.totalDuration r = Fin (seconds / 3600)
  /\ RouteResult.totalElevation r = mkElevation (Fin up) (Fin down)
  /\ RouteResult.dailyRoutes r
     = [DailyRoute.mk 1 (Fin (meters / 1000)) (Fin (seconds / 3600))
          (mkElevation (Fin up) (Fin down)) (RouteResult.points r)]
  /\ map (fun p => (RoutePoint.lng p, RoutePoint.lat p)) (RouteResult.points r)
     = coords
  /\ map RoutePoint.order (RouteResult.points r) = seq 0 (length coords)
  /\ Forall (fun p => RoutePoint.day p = 1%nat) (RouteResult.points r).
Proof.
  intros C Hm r. unfold r, splitIntoDays. cbv zeta.
  cbn [summary_distance summary_duration ascent descent RouteResult.totalDistance
       RouteResult.totalDuration RouteResult.totalElevation
       RouteResult.dailyRoutes RouteResult.points].
  rewrite C, !orElse_zero, (orElse_nonzero meters) by exact Hm.
  rewrite !ndiv_Fin by lra.
  repeat split.
  - apply buildPoints_coords.
  - apply buildPoints_orders.
  - eapply Forall_impl; [|apply buildPoints_days].
    intros p Hp. cbn beta in Hp. rewrite Hp. unfold dayOfIndex.
    rewrite C. reflexivity.
Qed.

Lemma single_day_route_witness :
  RouteResult.totalDistance (splitIntoDays "hiking" outAndBack reportedProperties)
  = Fin (8000 / 1000).
Proof.
  apply (single_day_route "hiking" outAndBack 8000 10800 300 250 eq_refl).
  lra.
Defined.

(** ** The cumulative distances *)

Lemma last_cons_nonempty {A : Type} (a d : A) (l : list A) :
  l <> [] -> last (a :: l) d = last l d.
Proof. destruct l; [congruence | reflexivity]. Qed.

Lemma last_In {A : Type} (d : A) (l : list A) : l <> [] -> In (last l d) l.
Proof.
  induction l as [|a l IH]; [congruence|]. intros _.
  destruct l as [|b l]; [left; reflexivity|].
  right. rewrite last_cons_nonempty by discriminate. apply IH. discriminate.
Qed.

Lemma last_default {A : Type} (d d' : A) (l : list A) :
  l <> [] -> last l d = last l d'.
Proof.
  induction l as [|a l IH]; [congruence|]. intros _.
  destruct l as [|b l]; [reflexivity|].
  rewrite !(last_cons_nonempty a) by discriminate. apply IH. discriminate.
Qed.

Lemma cumFrom_lower (acc : R) (prev : coord) (rest : list coord) (v : R) :
  In v (cumFrom acc prev rest) -> acc <= v.
Proof.
  revert acc prev. induction rest as [|c rest IH]; intros acc prev Hin.
  - destruct Hin.
  - cbn [cumFrom] in Hin. cbv zeta in Hin.
    pose proof (haversine_nonneg prev c) as Hh.
    destruct Hin as [<-|Hin]; [lra|].
    apply IH in Hin. lra.
Qed.

Lemma cumFrom_upper (acc d : R) (prev : coord) (rest : list coord) (v : R) :
  In v (cumFrom acc prev rest) -> v <= last (cumFrom acc prev rest) d.
Proof.
  revert acc prev. induction rest as [|c rest IH]; intros acc prev Hin.
  - destruct Hin.
  - cbn [cumFrom] in *. cbv zeta in *.
    set (w := acc + haversineMetersLonLat prev c) in *.
    destruct (cumFrom w c rest) as [|u l] eqn:El.
    + destruct Hin as [<-|[]]. cbn. lra.
    + rewrite last_cons_nonempty by discriminate.
      destruct Hin as [<-|Hin].
      * apply (cumFrom_lower w c rest). rewrite El.
        apply last_In. discriminate.
      * rewrite <- El in *. apply IH. exact Hin.
Qed.

Lemma cumulative_bounds (coords : list coord) (v : R) :
  In v (cumulative coords) -> 0 <= v <= last (cumulative coords) 0.
Proof.
  unfold cumulative. destruct coords as [|c rest].
  - intros [<-|[]]. cbn. lra.
  - destruct (cumFrom 0 c rest) as [|u l] eqn:El.
    + intros [<-|[]]. cbn. lra.
    + rewrite last_cons_nonempty by discriminate. rewrite <- El.
      intros [<-|Hin].
      * split; [lra|]. apply (cumFrom_lower 0 c rest). rewrite El.
        apply last_In. discriminate.
      * split; [apply (cumFrom_lower 0 c rest); exact Hin|].
        apply cumFrom_upper. exact Hin.
Qed.

Lemma findIndex_found (p : R -> bool) (l : list R) (k j : Z) :
  findIndex p l k = j -> j <> (-1)%Z -> (0 <= k)%Z ->
  (k <= j)%Z
  /\ (exists v, nth_error l (Z.to_nat (j - k)) = Some v /\ p v = true)
  /\ (forall i v, (Z.of_nat i < j - k)%Z -> nth_error l i = Some v -> p v = false).
Proof.
  revert k. induction l as [|u l IH]; intros k E Hj Hk; cbn [findIndex] in E.
  - congruence.
  - destruct (p u) eqn:Pu.
    + subst j. replace (k - k)%Z with 0%Z by lia. split; [lia|]. split.
      * exists u. split; [reflexivity | exact Pu].
      * intros i v Hi. lia.
    + destruct (IH (k + 1)%Z E Hj ltac:(lia)) as (Hle & (v & Hv & Pv) & Hbefore).
      split; [lia|]. split.
      * exists v. split; [|exact Pv].
        replace (Z.to_nat (j - k)) with (Datatypes.S (Z.to_nat (j - (k + 1)))) by lia.
        exact Hv.
      * intros i w Hi Hw. destruct i as [|i].
        -- cbn in Hw. injection Hw as <-. exact Pu.
        -- apply (Hbefore i); [lia | exact Hw].
Qed.

Lemma findIndex_exists (p : R -> bool) (l : list R) (k : Z) (v : R) :
  In v l -> p v = true -> (0 <= k)%Z -> findIndex p l k <> (-1)%Z.
Proof.
  revert k. induction l as [|u l IH]; intros k Hin Pv Hk; [destruct Hin|].
  cbn [findIndex]. destruct (p u) eqn:Pu; [lia|].
  destruct Hin as [->|Hin]; [congruence|].
  apply IH; [exact Hin | exact Pv | lia].
Qed.

Lemma cumulative_head (coords : list coord) :
  nth_error (cumulative coords) 0 = Some 0.
Proof. reflexivity. Qed.

(** On a path of positive geometric length the split index points at a
    vertex that reaches half of the length, and no vertex before it
    does. *)
Lemma split_vertex (coords : list coord) (properties : Properties) :
  0 < last (cumulative coords) 0 ->
  exists m1,
    arrayGet (cumulative coords) (splitIndex coords properties) = Fin m1
    /\ last (cumulative coords) 0 / 2 <= m1 <= last (cumulative coords) 0
    /\ (forall i v, (Z.of_nat i < splitIndex coords properties)%Z ->
                    nth_error (cumulative coords) i = Some v ->
                    v < last (cumulative coords) 0 / 2).
Proof.
  intros Hpos. set (L := last (cumulative coords) 0) in *.
  assert (Htot : totalGeomMeters (cumulative coords) properties = L).
  { unfold totalGeomMeters. fold L.
    replace (Reqb L 0) with false by (symmetry; apply Reqb_false; lra).
    reflexivity. }
  rewrite splitIndex_clamped, Htot.
  set (p := fun v => Rleb (L / 2) v).
  assert (HLin : In L (cumulative coords)).
  { apply last_In. unfold cumulative. discriminate. }
  assert (Hne : findIndex p (cumulative coords) 0 <> (-1)%Z).
  { apply (findIndex_exists p _ 0 L HLin); [|lia].
    apply Rleb_true. lra. }
  destruct (findIndex_found p _ 0 _ eq_refl Hne ltac:(lia))
    as (Hge & (v & Hv & Pv) & Hbefore).
  set (j := findIndex p (cumulative coords) 0) in *.
  rewrite Z.sub_0_r in Hv, Hbefore.
  apply Rleb_true in Pv.
  assert (Hj1 : (1 <= j)%Z).
  { destruct (Z.eq_dec j 0) as [E0|]; [|lia].
    rewrite E0 in Hv. cbn in Hv. injection Hv as <-. lra. }
  rewrite Z.max_r by lia.
  exists v. split; [|split].
  - unfold arrayGet. destruct (Z.ltb_spec j 0); [lia|]. rewrite Hv. reflexivity.
  - split; [exact Pv|]. apply cumulative_bounds.
    apply nth_error_In with (n := Z.to_nat j). exact Hv.
  - intros i w Hi Hw. specialize (Hbefore i w Hi Hw).
    apply Rleb_false in Hbefore. lra.
Qed.

Lemma cycling_days (tripType : string) (coords : list coord)
    (properties : Properties) (m1 : R) :
  isCycling tripType = true ->
  arrayGet (cumulative coords) (splitIndex coords properties) = Fin m1 ->
  let tm := orElse (summary_distance properties)
              (totalGeomMeters (cumulative coords) properties) in
  let sec := orElse (summary_duration properties) 0 in
  let up := orElse (ascent properties) 0 in
  let down := orElse (descent properties) 0 in
  let f := Rmax 0 (Rmin 1 (m1 / Rmax tm 1)) in
  let points := buildPoints tripType (splitIndex coords properties) coords 0 0 in
  RouteResult.dailyRoutes (splitIntoDays tripType coords properties)
  = [ DailyRoute.mk 1 (Fin (m1 / 1000)) (Fin (sec * f / 3600))
        (mkElevation (Fin (up * f)) (Fin (down * f))) (pointsOfDay 1 points);
      DailyRoute.mk 2 (Fin ((tm - m1) / 1000)) (Fin (sec * (1 - f) / 3600))
        (mkElevation (Fin (up * (1 - f))) (Fin (down * (1 - f))))
        (pointsOfDay 2 points) ].
Proof.
  intros C Hm1 tm sec up down f points.
  assert (Hmax : Rmax tm 1 <> 0) by (pose proof (Rmax_r tm 1); lra).
  unfold splitIntoDays. cbv zeta. cbn [RouteResult.dailyRoutes].
  rewrite C, Hm1. fold tm sec up down.
  unfold nmax, nmin, nsub, nmul, lift2.
  rewrite (ndiv_Fin m1 (Rmax tm 1)) by exact Hmax.
  rewrite !ndiv_Fin by lra. reflexivity.
Qed.

(** X11.  For cycling over a path of positive geometric length [L]: the
    first day's distance is [m1 / 1000] for [m1 = cum[splitIdx]], the
    length accumulated at the split index, which is at least half of [L]
    and at most [L], while every vertex before the split index is short
    of half; and when the service reports no distance, the second day's
    distance is the rest of [L]. *)
Theorem first_day_reaches_half (tripType : string) (coords : list coord)
    (properties : Properties) :
  isCycling tripType = true ->
  0 < last (cumulative coords) 0 ->
  let L := last (cumulative coords) 0 in
  exists (m1 : R) (d1 d2 : DailyRoute.t),
    RouteResult.dailyRoutes (splitIntoDays tripType coords properties) = [d1; d2]
    /\ arrayGet (cumulative coords) (splitIndex coords properties) = Fin m1
    /\ DailyRoute.distance d1 = Fin (m1 / 1000)
    /\ L / 2 <= m1 <= L
    /\ (forall i v, (Z.of_nat i < splitIndex coords properties)%Z ->
                    nth_error (cumulative coords) i = Some v -> v < L / 2)
    /\ (summary_distance properties = None ->
        DailyRoute.distance d2 = Fin ((L - m1) / 1000)).
Proof.
  intros C Hpos L.
  destruct (split_vertex coords properties Hpos) as (m1 & Hm1 & Hb & Hbefore).
  exists m1. rewrite (cycling_days _ _ _ _ C Hm1).
  do 2 eexists. split; [reflexivity|]. split; [exact Hm1|].
  cbn [DailyRoute.distance]. repeat split; try apply Hb; try exact Hbefore.
  intros ->. cbn [orElse]. unfold totalGeomMeters. fold L.
  replace (Reqb L 0) with false by (symmetry; apply Reqb_false; unfold L; lra).
  reflexivity.
Qed.

(** X12.  For cycling over a geometry of at least 2 vertices, when the
    reported duration, ascent and descent are not negative, no day has a
    negative duration, gain or loss, and none has more than the total. *)
Theorem cycling_days_within_totals (tripType : string) (coords : list coord)
    (properties : Properties) :
  isCycling tripType = true ->
  (2 <= length coords)%nat ->
  let sec := orElse (summary_duration properties) 0 in
  let up := orElse (ascent properties) 0 in
  let down := orElse (descent properties) 0 in
  0 <= sec -> 0 <= up -> 0 <= down ->
  Forall (fun d =>
            exists t g l,
              DailyRoute.duration d = Fin t /\ 0 <= t <= sec / 3600
              /\ DailyRoute.elevation d = mkElevation (Fin g) (Fin l)
              /\ 0 <= g <= up /\ 0 <= l <= down)
         (RouteResult.dailyRoutes (splitIntoDays tripType coords properties)).
Proof.
  intros C Hn sec up down Hsec Hup Hdown.
  destruct (arrayGet_in_range (cumulative coords) (splitIndex coords properties))
    as [m1 Hm1].
  { pose proof (splitIndex_in_range coords properties Hn).
    rewrite length_cumulative. lia. }
  rewrite (cycling_days _ _ _ _ C Hm1). fold sec up down.
  set (f := Rmax 0 (Rmin 1 _)).
  assert (Hf : 0 <= f <= 1).
  { unfold f. split; [apply Rmax_l|].
    apply Rmax_lub; [lra | apply Rmin_l]. }
  repeat constructor; do 3 eexists;
    (split; [reflexivity|]); (split; [|split; [reflexivity|]]); nra.
Qed.

Lemma northward_positive : 0 < last (cumulative northward) 0.
Proof.
  unfold northward, cumulative, cumFrom. cbn [last].
  pose proof (haversine_one_degree_north 2 41). lra.
Qed.

Lemma first_day_reaches_half_witness :
  exists (m1 : R) (d1 d2 : DailyRoute.t),
    RouteResult.dailyRoutes (splitIntoDays "cycling" northward noProperties)
    = [d1; d2]
    /\ arrayGet (cumulative northward) (splitIndex northward noProperties)
       = Fin m1
    /\ DailyRoute.distance d1 = Fin (m1 / 1000)
    /\ last (cumulative northward) 0 / 2 <= m1 <= last (cumulative northward) 0
    /\ (forall i v, (Z.of_nat i < splitIndex northward noProperties)%Z ->
                    nth_error (cumulative northward) i = Some v ->
                    v < last (cumulative northward) 0 / 2)
    /\ (summary_distance noProperties = None ->
        DailyRoute.distance d2
        = Fin ((last (cumulative northward) 0 - m1) / 1000)).
Proof.
  apply (first_day_reaches_half "cycling" northward noProperties eq_refl).
  apply northward_positive.
Defined.

Lemma cycling_days_within_totals_witness :
  Forall (fun d =>
            exists t g l,
              DailyRoute.duration d = Fin t /\ 0 <= t <= 10800 / 3600
              /\ DailyRoute.elevation d = mkElevation (Fin g) (Fin l)
              /\ 0 <= g <= 300 /\ 0 <= l <= 250)
         (RouteResult.dailyRoutes
            (splitIntoDays "cycling" northward reportedProperties)).
Proof.
  pose proof (cycling_days_within_totals "cycling" northward reportedProperties
                eq_refl ltac:(simpl; lia)) as H.
  cbv zeta in H. cbn [reportedProperties summary_duration ascent descent] in H.
  rewrite !orElse_zero in H.
  apply H; lra.
Defined.

(** ** The proposer never throws *)

Section ProposerOutcomes.
Context {W : Type}.
Variable setTimeout : nat -> W -> W.
Variable groq_create : Prompt -> M W (option string).
Variable JSON_parse : string -> option jsval.
Variables (maxRetries retryDelay : nat) (location tripType : string)
          (isRetry : bool).

Let prompt := mkPrompt isRetry tripType location.
Let loop := generateRouteWithAILoop setTimeout groq_create JSON_parse
              maxRetries retryDelay.

(** A turn either returns a value, in the state the request left, or goes
    on to the next turn, after the delay when a turn is left. *)
Lemma turn_outcomes (remaining attempt : nat) (s : W) :
  (exists value,
      loop (S remaining) attempt location tripType isRetry s
      = (fst (groq_create prompt s), Return value))
  \/ loop (S remaining) attempt location tripType isRetry s
     = loop remaining (S attempt) location tripType isRetry
         (if (attempt <? maxRetries)%nat
          then setTimeout retryDelay (fst (groq_create prompt s))
          else fst (groq_create prompt s)).
Proof.
  remember (loop (S remaining) attempt location tripType isRetry s) as lhs eqn:El.
  unfold loop in El. cbn [generateRouteWithAILoop] in El.
  unfold bind at 1 in El. unfold tryCatch in El. unfold bind at 1 in El.
  fold prompt in El. fold loop in El.
  destruct (groq_create prompt s) as [s1 [[text|]|e]]; cbn [fst option_map] in *.
  - destruct (trim text) as [|c rest].
    + destruct (attempt <? maxRetries)%nat; [right; exact El|].
      left. eexists. exact El.
    + destruct (extractJson JSON_parse (String c rest)).
      * left. eexists. exact El.
      * right. destruct (attempt <? maxRetries)%nat; exact El.
  - destruct (attempt <? maxRetries)%nat; [right; exact El|].
    left. eexists. exact El.
  - right. destruct (attempt <? maxRetries)%nat; exact El.
Qed.
End ProposerOutcomes.

Ltac proposer_turn setTimeout g JSON_parse location tripType isRetry :=
  match goal with
  | |- context [generateRouteWithAILoop _ _ _ _ _ (S ?r) ?a _ _ _ ?st] =>
      let v := fresh "v" in
      let E := fresh "E" in
      destruct (turn_outcomes (loggedTimeout setTimeout) g JSON_parse 3 1000
                  location tripType isRetry r a st) as [[v E]|E];
      rewrite E; clear E
  end.

(** X13.  Whatever the language model and [JSON.parse] do, throws
    included, [generateRouteWithAI] does not throw: it returns a value
    (null when nothing parsed), having asked the model 1, 2 or 3 times,
    each time with the same prompt, with a delay of 1000 ms between two
    requests and none after the last. *)
Theorem proposer_never_throws {W : Type}
    (setTimeout : nat -> W -> W)
    (groq_create : Prompt -> M W (option string))
    (JSON_parse : string -> option jsval)
    (location tripType : string) (isRetry : bool) (s : W) :
  let ask := Asked (mkPrompt isRetry tripType location) in
  exists s' log value,
    tracedProposer setTimeout groq_create JSON_parse
      location tripType isRetry (s, [])
    = ((s', log), Return value)
    /\ (log = [ask]
        \/ log = [ask; Slept 1000; ask]
        \/ log = [ask; Slept 1000; ask; Slept 1000; ask]).
Proof.
  intros ask. unfold tracedProposer, generateRouteWithAI. cbv zeta.
  set (g := fun p => logging [Asked p] (groq_create p)).
  assert (Hg : forall st, fst (g (mkPrompt isRetry tripType location) st)
                          = (fst (groq_create (mkPrompt isRetry tripType location)
                                    (fst st)), snd st ++ [ask])).
  { intros [s0 log0]. unfold g. apply fst_logging. }
  proposer_turn setTimeout g JSON_parse location tripType isRetry.
  { rewrite Hg. do 3 eexists. split; [reflexivity|]. auto. }
  rewrite Hg. cbn [Nat.ltb Nat.leb loggedTimeout app fst snd].
  proposer_turn setTimeout g JSON_parse location tripType isRetry.
  { rewrite Hg. do 3 eexists. split; [reflexivity|]. cbn [snd app]. auto. }
  rewrite Hg. cbn [Nat.ltb Nat.leb loggedTimeout app fst snd].
  proposer_turn setTimeout g JSON_parse location tripType isRetry.
  { rewrite Hg. do 3 eexists. split; [reflexivity|]. cbn [snd app]. auto. }
  rewrite Hg. cbn [Nat.ltb Nat.leb app fst snd generateRouteWithAILoop].
  do 3 eexists. split; [reflexivity|]. auto.
Qed.

(** ** The orchestrator's turns *)

Section OrchestratorOutcomes.
Context {W : Type}.
Variable setTimeout : nat -> W -> W.
Variable proposer : string -> string -> bool -> M W jsval.
Variable synthesizer : jsval -> string -> M W RouteResult.t.
Variables (maxRetries : nat) (location tripType : string).

Let loop := generateRouteLoop setTimeout proposer synthesizer maxRetries.

(** One turn of the loop, by the outcomes of the proposer, of the
    acceptance test and of the synthesizer. *)
Lemma orchestrator_turn (remaining attempt : nat) (s : W) :
  loop (S remaining) attempt location tripType s
  = match proposer location tripType (1 <? attempt)%nat s with
    | (s1, Throw e) => (s1, Throw e)
    | (s1, Return r) =>
        match accepted r with
        | Throw e => (s1, Throw e)
        | Return false =>
            loop remaining (S attempt) location tripType
              (if (attempt <? maxRetries)%nat then setTimeout 1000%nat s1 else s1)
        | Return true =>
            match synthesizer (prop r "waypoints") tripType s1 with
            | (s2, Return route) => (s2, Return route)
            | (s2, Throw e) =>
                if (attempt <? maxRetries)%nat
                then loop remaining (S attempt) location tripType
                       (setTimeout 1000%nat s2)
                else (s2, Throw (Error ("Failed to generate route: "
                                        ++ message e)%string))
            end
        end
    end.
Proof.
  unfold loop. cbn [generateRouteLoop]. cbv zeta.
  unfold bind at 1.
  destruct (proposer location tripType (1 <? attempt)%nat s) as [s1 [r|e]];
    [|reflexivity].
  unfold bind at 1. unfold liftResult.
  destruct (accepted r) as [[|]|e]; [| |reflexivity].
  - unfold bind at 1. unfold tryCatch. unfold bind at 1.
    destruct (synthesizer (prop r "waypoints") tripType s1) as [s2 [route|e]].
    + reflexivity.
    + destruct (attempt <? maxRetries)%nat; reflexivity.
  - unfold bind at 1. unfold bind at 1.
    destruct (attempt <? maxRetries)%nat; reflexivity.
Qed.
End OrchestratorOutcomes.

Lemma accepted_true_valid (r : jsval) :
  accepted r = Return true -> isWaypointsValid (prop r "waypoints") = Return true.
Proof.
  unfold accepted. destruct (truthy r && truthy (prop r "waypoints"));
    [auto | discriminate].
Qed.

(** X14.  When the proposer's answer is accepted at the first turn and
    the synthesizer returns a route for its waypoints, [generateRoute]
    returns this route after one call to each, without any delay. *)
Theorem generateRoute_first_success {W : Type}
    (setTimeout : nat -> W -> W)
    (proposer : string -> string -> bool -> M W jsval)
    (synthesizer : jsval -> string -> M W RouteResult.t)
    (location tripType : string) (s s1 s2 : W) (r : jsval)
    (route : RouteResult.t) :
  proposer location tripType false s = (s1, Return r) ->
  accepted r = Return true ->
  synthesizer (prop r "waypoints") tripType s1 = (s2, Return route) ->
  tracedOrchestrator setTimeout proposer synthesizer location tripType (s, [])
  = ((s2, [Proposed false; Synthesized (prop r "waypoints")]), Return route).
Proof.
  intros Ep Ha Es. unfold tracedOrchestrator, generateRouteWith. cbv zeta.
  rewrite orchestrator_turn. cbn [Nat.ltb Nat.leb].
  unfold logging at 1. rewrite Ep, Ha.
  unfold logging. rewrite Es. reflexivity.
Qed.

Lemma generateRoute_first_success_witness :
  tracedOrchestrator (fun (_ : nat) (s : unit) => s)
    (fun _ _ _ s => (s, Return rightAngleAnswer))
    (fun _ t s => (s, Return (splitIntoDays t northward reportedProperties)))
    "Barcelona, Spain" "hiking" (tt, [])
  = ((tt, [Proposed false; Synthesized (prop rightAngleAnswer "waypoints")]),
     Return (splitIntoDays "hiking" northward reportedProperties)).
Proof.
  apply (generateRoute_first_success (fun (_ : nat) (s : unit) => s)
           (fun _ _ _ s => (s, Return rightAngleAnswer))
           (fun _ t s => (s, Return (splitIntoDays t northward reportedProperties)))
           "Barcelona, Spain" "hiking" tt tt tt rightAngleAnswer).
  - reflexivity.
  - unfold accepted. cbn [rightAngleAnswer truthy prop lookup String.eqb
                           Ascii.eqb Bool.eqb andb].
    apply rightAngleWaypoints_valid.
  - reflexivity.
Defined.

(** X15.  When the proposer's answer is accepted at every turn and the
    synthesizer throws at every call, [generateRoute] calls each of them
    exactly 3 times, waits 1000 ms after the first and the second
    failure, and throws 'Failed to generate route: ' followed by the
    message of the third failure. *)
Theorem generateRoute_synthesis_exhausted {W : Type}
    (setTimeout : nat -> W -> W)
    (proposer : string -> string -> bool -> M W jsval)
    (synthesizer : jsval -> string -> M W RouteResult.t)
    (location tripType : string) :
  (forall isRetry s, exists s' r,
      proposer location tripType isRetry s = (s', Return r)
      /\ accepted r = Return true) ->
  (forall w s, exists s' e, synthesizer w tripType s = (s', Throw e)) ->
  forall s, exists s' w1 w2 w3 s3 e,
    synthesizer w3 tripType s3 = (s', Throw e)
    /\ tracedOrchestrator setTimeout proposer synthesizer location tripType (s, [])
       = ((s', [Proposed false; Synthesized w1; Slept 1000;
                Proposed true; Synthesized w2; Slept 1000;
                Proposed true; Synthesized w3]),
          Throw (Error ("Failed to generate route: " ++ message e)%string)).
Proof.
  intros Hp Hs s. unfold tracedOrchestrator, generateRouteWith. cbv zeta.
  destruct (Hp false s) as (s1 & r1 & Ep1 & Ha1).
  destruct (Hs (prop r1 "waypoints") s1) as (t1 & e1 & Es1).
  destruct (Hp true (setTimeout 1000%nat t1)) as (s2 & r2 & Ep2 & Ha2).
  destruct (Hs (prop r2 "waypoints") s2) as (t2 & e2 & Es2).
  destruct (Hp true (setTimeout 1000%nat t2)) as (s3 & r3 & Ep3 & Ha3).
  destruct (Hs (prop r3 "waypoints") s3) as (t3 & e3 & Es3).
  exists t3, (prop r1 "waypoints"), (prop r2 "waypoints"), (prop r3 "waypoints"),
    s3, e3.
  split; [exact Es3|].
  rewrite orchestrator_turn. cbn [Nat.ltb Nat.leb].
  unfold logging at 1. rewrite Ep1, Ha1.
  unfold logging at 1. rewrite Es1. cbn [loggedTimeout app].
  rewrite orchestrator_turn. cbn [Nat.ltb Nat.leb].
  unfold logging at 1. rewrite Ep2, Ha2.
  unfold logging at 1. rewrite Es2. cbn [loggedTimeout app].
  rewrite orchestrator_turn. cbn [Nat.ltb Nat.leb].
  unfold logging at 1. rewrite Ep3, Ha3.
  unfold logging at 1. rewrite Es3. cbn [app]. reflexivity.
Qed.

Lemma generateRoute_synthesis_exhausted_witness :
  exists s' w1 w2 w3 s3 e,
    (fun (_ : jsval) (_ : string) (s : unit) =>
       (s, @Throw RouteResult.t serverFault)) w3 "hiking" s3
    = (s', Throw e)
    /\ tracedOrchestrator (fun (_ : nat) (s : unit) => s)
         (fun _ _ _ s => (s, Return rightAngleAnswer))
         (fun _ _ s => (s, Throw serverFault))
         "Barcelona, Spain" "hiking" (tt, [])
       = ((s', [Proposed false; Synthesized w1; Slept 1000;
                Proposed true; Synthesized w2; Slept 1000;
                Proposed true; Synthesized w3]),
          Throw (Error ("Failed to generate route: " ++ message e)%string)).
Proof.
  apply (generateRoute_synthesis_exhausted (fun (_ : nat) (s : unit) => s)
           (fun _ _ _ s => (s, Return rightAngleAnswer))
           (fun _ _ s => (s, Throw serverFault))
           "Barcelona, Spain" "hiking").
  - intros isRetry s. exists s, rightAngleAnswer. split; [reflexivity|].
    unfold accepted. cbn [rightAngleAnswer truthy prop lookup String.eqb
                           Ascii.eqb Bool.eqb andb].
    apply rightAngleWaypoints_valid.
  - intros w s. exists s, serverFault. reflexivity.
Defined.

(** ** What every run of the orchestrator keeps *)

Lemma count_app (kind : call -> bool) (a b : list call) :
  count kind (a ++ b) = (count kind a + count kind b)%nat.
Proof. unfold count. rewrite filter_app, length_app. reflexivity. Qed.

Section OrchestratorRuns.
Context {W : Type}.
Variable setTimeout : nat -> W -> W.
Variable proposer : string -> string -> bool -> M W jsval.
Variable synthesizer : jsval -> string -> M W RouteResult.t.
Variables (maxRetries : nat) (location tripType : string).

Let tracedLoop :=
  generateRouteLoop (loggedTimeout setTimeout)
    (fun l t isRetry => logging [Proposed isRetry] (proposer l t isRetry))
    (fun w t => logging [Synthesized w] (synthesizer w t))
    maxRetries.

(** What the turns from [attempt] on add to the trace. *)
Lemma orchestrator_segment (remaining attempt : nat) (s : W) (log0 : list call) :
  exists s' seg r,
    tracedLoop remaining attempt location tripType (s, log0)
    = ((s', log0 ++ seg), r)
    /\ (count isProposed seg <= remaining)%nat
    /\ (1 <= remaining -> 1 <= count isProposed seg)%nat
    /\ (count isSynthesized seg <= count isProposed seg)%nat
    /\ (count isSlept seg <= maxRetries - attempt)%nat
    /\ Forall synthesizesValid seg
    /\ (forall route, r = Return route ->
                      exists before w, seg = before ++ [Synthesized w]).
Proof.
  revert attempt s log0.
  induction remaining as [|remaining IH]; intros attempt s log0.
  - exists s, [], (Throw (Error "AI failed to generate realistic waypoints after multiple attempts.")).
    rewrite app_nil_r. split; [reflexivity|].
    repeat split; cbn; try lia; try constructor.
    intros route H. discriminate.
  - unfold tracedLoop. rewrite orchestrator_turn. fold tracedLoop.
    set (b := (1 <? attempt)%nat).
    unfold logging at 1.
    destruct (proposer location tripType b s) as [s1 [r|e]].
    2:{ exists s1, [Proposed b], (Throw e). split; [reflexivity|].
        repeat split; cbn; try lia; try (repeat constructor).
        intros route H. discriminate. }
    destruct (accepted r) as [[|]|e] eqn:Ha.
    3:{ exists s1, [Proposed b], (Throw e). split; [reflexivity|].
        repeat split; cbn; try lia; try (repeat constructor).
        intros route H. discriminate. }
    + unfold logging at 1.
      destruct (synthesizer (prop r "waypoints") tripType s1) as [s2 [route|e]].
      * exists s2, [Proposed b; Synthesized (prop r "waypoints")], (Return route).
        rewrite <- app_assoc. split; [reflexivity|].
        repeat split; cbn; try lia.
        -- repeat constructor. apply accepted_true_valid. exact Ha.
        -- intros route' _. exists [Proposed b], (prop r "waypoints"). reflexivity.
      * destruct (Nat.ltb_spec attempt maxRetries) as [Hlt|Hge].
        -- cbn [loggedTimeout].
           destruct (IH (S attempt) (setTimeout 1000%nat s2)
                       (((log0 ++ [Proposed b]) ++ [Synthesized (prop r "waypoints")])
                        ++ [Slept 1000]))
             as (s' & seg & res & E & Hp & Hp1 & Hsy & Hsl & Hv & Hret).
           exists s', ([Proposed b; Synthesized (prop r "waypoints"); Slept 1000] ++ seg), res.
           split.
           { rewrite E. rewrite <- !app_assoc. reflexivity. }
           rewrite !count_app. cbn [count filter isProposed isSynthesized isSlept length].
           repeat split; try lia.
           ++ apply Forall_app. split; [|exact Hv].
              repeat constructor. apply accepted_true_valid. exact Ha.
           ++ intros route Hr. destruct (Hret route Hr) as (before & w & ->).
              exists ([Proposed b; Synthesized (prop r "waypoints"); Slept 1000] ++ before), w.
              rewrite <- app_assoc. reflexivity.
        -- exists s2, [Proposed b; Synthesized (prop r "waypoints")],
             (Throw (Error ("Failed to generate route: " ++ message e)%string)).
           rewrite <- app_assoc. split; [reflexivity|].
           repeat split; cbn; try lia.
           ++ repeat constructor. apply accepted_true_valid. exact Ha.
           ++ intros route H. discriminate.
    + destruct (Nat.ltb_spec attempt maxRetries) as [Hlt|Hge].
      * cbn [loggedTimeout].
        destruct (IH (S attempt) (setTimeout 1000%nat s1)
                    ((log0 ++ [Proposed b]) ++ [Slept 1000]))
          as (s' & seg & res & E & Hp & Hp1 & Hsy & Hsl & Hv & Hret).
        exists s', ([Proposed b; Slept 1000] ++ seg), res.
        split.
        { rewrite E. rewrite <- !app_assoc. reflexivity. }
        rewrite !count_app. cbn [count filter isProposed isSynthesized isSlept length].
        repeat split; try lia.
        -- apply Forall_app. split; [|exact Hv]. repeat constructor.
        -- intros route Hr. destruct (Hret route Hr) as (before & w & ->).
           exists ([Proposed b; Slept 1000] ++ before), w.
           rewrite <- app_assoc. reflexivity.
      * destruct (IH (S attempt) s1 (log0 ++ [Proposed b]))
          as (s' & seg & res & E & Hp & Hp1 & Hsy & Hsl & Hv & Hret).
        exists s', ([Proposed b] ++ seg), res.
        split.
        { rewrite E. rewrite <- !app_assoc. reflexivity. }
        rewrite !count_app. cbn [count filter isProposed isSynthesized isSlept length].
        repeat split; try lia.
        -- apply Forall_app. split; [|exact Hv]. repeat constructor.
        -- intros route Hr. destruct (Hret route Hr) as (before & w & ->).
           exists ([Proposed b] ++ before), w.
           rewrite <- app_assoc. reflexivity.
Qed.
End OrchestratorRuns.

(** X16.  Whatever the proposer and the synthesizer do, a run of
    [generateRoute] calls the proposer at least once and at most 3 times,
    never calls the synthesizer more often than the proposer, waits at
    most twice, calls the synthesizer only with waypoints that
    [isWaypointsValid] accepts, and, when it returns a route, has called
    the synthesizer last. *)
Theorem generateRoute_bounded {W : Type}
    (setTimeout : nat -> W -> W)
    (proposer : string -> string -> bool -> M W jsval)
    (synthesizer : jsval -> string -> M W RouteResult.t)
    (location tripType : string) (s : W) :
  exists s' log r,
    tracedOrchestrator setTimeout proposer synthesizer location tripType (s, [])
    = ((s', log), r)
    /\ (1 <= count isProposed log <= 3)%nat
    /\ (count isSynthesized log <= count isProposed log)%nat
    /\ (count isSlept log <= 2)%nat
    /\ Forall synthesizesValid log
    /\ (forall route, r = Return route ->
                      exists before w, log = before ++ [Synthesized w]).
Proof.
  destruct (orchestrator_segment setTimeout proposer synthesizer 3
              location tripType 3 1 s [])
    as (s' & seg & r & E & Hp & Hp1 & Hsy & Hsl & Hv & Hret).
  exists s', seg, r. split; [exact E|].
  repeat split; try assumption; try lia.
Qed.

(** ** The braces match *)

Lemma fromFirst_spec (c : ascii) (s t : string) :
  fromFirst c s = Some t
  <-> exists pre rest, s = (pre ++ String c rest)%string
                       /\ hasChar c pre = false /\ t = String c rest.
Proof.
  revert t. induction s as [|a s IH]; intros t; cbn [fromFirst].
  - split; [discriminate|].
    intros (pre & rest & H & _). destruct pre; discriminate.
  - destruct (Ascii.eqb_spec a c) as [->|Hac].
    + split.
      * intros H. injection H as <-. exists EmptyString, s. auto.
      * intros (pre & rest & H & Hpre & ->).
        destruct pre as [|b pre]; cbn in H.
        -- rewrite H. reflexivity.
        -- injection H as <- _. cbn in Hpre. rewrite Ascii.eqb_refl in Hpre.
           discriminate.
    + rewrite IH. split.
      * intros (pre & rest & -> & Hpre & ->). exists (String a pre), rest.
        repeat split. cbn. apply Ascii.eqb_neq in Hac. rewrite Hac. exact Hpre.
      * intros (pre & rest & H & Hpre & ->).
        destruct pre as [|b pre]; cbn in H; injection H as -> ->; [congruence|].
        exists pre, rest. repeat split. cbn in Hpre.
        apply orb_false_elim in Hpre. apply Hpre.
Qed.

Lemma throughLast_none (c : ascii) (s : string) :
  throughLast c s = None <-> hasChar c s = false.
Proof.
  induction s as [|a s IH]; cbn [throughLast hasChar]; [tauto|].
  destruct (throughLast c s) as [p|].
  - split; [discriminate|]. intros H. apply orb_false_elim in H as [_ H].
    apply IH in H. discriminate.
  - destruct (Ascii.eqb a c); cbn; [split; discriminate|].
    split; intros _; [apply IH|]; reflexivity.
Qed.

Lemma throughLast_spec (c : ascii) (s p : string) :
  throughLast c s = Some p
  <-> exists inner post, s = (inner ++ String c post)%string
                         /\ hasChar c post = false
                         /\ p = (inner ++ String c EmptyString)%string.
Proof.
  revert p. induction s as [|a s IH]; intros p; cbn [throughLast].
  - split; [discriminate|].
    intros (inner & post & H & _). destruct inner; discriminate.
  - destruct (throughLast c s) as [q|] eqn:E.
    + destruct (proj1 (IH q) eq_refl) as (inner & post & -> & Hpost & ->).
      split.
      * intros H. injection H as <-. exists (String a inner), post. auto.
      * intros (inner' & post' & H & Hpost' & ->). f_equal.
        destruct inner' as [|b inner']; cbn in H; injection H as <- H.
        -- exfalso. apply throughLast_none in Hpost'. rewrite <- H in Hpost'.
           rewrite E in Hpost'. discriminate.
        -- cbn. f_equal.
           assert (Hq : Some (inner ++ String c EmptyString)%string
                        = Some (inner' ++ String c EmptyString)%string).
           { apply IH. exists inner', post'. auto. }
           injection Hq as ->. reflexivity.
    + apply throughLast_none in E. destruct (Ascii.eqb_spec a c) as [->|Hac].
      * split.
        -- intros H. injection H as <-. exists EmptyString, s. auto.
        -- intros (inner & post & H & Hpost & ->).
           destruct inner as [|b inner]; cbn in H; [reflexivity|].
           injection H as <- H.
           exfalso. rewrite H in E. clear - E.
           induction inner as [|x inner IHi]; cbn in E.
           ++ rewrite Ascii.eqb_refl in E. discriminate.
           ++ apply orb_false_elim in E as [_ E]. auto.
      * split; [discriminate|].
        intros (inner & post & H & Hpost & ->).
        destruct inner as [|b inner]; cbn in H; injection H as <- H; [congruence|].
        exfalso. rewrite H in E. clear - E.
        induction inner as [|x inner IHi]; cbn in E.
        -- rewrite Ascii.eqb_refl in E. discriminate.
        -- apply orb_false_elim in E as [_ E]. auto.
Qed.

(** X17.  The braces match of the proposer's second method is the part
    of the text from its first opening brace to its last closing brace
    after it: it is [m] exactly when the text is [pre ++ m ++ post] with
    [m] starting with an opening and ending with a closing brace, no
    opening brace in [pre] and no closing brace in [post]. *)
Theorem matchBraces_first_to_last (content m : string) :
  matchBraces content = Some m
  <-> exists pre inner post,
        content = (pre ++ String "{" (inner ++ String "}" post))%string
        /\ hasChar "{" pre = false
        /\ hasChar "}" post = false
        /\ m = String "{" (inner ++ String "}" EmptyString)%string.
Proof.
  unfold matchBraces. split.
  - destruct (fromFirst "{" content) as [[|open rest]|] eqn:E; try discriminate.
    apply fromFirst_spec in E as (pre & rest' & -> & Hpre & H).
    injection H as -> ->.
    destruct (throughLast "}" rest') as [p|] eqn:E2; [|discriminate].
    apply throughLast_spec in E2 as (inner & post & -> & Hpost & ->).
    intros H. injection H as <-. exists pre, inner, post. auto.
  - intros (pre & inner & post & -> & Hpre & Hpost & ->).
    rewrite (proj2 (fromFirst_spec "{" _ (String "{" (inner ++ String "}" post)))).
    + rewrite (proj2 (throughLast_spec "}" _ (inner ++ String "}" EmptyString))).
      * reflexivity.
      * exists inner, post. auto.
    + exists pre, (inner ++ String "}" post)%string. auto.
Qed.

(** ** The most frequent item *)

Lemma occurrences_app (x : string) (a b : list string) :
  occurrences x (a ++ b) = (occurrences x a + occurrences x b)%nat.
Proof. apply count_occ_app. Qed.

Lemma occurrences_single (x y : string) :
  occurrences x [y] = if String.eqb x y then 1%nat else 0%nat.
Proof.
  unfold occurrences. cbn. destruct (string_dec y x) as [->|H].
  - rewrite String.eqb_refl. reflexivity.
  - destruct (String.eqb_spec x y); [congruence | reflexivity].
Qed.

Lemma mostFrequentLoop_state (rest seen : list string)
    (frequency : list (string * nat)) (maxFreq : nat)
    (mostFrequent : option string) :
  Forall (fun x => inherited x = false) rest ->
  frequencyState seen frequency maxFreq mostFrequent ->
  exists frequency' maxFreq',
    frequencyState (seen ++ rest) frequency' maxFreq'
      (mostFrequentLoop rest frequency maxFreq mostFrequent).
Proof.
  revert seen frequency maxFreq mostFrequent.
  induction rest as [|item rest IH]; intros seen frequency maxFreq mostFrequent Hn Hst.
  - rewrite app_nil_r. exists frequency, maxFreq. exact Hst.
  - inversion Hn as [|? ? Hi Hn']; subst. cbn [mostFrequentLoop]. rewrite Hi.
    cbv zeta. destruct Hst as (Hc & Hmax & H0 & Hm).
    replace (seen ++ item :: rest) with ((seen ++ [item]) ++ rest)
      by (rewrite <- app_assoc; reflexivity).
    rewrite Hc.
    assert (Hc' : forall x, countOf x ((item, (occurrences item seen + 1)%nat) :: frequency)
                            = occurrences x (seen ++ [item])).
    { intros x. cbn [countOf]. rewrite occurrences_app, occurrences_single.
      destruct (String.eqb_spec x item) as [->|Hx].
      - reflexivity.
      - rewrite Hc. lia. }
    destruct (Nat.ltb_spec maxFreq (occurrences item seen + 1)) as [Hlt|Hge].
    + apply IH; [exact Hn'|]. split; [exact Hc'|]. split.
      * intros x. rewrite occurrences_app, occurrences_single.
        specialize (Hmax x). destruct (String.eqb_spec x item) as [->|Hx]; lia.
      * split; [intros H; destruct seen; discriminate|].
        intros _. exists item, seen, []. repeat split.
        -- rewrite occurrences_app, occurrences_single, String.eqb_refl. reflexivity.
        -- intros x Hx. rewrite occurrences_app, occurrences_single.
           specialize (Hmax x).
           destruct (String.eqb_spec x item) as [->|_]; [congruence | lia].
    + apply IH; [exact Hn'|]. split; [exact Hc'|]. split.
      * intros x. rewrite occurrences_app, occurrences_single.
        specialize (Hmax x). destruct (String.eqb_spec x item) as [->|Hx]; lia.
      * split; [intros H; destruct seen; discriminate|].
        intros _.
        assert (Hseen : seen <> []).
        { intros ->. specialize (H0 eq_refl). cbn in Hge. lia. }
        destruct (Hm Hseen) as (m & before & after & -> & -> & Hcount & Hlead).
        exists m, before, (after ++ [item]). repeat split; auto.
        rewrite <- app_assoc. reflexivity.
Qed.

(** X18.  On an array of strings none of which is a property name
    inherited from [Object.prototype], [getMostFrequent] returns
    [undefined] when the array is empty and otherwise an item [m] that no
    item occurs more often than; among the items that occur as often, [m]
    is the one that reached this number of occurrences first. *)
Theorem getMostFrequent_is_mode (arr : list string) :
  Forall (fun x => inherited x = false) arr ->
  (arr = [] -> getMostFrequent arr = None)
  /\ (arr <> [] ->
      exists m before after,
        getMostFrequent arr = Some m
        /\ arr = before ++ m :: after
        /\ (forall x, occurrences x arr <= occurrences m arr)%nat
        /\ occurrences m (before ++ [m]) = occurrences m arr
        /\ (forall x, x <> m ->
                      occurrences x (before ++ [m]) < occurrences m arr)%nat).
Proof.
  intros Hn. split; [intros ->; reflexivity|]. intros Hne.
  destruct (mostFrequentLoop_state arr [] [] 0 (hd_error arr) Hn)
    as (frequency & maxFreq & Hc & Hmax & _ & Hm).
  { split; [reflexivity|]. split; [intros x; cbn; lia|].
    split; [reflexivity | congruence]. }
  cbn [app] in *. destruct (Hm Hne) as (m & before & after & E & Harr & Hcount & Hlead).
  assert (Hmm : occurrences m arr = maxFreq).
  { apply Nat.le_antisymm; [apply Hmax|].
    rewrite <- Hcount, Harr.
    replace (before ++ m :: after) with ((before ++ [m]) ++ after)
      by (rewrite <- app_assoc; reflexivity).
    rewrite (occurrences_app m (before ++ [m]) after). lia. }
  exists m, before, after. unfold getMostFrequent. rewrite E.
  repeat split; auto.
  - intros x. rewrite Hmm. apply Hmax.
  - rewrite Hmm. exact Hcount.
  - intros x Hx. rewrite Hmm. apply Hlead. exact Hx.
Qed.

Lemma getMostFrequent_is_mode_witness :
  exists m before after,
    getMostFrequent ["light rain"; "clear sky"; "clear sky"] = Some m
    /\ ["light rain"; "clear sky"; "clear sky"] = before ++ m :: after
    /\ (forall x, occurrences x ["light rain"; "clear sky"; "clear sky"]
                  <= occurrences m ["light rain"; "clear sky"; "clear sky"])%nat
    /\ occurrences m (before ++ [m])
       = occurrences m ["light rain"; "clear sky"; "clear sky"]
    /\ (forall x, x <> m ->
                  occurrences x (before ++ [m])
                  < occurrences m ["light rain"; "clear sky"; "clear sky"])%nat.
Proof.
  apply (proj2 (getMostFrequent_is_mode ["light rain"; "clear sky"; "clear sky"]
                  ltac:(repeat constructor))).
  discriminate.
Defined.

(** ** The grouping by day *)

Lemma distinct_In (days : list Z) (day : Z) :
  In day (distinct days) <-> In day days.
Proof.
  induction days as [|d rest IH]; simpl; [tauto|].
  split.
  - intros [H|H]; [left; exact H|].
    apply filter_In in H. right. apply IH, H.
  - intros [H|H]; [left; exact H|].
    destruct (Z.eq_dec d day) as [E|Hne]; [left; exact E|].
    right. apply filter_In. split; [apply IH, H|].
    apply negb_true_iff, Z.eqb_neq. congruence.
Qed.

Lemma distinct_NoDup (days : list Z) : NoDup (distinct days).
Proof.
  induction days as [|d rest IH]; simpl; constructor.
  - rewrite filter_In. intros [_ H]. rewrite Z.eqb_refl in H. discriminate.
  - apply NoDup_filter, IH.
Qed.

Lemma distinct_snoc (days : list Z) (day : Z) :
  distinct (days ++ [day])
  = distinct days ++ (if in_dec Z.eq_dec day days then [] else [day]).
Proof.
  induction days as [|d rest IH]; simpl; [reflexivity|].
  rewrite IH, filter_app. f_equal. f_equal.
  destruct (Z.eq_dec d day) as [->|Hne].
  - destruct (in_dec Z.eq_dec day rest); simpl; [reflexivity|].
    rewrite Z.eqb_refl. reflexivity.
  - destruct (in_dec Z.eq_dec day rest); simpl; [reflexivity|].
    destruct (Z.eqb_spec day d); [congruence|reflexivity].
Qed.

Lemma daysOf_In (records : list ForecastItem) (key : Z) :
  In key (daysOf records) <-> recordsOfDay records key <> [].
Proof.
  unfold daysOf, recordsOfDay. rewrite distinct_In, in_flat_map. split.
  - intros [f [Hf Hk]] Hnil.
    assert (Hin : In f (filter (onDay key) records)).
    { apply filter_In. split; [exact Hf|]. unfold onDay.
      destruct (timeOf f) as [t|]; simpl in Hk; [|tauto].
      destruct Hk as [<-|[]]. apply Z.eqb_refl. }
    rewrite Hnil in Hin. exact Hin.
  - intros Hne. destruct (filter (onDay key) records) as [|f rest] eqn:E;
      [congruence|].
    assert (Hin : In f (filter (onDay key) records)) by (rewrite E; left; reflexivity).
    apply filter_In in Hin. destruct Hin as [Hf Hk]. exists f. split; [exact Hf|].
    unfold onDay in Hk. destruct (timeOf f) as [t|]; [|discriminate].
    left. apply Z.eqb_eq. exact Hk.
Qed.

Lemma daysOf_snoc (records : list ForecastItem) (forecast : ForecastItem)
    (time : Z) :
  timeOf forecast = Some time ->
  daysOf (records ++ [forecast])
  = daysOf records
    ++ (if in_dec Z.eq_dec (dayKey time) (daysOf records) then []
        else [dayKey time]).
Proof.
  intros Ht. unfold daysOf. rewrite flat_map_app. simpl. rewrite Ht. simpl.
  rewrite distinct_snoc. set (days := flat_map _ records).
  destruct (in_dec Z.eq_dec (dayKey time) days) as [Hin|Hout];
    destruct (in_dec Z.eq_dec (dayKey time) (distinct days)) as [Hin'|Hout'];
    try reflexivity.
  - exfalso. apply Hout'. apply distinct_In. exact Hin.
  - exfalso. apply Hout. exact (proj1 (distinct_In days _) Hin').
Qed.

Lemma recordsOfDay_snoc (records : list ForecastItem) (forecast : ForecastItem)
    (key : Z) :
  recordsOfDay (records ++ [forecast]) key
  = recordsOfDay records key ++ (if onDay key forecast then [forecast] else []).
Proof. unfold recordsOfDay. rewrite filter_app. reflexivity. Qed.

Lemma collect_snoc (records : list ForecastItem) (forecast : ForecastItem) :
  records <> [] ->
  collect (records ++ [forecast]) = pushForecast forecast (collect records).
Proof.
  intros Hne. destruct records as [|first rest]; [congruence|].
  unfold collect, pushForecast. simpl. rewrite !map_app. reflexivity.
Qed.

Lemma collect_single (forecast : ForecastItem) (time : Z) :
  timeOf forecast = Some time ->
  collect [forecast] = pushForecast forecast (emptyDay time).
Proof. intros Ht. unfold collect, pushForecast. simpl. rewrite Ht. reflexivity. Qed.

Lemma putForecast_present (key date : Z) (forecast : ForecastItem)
    (h : Z -> DayData) (keys : list Z) :
  NoDup keys -> In key keys ->
  putForecast key date forecast (map (fun k => (k, h k)) keys)
  = map (fun k => (k, if (k =? key)%Z then pushForecast forecast (h k) else h k))
      keys.
Proof.
  induction keys as [|k rest IH]; simpl; [tauto|].
  intros Hnd Hin. inversion Hnd as [|? ? Hout Hnd']; subst.
  destruct (Z.eqb_spec k key) as [->|Hne].
  - f_equal. apply map_ext_in. intros k Hk.
    destruct (Z.eqb_spec k key) as [->|_]; [contradiction|reflexivity].
  - f_equal. apply IH; [exact Hnd'|]. destruct Hin; [congruence|assumption].
Qed.

Lemma putForecast_absent (key date : Z) (forecast : ForecastItem)
    (h : Z -> DayData) (keys : list Z) :
  ~ In key keys ->
  putForecast key date forecast (map (fun k => (k, h k)) keys)
  = map (fun k => (k, h k)) keys
    ++ [(key, pushForecast forecast (emptyDay date))].
Proof.
  induction keys as [|k rest IH]; simpl; [reflexivity|].
  intros Hout. destruct (Z.eqb_spec k key) as [->|Hne]; [tauto|].
  f_equal. apply IH. tauto.
Qed.

Lemma onDay_own (forecast : ForecastItem) (time : Z) :
  timeOf forecast = Some time -> onDay (dayKey time) forecast = true.
Proof. intros Ht. unfold onDay. rewrite Ht. apply Z.eqb_refl. Qed.

Lemma onDay_other (forecast : ForecastItem) (time key : Z) :
  timeOf forecast = Some time -> key <> dayKey time ->
  onDay key forecast = false.
Proof.
  intros Ht Hne. unfold onDay. rewrite Ht. apply Z.eqb_neq. congruence.
Qed.

(** One turn of the grouping takes [grouped] of the records read so far to
    [grouped] of the records with the new one. *)
Lemma grouped_step (records : list ForecastItem) (forecast : ForecastItem)
    (time : Z) :
  timeOf forecast = Some time ->
  putForecast (dayKey time) time forecast (grouped records)
  = grouped (records ++ [forecast]).
Proof.
  intros Ht. unfold grouped. rewrite (daysOf_snoc records forecast time Ht).
  destruct (in_dec Z.eq_dec (dayKey time) (daysOf records)) as [Hin|Hout].
  - rewrite app_nil_r.
    rewrite putForecast_present; [|apply distinct_NoDup|exact Hin].
    apply map_ext_in. intros k Hk. f_equal. rewrite recordsOfDay_snoc.
    destruct (Z.eqb_spec k (dayKey time)) as [->|Hne].
    + rewrite (onDay_own forecast time Ht). apply eq_sym, collect_snoc.
      apply daysOf_In. exact Hin.
    + rewrite (onDay_other forecast time k Ht Hne), app_nil_r. reflexivity.
  - rewrite putForecast_absent by exact Hout. rewrite map_app. simpl.
    f_equal.
    + apply map_ext_in. intros k Hk. f_equal. rewrite recordsOfDay_snoc.
      assert (Hne : k <> dayKey time) by (intros ->; contradiction).
      rewrite (onDay_other forecast time k Ht Hne), app_nil_r. reflexivity.
    + f_equal. f_equal. rewrite recordsOfDay_snoc.
      rewrite (onDay_own forecast time Ht).
      assert (Hnil : recordsOfDay records (dayKey time) = []).
      { destruct (recordsOfDay records (dayKey time)) eqn:E; [reflexivity|].
        exfalso. apply Hout. apply daysOf_In. rewrite E. discriminate. }
      rewrite Hnil. simpl. apply eq_sym, collect_single. exact Ht.
Qed.

Lemma groupByDay_from (rest records : list ForecastItem) :
  groupByDay rest (grouped records)
  = if forallb hasTime rest then Return (grouped (records ++ rest))
    else Throw (Error "Invalid time value").
Proof.
  revert records. induction rest as [|forecast rest IH]; intros records; simpl.
  - rewrite app_nil_r. reflexivity.
  - unfold hasTime at 1. fold (timeOf forecast).
    destruct (timeOf forecast) as [time|] eqn:Ht; simpl; [|reflexivity].
    rewrite (grouped_step records forecast time Ht), IH, <- app_assoc.
    reflexivity.
Qed.

(** The grouping throws when a record has no valid date, and builds
    [grouped] otherwise. *)
Lemma groupByDay_grouped (records : list ForecastItem) :
  groupByDay records []
  = if forallb hasTime records then Return (grouped records)
    else Throw (Error "Invalid time value").
Proof. exact (groupByDay_from records []). Qed.

Lemma filter_map_comm (A B : Type) (f : B -> bool) (g : A -> B) (l : list A) :
  filter f (map g l) = map g (filter (fun a => f (g a)) l).
Proof.
  induction l as [|a rest IH]; simpl; [reflexivity|].
  rewrite IH. destruct (f (g a)); reflexivity.
Qed.

Lemma sliceTo_map (A B : Type) (g : A -> B) (l : list A) (end_ : Z) :
  sliceTo (map g l) end_ = map g (sliceTo l end_).
Proof.
  unfold sliceTo. rewrite length_map.
  destruct (end_ <? 0)%Z; apply firstn_map.
Qed.

Lemma nextDays_grouped (tomorrow : Z) (records : list ForecastItem) :
  nextDays tomorrow (grouped records)
  = map (dayForecast records)
      (firstn 3 (filter (startsFrom tomorrow) (daysOf records))).
Proof.
  unfold nextDays, grouped. rewrite filter_map_comm, firstn_map, map_map.
  reflexivity.
Qed.

(** X19. [processWeatherData] throws the error of an invalid date when a
    record of the list has no valid [dt]; otherwise it returns one
    forecast for each of the distinct UTC days of the records that
    [slice(0, days)] keeps, in the order of their first appearance, each
    computed from all the records of its day. *)
Theorem processWeatherData_by_day (records : list ForecastItem) (days : Z) :
  processWeatherData records days
  = if forallb hasTime records
    then Return (map (dayForecast records) (sliceTo (daysOf records) days))
    else Throw (Error "Invalid time value").
Proof.
  unfold processWeatherData. rewrite groupByDay_grouped.
  destruct (forallb hasTime records); [|reflexivity].
  unfold grouped. rewrite sliceTo_map, map_map. reflexivity.
Qed.

(** ** The range of the temperatures *)

Lemma fold_min_le (l : list R) (x : R) : fold_left Rmin l x <= x.
Proof.
  revert x. induction l as [|y rest IH]; intros x; simpl; [lra|].
  eapply Rle_trans; [apply IH|apply Rmin_l].
Qed.

Lemma fold_min_lower (l : list R) (x y : R) :
  In y l -> fold_left Rmin l x <= y.
Proof.
  revert x. induction l as [|z rest IH]; intros x; simpl; [tauto|].
  intros [->|Hin]; [|apply IH, Hin].
  eapply Rle_trans; [apply fold_min_le|apply Rmin_r].
Qed.

Lemma fold_min_In (l : list R) (x : R) : In (fold_left Rmin l x) (x :: l).
Proof.
  revert x. induction l as [|y rest IH]; intros x; simpl; [left; reflexivity|].
  destruct (IH (Rmin x y)) as [H|H]; [|right; right; exact H].
  rewrite <- H. unfold Rmin. destruct (Rle_dec x y); auto.
Qed.

Lemma fold_max_ge (l : list R) (x : R) : x <= fold_left Rmax l x.
Proof.
  revert x. induction l as [|y rest IH]; intros x; simpl; [lra|].
  eapply Rle_trans; [apply Rmax_l|apply IH].
Qed.

Lemma fold_max_upper (l : list R) (x y : R) :
  In y l -> y <= fold_left Rmax l x.
Proof.
  revert x. induction l as [|z rest IH]; intros x; simpl; [tauto|].
  intros [->|Hin]; [|apply IH, Hin].
  eapply Rle_trans; [apply Rmax_r|apply fold_max_ge].
Qed.

Lemma fold_max_In (l : list R) (x : R) : In (fold_left Rmax l x) (x :: l).
Proof.
  revert x. induction l as [|y rest IH]; intros x; simpl; [left; reflexivity|].
  destruct (IH (Rmax x y)) as [H|H]; [|right; right; exact H].
  rewrite <- H. unfold Rmax. destruct (Rle_dec x y); auto.
Qed.

(** X20. In the forecast object of a day that holds a temperature,
    [current] is the first temperature of the day, and [min] and [max] are
    two of the day's temperatures that bound all of them. *)
Theorem summarize_temperature_range (day : DayData) (first : R) (rest : list R) :
  day_temperatures day = first :: rest ->
  exists lo hi,
    forecast_temperature (summarize day)
    = mkTemperature (Fin lo) (Fin hi) (Some first)
    /\ In lo (first :: rest) /\ In hi (first :: rest)
    /\ forall t, In t (first :: rest) -> lo <= t <= hi.
Proof.
  intros Ht. exists (fold_left Rmin rest first), (fold_left Rmax rest first).
  split; [unfold summarize; rewrite Ht; reflexivity|].
  split; [apply fold_min_In|]. split; [apply fold_max_In|].
  intros t [<-|Hin].
  - split; [apply fold_min_le|apply fold_max_ge].
  - split; [apply fold_min_lower, Hin|apply fold_max_upper, Hin].
Qed.

Lemma summarize_temperature_range_witness :
  day_temperatures sampleDay = 10 :: [14; 12]
  /\ exists lo hi,
       forecast_temperature (summarize sampleDay)
       = mkTemperature (Fin lo) (Fin hi) (Some 10)
       /\ In lo (10 :: [14; 12]) /\ In hi (10 :: [14; 12])
       /\ forall t, In t (10 :: [14; 12]) -> lo <= t <= hi.
Proof.
  split; [reflexivity|].
  apply (summarize_temperature_range sampleDay 10 [14; 12]). reflexivity.
Defined.

(** ** The rounded means *)

Lemma mathRound_near (x : R) : - / 2 < IZR (mathRound x) - x <= / 2.
Proof.
  unfold mathRound. destruct (base_Int_part (x + / 2)) as [Hle Hgt]. lra.
Qed.

Lemma mean_nonempty (a : list R) :
  a <> [] -> mean a = Fin (total a / INR (length a)).
Proof.
  intros Hne. unfold mean, ndiv, total.
  assert (Hpos : 0 < INR (length a)).
  { apply lt_0_INR. destruct a; [congruence|simpl; lia]. }
  destruct (Reqb (INR (length a)) 0) eqn:E; [|reflexivity].
  apply Reqb_true in E. lra.
Qed.

(** X21. For a day that holds readings, [humidity] and [precipitation]
    are whole numbers within 1/2 of the mean of the day's readings (a half
    is rounded up), and [windSpeed] is a whole number of tenths within
    1/20 of the mean. *)
Theorem summarize_rounds_means (day : DayData) :
  day_humidity day <> [] -> day_windSpeed day <> [] ->
  day_precipitation day <> [] ->
  exists h w p : Z,
    forecast_humidity (summarize day) = Fin (IZR h)
    /\ - / 2 < IZR h - total (day_humidity day) / INR (length (day_humidity day))
       <= / 2
    /\ forecast_windSpeed (summarize day) = Fin (IZR w / 10)
    /\ - / 20
       < IZR w / 10 - total (day_windSpeed day) / INR (length (day_windSpeed day))
       <= / 20
    /\ forecast_precipitation (summarize day) = Fin (IZR p)
    /\ - / 2
       < IZR p
         - total (day_precipitation day) / INR (length (day_precipitation day))
       <= / 2.
Proof.
  intros Hh Hw Hp.
  set (mh := total (day_humidity day) / INR (length (day_humidity day))).
  set (mw := total (day_windSpeed day) / INR (length (day_windSpeed day))).
  set (mp := total (day_precipitation day)
             / INR (length (day_precipitation day))).
  exists (mathRound mh), (mathRound (mw * 10)), (mathRound mp).
  unfold summarize. simpl.
  rewrite (mean_nonempty _ Hh), (mean_nonempty _ Hw), (mean_nonempty _ Hp).
  fold mh mw mp. simpl.
  assert (E10 : Reqb 10 0 = false) by (apply Reqb_false; lra).
  unfold ndiv. rewrite E10.
  pose proof (mathRound_near mh). pose proof (mathRound_near (mw * 10)).
  pose proof (mathRound_near mp).
  repeat split; try reflexivity; lra.
Qed.

Lemma summarize_rounds_means_witness :
  exists h w p : Z,
    forecast_humidity (summarize sampleDay) = Fin (IZR h)
    /\ - / 2 < IZR h - total (day_humidity sampleDay)
                       / INR (length (day_humidity sampleDay))
       <= / 2
    /\ forecast_windSpeed (summarize sampleDay) = Fin (IZR w / 10)
    /\ - / 20
       < IZR w / 10 - total (day_windSpeed sampleDay)
                      / INR (length (day_windSpeed sampleDay))
       <= / 20
    /\ forecast_precipitation (summarize sampleDay) = Fin (IZR p)
    /\ - / 2
       < IZR p
         - total (day_precipitation sampleDay)
           / INR (length (day_precipitation sampleDay))
       <= / 2.
Proof.
  apply (summarize_rounds_means sampleDay); discriminate.
Defined.

(** ** The runs of [getWeatherData] *)

Lemma hasTime_bounded (forecast : ForecastItem) (dt : R) :
  item_dt forecast = Fin dt -> 0 <= dt <= 8640000000000 ->
  hasTime forecast = true.
Proof.
  intros Hdt Hb. unfold hasTime, timeOf, timeValue. rewrite Hdt. simpl.
  assert (E : Rleb (Rabs (dt * 1000)) 8640000000000000 = true).
  { apply Rleb_true. rewrite Rabs_right by lra. lra. }
  rewrite E. reflexivity.
Qed.

Lemma sampleRecords_hasTime : forallb hasTime sampleRecords = true.
Proof.
  unfold sampleRecords, forallb.
  rewrite !andb_true_iff. repeat split;
    eapply hasTime_bounded; try (simpl; reflexivity); lra.
Qed.

Lemma firstn_subset (A : Type) (n : nat) (l : list A) (x : A) :
  In x (firstn n l) -> In x l.
Proof.
  revert l. induction n as [|n IH]; intros [|y rest]; simpl; try tauto.
  intros [H|H]; [left; exact H|right; apply IH, H].
Qed.

Lemma dayForecast_ordered (records : list ForecastItem) (key : Z) :
  In key (daysOf records) -> orderedTemperature (dayForecast records key).
Proof.
  intros Hin. apply daysOf_In in Hin. unfold dayForecast.
  destruct (recordsOfDay records key) as [|f rest] eqn:E; [congruence|].
  exists (fold_left Rmin (map item_temp rest) (item_temp f)),
         (fold_left Rmax (map item_temp rest) (item_temp f)), (item_temp f).
  split; [reflexivity|]. split; [apply fold_min_le|apply fold_max_ge].
Qed.

Section WeatherRuns.
Context {W : Type}.
Variable WEATHER_API_KEY : option string.
Variable weather_get : WeatherRequest -> M W (option (list ForecastItem)).
Variable tomorrow : W -> Z.
Variables (startLat startLng : number).

Lemma getWeatherData_no_key (s : W) :
  keySet WEATHER_API_KEY = None ->
  getWeatherData WEATHER_API_KEY weather_get tomorrow startLat startLng s
  = (s, Return []).
Proof.
  intros Hk. unfold getWeatherData, tryCatch. rewrite Hk. reflexivity.
Qed.

Lemma getWeatherData_run (appid : string) (s : W) :
  keySet WEATHER_API_KEY = Some appid ->
  getWeatherData WEATHER_API_KEY weather_get tomorrow startLat startLng s
  = match weather_get (mkWeatherRequest startLat startLng appid) s with
    | (s', Return (Some records)) =>
        if forallb hasTime records
        then (s', Return (map (dayForecast records)
                            (firstn 3 (filter (startsFrom (tomorrow s'))
                                         (daysOf records)))))
        else (s', Return [])
    | (s', _) => (s', Return [])
    end.
Proof.
  intros Hk. unfold getWeatherData, tryCatch, bind. rewrite Hk.
  destruct (weather_get _ s) as [s' [[records|]|e]]; try reflexivity.
  unfold liftResult, nextMidnight, ret. rewrite groupByDay_grouped.
  destruct (forallb hasTime records); [|reflexivity].
  rewrite nextDays_grouped. reflexivity.
Qed.
End WeatherRuns.

(** X22. When the key is set and the service replies with a list whose
    records all have a valid date, [getWeatherData] returns the forecasts
    of the first three distinct UTC days of the list, in the order of
    their first appearance, among those that start at or after the
    clock's next local midnight; each is computed from all the records of
    its day. *)
Theorem getWeatherData_next_three_days (W : Type)
    (WEATHER_API_KEY : option string)
    (weather_get : WeatherRequest -> M W (option (list ForecastItem)))
    (tomorrow : W -> Z) (startLat startLng : number) (appid : string)
    (records : list ForecastItem) (s s' : W) :
  keySet WEATHER_API_KEY = Some appid ->
  weather_get (mkWeatherRequest startLat startLng appid) s
  = (s', Return (Some records)) ->
  forallb hasTime records = true ->
  getWeatherData WEATHER_API_KEY weather_get tomorrow startLat startLng s
  = (s', Return (map (dayForecast records)
                   (firstn 3 (filter (startsFrom (tomorrow s'))
                                (daysOf records))))).
Proof.
  intros Hk Hget Hvalid.
  rewrite (getWeatherData_run _ _ _ _ _ appid s Hk), Hget, Hvalid.
  reflexivity.
Qed.

Lemma getWeatherData_next_three_days_witness :
  getWeatherData (Some "key") sampleWeather sampleTomorrow (Fin 41) (Fin 2) tt
  = (tt, Return (map (dayForecast sampleRecords)
                   (firstn 3 (filter (startsFrom (sampleTomorrow tt))
                                (daysOf sampleRecords))))).
Proof.
  apply (getWeatherData_next_three_days unit (Some "key") sampleWeather
           sampleTomorrow (Fin 41) (Fin 2) "key" sampleRecords tt tt).
  - reflexivity.
  - reflexivity.
  - exact sampleRecords_hasTime.
Defined.

(** X23. [getWeatherData] never throws: whatever the key, the service and
    the clock, it returns three forecasts at most, and in each the
    temperatures are real numbers with min <= current <= max. *)
Theorem getWeatherData_always_returns (W : Type)
    (WEATHER_API_KEY : option string)
    (weather_get : WeatherRequest -> M W (option (list ForecastItem)))
    (tomorrow : W -> Z) (startLat startLng : number) (s : W) :
  exists forecasts,
    snd (getWeatherData WEATHER_API_KEY weather_get tomorrow startLat startLng s)
    = Return forecasts
    /\ (length forecasts <= 3)%nat
    /\ Forall orderedTemperature forecasts.
Proof.
  destruct (keySet WEATHER_API_KEY) as [appid|] eqn:Hk.
  - rewrite (getWeatherData_run _ _ _ _ _ appid s Hk).
    destruct (weather_get _ s) as [s' [[records|]|e]];
      try (exists []; simpl; repeat split; [lia|constructor]).
    destruct (forallb hasTime records);
      [|exists []; simpl; repeat split; [lia|constructor]].
    eexists. split; [reflexivity|]. split.
    + rewrite length_map. apply firstn_le_length.
    + apply Forall_forall. intros fc Hin. apply in_map_iff in Hin.
      destruct Hin as [key [<- Hkey]]. apply dayForecast_ordered.
      apply firstn_subset in Hkey. apply filter_In in Hkey. apply Hkey.
  - rewrite (getWeatherData_no_key _ _ _ _ _ s Hk).
    exists []. simpl. repeat split; [lia|constructor].
Qed.

(** X24. The forecast is empty when the key is missing or empty, and then
    the world is left as it was; it is empty too when the request to the
    service fails, when the reply has no list, and when a single record
    of the list has no valid date. *)
Theorem getWeatherData_empty_forecast (W : Type)
    (WEATHER_API_KEY : option string)
    (weather_get : WeatherRequest -> M W (option (list ForecastItem)))
    (tomorrow : W -> Z) (startLat startLng : number) (s : W) :
  (keySet WEATHER_API_KEY = None
   \/ exists appid,
        keySet WEATHER_API_KEY = Some appid
        /\ noForecast (weather_get (mkWeatherRequest startLat startLng appid) s)) ->
  snd (getWeatherData WEATHER_API_KEY weather_get tomorrow startLat startLng s)
  = Return []
  /\ (keySet WEATHER_API_KEY = None ->
      fst (getWeatherData WEATHER_API_KEY weather_get tomorrow
             startLat startLng s) = s).
Proof.
  intros [Hk|[appid [Hk Hno]]].
  - rewrite (getWeatherData_no_key _ _ _ _ _ s Hk). split; reflexivity.
  - split; [|congruence].
    rewrite (getWeatherData_run _ _ _ _ _ appid s Hk).
    destruct (weather_get _ s) as [s' [[records|]|e]]; try reflexivity.
    destruct Hno as [[e He]|[Hnone|[records' [Hr Hbad]]]]; simpl in *;
      try discriminate.
    injection Hr as <-. rewrite Hbad. reflexivity.
Qed.

Lemma getWeatherData_empty_forecast_witness :
  snd (getWeatherData (Some "") sampleWeather sampleTomorrow (Fin 41) (Fin 2) tt)
  = Return []
  /\ (keySet (Some "") = None ->
      fst (getWeatherData (Some "") sampleWeather sampleTomorrow
             (Fin 41) (Fin 2) tt) = tt).
Proof.
  apply (getWeatherData_empty_forecast unit (Some "") sampleWeather
           sampleTomorrow (Fin 41) (Fin 2) tt).
  left. reflexivity.
Defined.

(** ** The handler *)

Lemma getWeatherData_returns (W : Type) (WEATHER_API_KEY : option string)
    (weather_get : WeatherRequest -> M W (option (list ForecastItem)))
    (tomorrow : W -> Z) (startLat startLng : number) (s : W) :
  exists s' forecasts,
    getWeatherData WEATHER_API_KEY weather_get tomorrow startLat startLng s
    = (s', Return forecasts).
Proof.
  destruct (keySet WEATHER_API_KEY) as [appid|] eqn:Hk.
  - rewrite (getWeatherData_run _ _ _ _ _ appid s Hk).
    destruct (weather_get _ s) as [s' [[records|]|e]];
      try (exists s', []; reflexivity).
    destruct (forallb hasTime records); eexists; eexists; reflexivity.
  - rewrite (getWeatherData_no_key _ _ _ _ _ s Hk).
    exists s, []. reflexivity.
Qed.

(** The conversion to a text throws exactly on the values that hold an
    object with a [toString] of its own, and then the [TypeError] of the
    conversion. *)
Lemma toText_outcome (numberText : number -> string) :
  forall v,
    if holdsToString v then toText numberText v = Throw noPrimitive
    else exists text, toText numberText v = Return text.
Proof.
  fix IH 1. intros [| |b|n|s|items|props]; cbn [holdsToString];
    try (eexists; reflexivity).
  - cbn [toText]. induction items as [|x rest IHrest].
    + eexists. reflexivity.
    + cbn [existsb]. pose proof (IH x) as Hx.
      destruct (holdsToString x) eqn:Ex; cbn [orb].
      * destruct x; try discriminate Ex; rewrite Hx; reflexivity.
      * assert (Helem : exists text,
                   match x with
                   | JUndefined | JNull => Return EmptyString
                   | _ => toText numberText x
                   end = Return text).
        { destruct x; try exact Hx; eexists; reflexivity. }
        destruct Helem as [text Htext]. rewrite Htext.
        destruct rest as [|y rest']; [eexists; reflexivity|].
        destruct (existsb holdsToString (y :: rest')).
        -- rewrite IHrest. reflexivity.
        -- destruct IHrest as [texts Htexts]. rewrite Htexts.
           eexists. reflexivity.
  - cbn [toText]. unfold hasOwn.
    destruct (existsb _ props); [reflexivity|eexists; reflexivity].
Qed.

Lemma toNumber_outcome (parse : string -> number) (numberText : number -> string)
    (v : jsval) :
  if holdsToString v then toNumber parse numberText v = Throw noPrimitive
  else exists n, toNumber parse numberText v = Return n.
Proof.
  pose proof (toText_outcome numberText v) as Ht.
  destruct v as [| |b|n|s|items|props]; cbn [holdsToString] in *;
    try (eexists; reflexivity); unfold toNumber.
  - destruct (existsb holdsToString items).
    + rewrite Ht. reflexivity.
    + destruct Ht as [text Ht]. rewrite Ht. eexists. reflexivity.
  - destruct (existsb _ props).
    + rewrite Ht. reflexivity.
    + destruct Ht as [text Ht]. rewrite Ht. eexists. reflexivity.
Qed.

Section HandlerRuns.
Context {W : Type}.
Variable setTimeout : nat -> W -> W.
Variable groq_create : Prompt -> M W (option string).
Variable JSON_parse : string -> option jsval.
Variable snap_post : SnapRequest -> M W (option (list SnapItem)).
Variable directions_post : DirectionsRequest -> M W (option (list Feature)).
Variable WEATHER_API_KEY : option string.
Variable weather_get : WeatherRequest -> M W (option (list ForecastItem)).
Variable tomorrow : W -> Z.
Variable parse : string -> number.
Variable numberText : number -> string.

Let handler : jsval -> string -> M W Response :=
  planTrip setTimeout groq_create JSON_parse snap_post directions_post
    WEATHER_API_KEY weather_get tomorrow parse numberText.
Let route : string -> string -> M W RouteResult.t :=
  generateRoute setTimeout groq_create JSON_parse snap_post directions_post.
Let weather : number -> number -> M W (list DayForecast) :=
  getWeatherData WEATHER_API_KEY weather_get tomorrow.
Let missing : jsval -> result bool := locationMissing parse numberText.
Let numberOf : jsval -> result number := toNumber parse numberText.

(** What the test of line 30 does: it throws on a truthy location whose
    [lat], or whose [lng] when [lat] gives a number that is not falsy,
    has no text; it answers [false] only when both give a number. *)
Lemma locationMissing_throws (loc : jsval) (e : exn) :
  missing loc = Throw e ->
  e = noPrimitive /\ truthy loc = true
  /\ (holdsToString (prop loc "lat") = true
      \/ holdsToString (prop loc "lng") = true).
Proof.
  unfold missing, locationMissing, noNumber.
  destruct (truthy loc); cbn [negb]; [|discriminate].
  pose proof (toNumber_outcome parse numberText (prop loc "lat")) as Hla.
  pose proof (toNumber_outcome parse numberText (prop loc "lng")) as Hlo.
  destruct (holdsToString (prop loc "lat")).
  - rewrite Hla. intros [= <-]. auto.
  - destruct Hla as [la Hla]. rewrite Hla.
    destruct (negb (truthy (JNum la))); [discriminate|].
    destruct (holdsToString (prop loc "lng")).
    + rewrite Hlo. intros [= <-]. auto.
    + destruct Hlo as [lo Hlo]. rewrite Hlo. discriminate.
Qed.

Lemma locationMissing_unreadable_lat (loc : jsval) :
  truthy loc = true -> holdsToString (prop loc "lat") = true ->
  missing loc = Throw noPrimitive.
Proof.
  intros Ht Hh. unfold missing, locationMissing, noNumber. rewrite Ht.
  cbn [negb].
  pose proof (toNumber_outcome parse numberText (prop loc "lat")) as Hla.
  rewrite Hh in Hla. rewrite Hla. reflexivity.
Qed.

Lemma locationMissing_false (loc : jsval) :
  missing loc = Return false ->
  exists lat lng,
    numberOf (prop loc "lat") = Return lat /\ numberOf (prop loc "lng") = Return lng.
Proof.
  unfold missing, numberOf, locationMissing, noNumber.
  destruct (truthy loc); cbn [negb]; [|discriminate].
  destruct (toNumber parse numberText (prop loc "lat")) as [la|e];
    [|discriminate].
  destruct (negb (truthy (JNum la))); [discriminate|].
  destruct (toNumber parse numberText (prop loc "lng")) as [lo|e];
    [|discriminate].
  intros _. exists la, lo. split; reflexivity.
Qed.

Lemma planTrip_unparsed (location : jsval) (tripType : string) (s : W) :
  locationOf JSON_parse location = None ->
  handler location tripType s = (s, Return invalidFormat).
Proof.
  intros Hp. unfold handler, planTrip. fold (locationOf JSON_parse location).
  rewrite Hp. reflexivity.
Qed.

Lemma planTrip_refused (location loc : jsval) (tripType : string) (s : W) :
  locationOf JSON_parse location = Some loc -> missing loc = Return true ->
  handler location tripType s = (s, Return locationRequired).
Proof.
  intros Hp Hr. unfold handler, planTrip. fold (locationOf JSON_parse location).
  rewrite Hp. unfold bind, liftResult. fold missing. rewrite Hr. reflexivity.
Qed.

Lemma planTrip_thrown (location loc : jsval) (tripType : string) (s : W)
    (e : exn) :
  locationOf JSON_parse location = Some loc -> missing loc = Throw e ->
  handler location tripType s = (s, Throw e).
Proof.
  intros Hp Hr. unfold handler, planTrip. fold (locationOf JSON_parse location).
  rewrite Hp. unfold bind, liftResult. fold missing. rewrite Hr. reflexivity.
Qed.

Lemma planTrip_planned (location loc : jsval) (tripType : string) (s : W)
    (lat lng : number) :
  locationOf JSON_parse location = Some loc -> missing loc = Return false ->
  numberOf (prop loc "lat") = Return lat -> numberOf (prop loc "lng") = Return lng ->
  handler location tripType s
  = match toText numberText (prop loc "name") with
    | Throw _ => (s, Return planningFailed)
    | Return name =>
        match route name tripType s with
        | (s1, Return routeData) =>
            match weather lat lng s1 with
            | (s2, Return weatherData) =>
                (s2, Return (mkResponse 200 (Success routeData weatherData)))
            | (s2, Throw _) => (s2, Return planningFailed)
            end
        | (s1, Throw _) => (s1, Return planningFailed)
        end
    end.
Proof.
  intros Hp Hr Hla Hlo. unfold handler, planTrip.
  fold (locationOf JSON_parse location). rewrite Hp.
  unfold bind at 1. unfold liftResult at 1. fold missing. rewrite Hr.
  unfold tryCatch, generateRouteOn. unfold bind at 1. unfold bind at 1.
  unfold liftResult at 1.
  destruct (toText numberText (prop loc "name")) as [name|e]; [|reflexivity].
  fold route. destruct (route name tripType s) as [s1 [routeData|e]];
    [|reflexivity].
  unfold bind at 1. unfold liftResult at 1. fold numberOf. rewrite Hla.
  unfold bind at 1. unfold liftResult at 1. fold numberOf. rewrite Hlo.
  unfold bind. fold weather.
  destruct (weather lat lng s1) as [s2 [weatherData|e]]; reflexivity.
Qed.

(** The ways a run of the handler ends. *)
Lemma planTrip_outcomes (location : jsval) (tripType : string) (s : W) :
  (handler location tripType s = (s, Return invalidFormat)
   /\ locationOf JSON_parse location = None)
  \/ (exists loc, locationOf JSON_parse location = Some loc
                  /\ missing loc = Return true
                  /\ handler location tripType s = (s, Return locationRequired))
  \/ (exists loc e, locationOf JSON_parse location = Some loc
                    /\ missing loc = Throw e
                    /\ handler location tripType s = (s, Throw e))
  \/ (exists loc, locationOf JSON_parse location = Some loc
                  /\ missing loc = Return false
                  /\ ((exists s1,
                         handler location tripType s
                         = (s1, Return planningFailed))
                      \/ (exists s2 routeData weatherData,
                            handler location tripType s
                            = (s2, Return (mkResponse 200
                                             (Success routeData weatherData)))))).
Proof.
  destruct (locationOf JSON_parse location) as [loc|] eqn:Hp.
  - destruct (missing loc) as [[|]|e] eqn:Hr.
    + right. left. exists loc. split; [reflexivity|split; [exact Hr|]].
      apply (planTrip_refused location loc tripType s Hp Hr).
    + right. right. right. exists loc. split; [reflexivity|split; [exact Hr|]].
      destruct (locationMissing_false loc Hr) as [lat [lng [Hla Hlo]]].
      rewrite (planTrip_planned location loc tripType s lat lng Hp Hr Hla Hlo).
      destruct (toText numberText (prop loc "name")) as [name|e];
        [|left; exists s; reflexivity].
      destruct (route name tripType s) as [s1 [routeData|e]];
        [|left; exists s1; reflexivity].
      destruct (getWeatherData_returns W WEATHER_API_KEY weather_get tomorrow
                  lat lng s1) as [s2 [weatherData Hw]].
      fold weather in Hw. rewrite Hw. right. exists s2, routeData, weatherData.
      reflexivity.
    + right. right. left. exists loc, e.
      split; [reflexivity|split; [exact Hr|]].
      apply (planTrip_thrown location loc tripType s e Hp Hr).
  - left. split; [|reflexivity]. apply (planTrip_unparsed location tripType s Hp).
Qed.
End HandlerRuns.

Lemma locationMissing_numbers (parse : string -> number)
    (numberText : number -> string) (props : list (string * jsval))
    (la lo : number) :
  lookup "lat" props = JNum la -> lookup "lng" props = JNum lo ->
  exists refused,
    locationMissing parse numberText (JObj props) = Return refused
    /\ (refused = true <-> zeroOrNaN la \/ zeroOrNaN lo).
Proof.
  intros Hla Hlo. unfold locationMissing, noNumber, zeroOrNaN. simpl.
  rewrite Hla, Hlo. simpl.
  destruct la as [|a]; [simpl; eexists; split; [reflexivity|]; split; auto|].
  simpl. rewrite negb_involutive.
  destruct (Reqb a 0) eqn:Ea.
  - eexists. split; [reflexivity|]. apply Reqb_true in Ea. subst a.
    split; auto.
  - apply Reqb_false in Ea.
    destruct lo as [|o]; [simpl; eexists; split; [reflexivity|]; split; auto|].
    simpl. rewrite negb_involutive.
    destruct (Reqb o 0) eqn:Eo; eexists; (split; [reflexivity|]).
    + apply Reqb_true in Eo. subst o. split; auto.
    + apply Reqb_false in Eo. split; [discriminate|].
      intros [[H|H]|[H|H]]; try discriminate; injection H as ->; lra.
Qed.

(** X25. [planTrip] answers 400 with a message and without touching any
    service, or 500 with [Failed to plan trip], or 200 with a route and a
    forecast, or it throws.  What it throws is the [TypeError] of the
    test of line 30, which is outside the [try]: it is thrown before any
    service is touched, and only for a location whose [lat] or [lng] is
    an object with a property [toString] of its own, or an array that
    holds one; and it is thrown whenever the [lat] of a truthy location is
    such a value. *)
Theorem planTrip_answers_or_type_error (W : Type)
    (setTimeout : nat -> W -> W)
    (groq_create : Prompt -> M W (option string))
    (JSON_parse : string -> option jsval)
    (snap_post : SnapRequest -> M W (option (list SnapItem)))
    (directions_post : DirectionsRequest -> M W (option (list Feature)))
    (WEATHER_API_KEY : option string)
    (weather_get : WeatherRequest -> M W (option (list ForecastItem)))
    (tomorrow : W -> Z) (parse : string -> number) (text : number -> string)
    (location : jsval) (tripType : string) (s : W) :
  let run := planTrip setTimeout groq_create JSON_parse snap_post
               directions_post WEATHER_API_KEY weather_get tomorrow parse text
               location tripType s in
  ((exists response,
      snd run = Return response
      /\ ((fst run = s
           /\ (response = invalidFormat \/ response = locationRequired))
          \/ response = planningFailed
          \/ exists routeData weatherData,
               response = mkResponse 200 (Success routeData weatherData)))
   \/ (run = (s, Throw noPrimitive)
       /\ exists loc,
            locationOf JSON_parse location = Some loc /\ truthy loc = true
            /\ (holdsToString (prop loc "lat") = true
                \/ holdsToString (prop loc "lng") = true)))
  /\ (forall loc,
        locationOf JSON_parse location = Some loc -> truthy loc = true ->
        holdsToString (prop loc "lat") = true ->
        run = (s, Throw noPrimitive)).
Proof.
  intros run. subst run. split.
  - destruct (planTrip_outcomes setTimeout groq_create JSON_parse snap_post
                directions_post WEATHER_API_KEY weather_get tomorrow parse text
                location tripType s)
      as [[H _]|[[loc [_ [_ H]]]|[[loc [e [Hp [Hm H]]]]
          |[loc [_ [_ [[s1 H]|[s2 [r [w H]]]]]]]]]];
      rewrite H; simpl.
    + left. exists invalidFormat. split; [reflexivity|]. left. auto.
    + left. exists locationRequired. split; [reflexivity|]. left. auto.
    + right.
      destruct (locationMissing_throws parse text loc e Hm) as [-> [Ht Hh]].
      split; [reflexivity|]. exists loc. auto.
    + left. exists planningFailed. split; [reflexivity|]. right. left.
      reflexivity.
    + left. eexists. split; [reflexivity|]. right. right. eauto.
  - intros loc Hp Ht Hh.
    apply (planTrip_thrown setTimeout groq_create JSON_parse snap_post
             directions_post WEATHER_API_KEY weather_get tomorrow parse text
             location loc tripType s noPrimitive Hp).
    apply locationMissing_unreadable_lat; assumption.
Qed.

Lemma planTrip_answers_or_type_error_witness :
  locationOf noJson unreadableLat = Some unreadableLat
  /\ truthy unreadableLat = true
  /\ holdsToString (prop unreadableLat "lat") = true
  /\ samplePlanTrip unreadableLat "hiking" tt = (tt, Throw noPrimitive).
Proof.
  split; [reflexivity|]. split; [reflexivity|]. split; [reflexivity|].
  apply (proj2 (planTrip_answers_or_type_error unit silentTimeout silentModel
                  noJson silentSnap silentDirections (Some "key") sampleWeather
                  sampleTomorrow noParse noText unreadableLat "hiking" tt)
           unreadableLat); reflexivity.
Defined.

(** X26. For a location object whose [lat] and [lng] are numbers, the
    handler answers 400 [Location with lat/lng is required], without
    touching any service, exactly when one of the two is 0 or [NaN]: a
    place on the equator or on the prime meridian is refused. *)
Theorem planTrip_rejects_zero_coordinates (W : Type)
    (setTimeout : nat -> W -> W)
    (groq_create : Prompt -> M W (option string))
    (JSON_parse : string -> option jsval)
    (snap_post : SnapRequest -> M W (option (list SnapItem)))
    (directions_post : DirectionsRequest -> M W (option (list Feature)))
    (WEATHER_API_KEY : option string)
    (weather_get : WeatherRequest -> M W (option (list ForecastItem)))
    (tomorrow : W -> Z) (parse : string -> number) (text : number -> string)
    (props : list (string * jsval)) (la lo : number)
    (tripType : string) (s : W) :
  lookup "lat" props = JNum la -> lookup "lng" props = JNum lo ->
  (snd (planTrip setTimeout groq_create JSON_parse snap_post directions_post
          WEATHER_API_KEY weather_get tomorrow parse text
          (JObj props) tripType s)
   = Return locationRequired
   <-> zeroOrNaN la \/ zeroOrNaN lo)
  /\ (zeroOrNaN la \/ zeroOrNaN lo ->
      fst (planTrip setTimeout groq_create JSON_parse snap_post directions_post
             WEATHER_API_KEY weather_get tomorrow parse text
             (JObj props) tripType s) = s).
Proof.
  intros Hla Hlo.
  destruct (locationMissing_numbers parse text props la lo Hla Hlo)
    as [refused [Hm Hiff]].
  destruct (planTrip_outcomes setTimeout groq_create JSON_parse snap_post
              directions_post WEATHER_API_KEY weather_get tomorrow parse text
              (JObj props) tripType s)
    as [[_ Hp]|[[loc [Hp [Hr H]]]|[[loc [e [Hp [Hr H]]]]
        |[loc [Hp [Hr [[s1 H]|[s2 [r [w H]]]]]]]]]];
    simpl in Hp; try discriminate; injection Hp as <-;
    rewrite Hm in Hr; try discriminate; injection Hr as ->; rewrite H; simpl.
  - split; [split; [intros _; apply Hiff; reflexivity|reflexivity]|reflexivity].
  - split.
    + split; [discriminate|]. intros Hz. apply Hiff in Hz. discriminate.
    + intros Hz. apply Hiff in Hz. discriminate.
  - split.
    + split; [discriminate|]. intros Hz. apply Hiff in Hz. discriminate.
    + intros Hz. apply Hiff in Hz. discriminate.
Qed.

Lemma planTrip_rejects_zero_coordinates_witness :
  (snd (samplePlanTrip greenwich "hiking" tt) = Return locationRequired
   <-> zeroOrNaN (Fin 51) \/ zeroOrNaN (Fin 0))
  /\ (zeroOrNaN (Fin 51) \/ zeroOrNaN (Fin 0) ->
      fst (samplePlanTrip greenwich "hiking" tt) = tt).
Proof.
  apply (planTrip_rejects_zero_coordinates unit silentTimeout silentModel noJson
           silentSnap silentDirections (Some "key") sampleWeather sampleTomorrow
           noParse noText
           [("name", JStr "Greenwich"); ("lat", JNum (Fin 51));
            ("lng", JNum (Fin 0))] (Fin 51) (Fin 0) "hiking" tt);
    reflexivity.
Defined.

(** X27. For a location the handler accepts, the answer follows the
    route generation alone: 200 with the route and the forecast of
    [getWeatherData] when [generateRoute], called with the name of the
    location, returns, and 500 when it throws, in which case the weather
    is not asked.  The weather cannot fail the request.  A name that has
    no text makes [generateRoute] throw at its first statement: the
    answer is 500 and no service is touched. *)
Theorem planTrip_follows_generateRoute (W : Type)
    (setTimeout : nat -> W -> W)
    (groq_create : Prompt -> M W (option string))
    (JSON_parse : string -> option jsval)
    (snap_post : SnapRequest -> M W (option (list SnapItem)))
    (directions_post : DirectionsRequest -> M W (option (list Feature)))
    (WEATHER_API_KEY : option string)
    (weather_get : WeatherRequest -> M W (option (list ForecastItem)))
    (tomorrow : W -> Z) (parse : string -> number) (text : number -> string)
    (location loc : jsval) (tripType : string) (s : W) :
  locationOf JSON_parse location = Some loc ->
  locationMissing parse text loc = Return false ->
  let run := planTrip setTimeout groq_create JSON_parse snap_post
               directions_post WEATHER_API_KEY weather_get tomorrow parse text
               location tripType s in
  exists lat lng,
    toNumber parse text (prop loc "lat") = Return lat
    /\ toNumber parse text (prop loc "lng") = Return lng
    /\ match toText text (prop loc "name") with
       | Throw _ => run = (s, Return planningFailed)
       | Return name =>
           let routed := generateRoute setTimeout groq_create JSON_parse
                           snap_post directions_post name tripType s in
           let forecast := getWeatherData WEATHER_API_KEY weather_get tomorrow
                             lat lng (fst routed) in
           match snd routed with
           | Return routeData =>
               exists weatherData,
                 snd forecast = Return weatherData
                 /\ run = (fst forecast,
                           Return (mkResponse 200
                                     (Success routeData weatherData)))
           | Throw _ => run = (fst routed, Return planningFailed)
           end
       end.
Proof.
  intros Hp Hr run. subst run.
  destruct (locationMissing_false parse text loc Hr) as [lat [lng [Hla Hlo]]].
  exists lat, lng. split; [exact Hla|]. split; [exact Hlo|].
  rewrite (planTrip_planned setTimeout groq_create JSON_parse snap_post
             directions_post WEATHER_API_KEY weather_get tomorrow parse text
             location loc tripType s lat lng Hp Hr Hla Hlo).
  destruct (toText text (prop loc "name")) as [name|e]; [|reflexivity].
  cbv zeta.
  destruct (generateRoute _ _ _ _ _ name tripType s)
    as [s1 [routeData|e]]; simpl; [|reflexivity].
  destruct (getWeatherData_returns W WEATHER_API_KEY weather_get tomorrow
              lat lng s1) as [s2 [weatherData Hw]].
  rewrite Hw. exists weatherData. split; reflexivity.
Qed.

Lemma barcelona_accepted : locationMissing noParse noText barcelona = Return false.
Proof.
  unfold locationMissing, noNumber, barcelona. simpl.
  assert (E41 : Reqb 41 0 = false) by (apply Reqb_false; lra).
  assert (E2 : Reqb 2 0 = false) by (apply Reqb_false; lra).
  rewrite E41, E2. reflexivity.
Qed.

Lemma silent_route_fails :
  generateRoute silentTimeout silentModel noJson silentSnap silentDirections
    "Barcelona" "hiking" tt
  = (tt, Throw (Error "AI failed to generate realistic waypoints after multiple attempts.")).
Proof. vm_compute. reflexivity. Qed.

Lemma planTrip_follows_generateRoute_witness :
  samplePlanTrip barcelona "hiking" tt = (tt, Return planningFailed).
Proof.
  destruct (planTrip_follows_generateRoute unit silentTimeout silentModel
              noJson silentSnap silentDirections (Some "key") sampleWeather
              sampleTomorrow noParse noText barcelona barcelona "hiking" tt
              eq_refl barcelona_accepted) as [lat [lng [_ [_ H]]]].
  change (toText noText (prop barcelona "name")) with (@Return string "Barcelona")
    in H.
  cbv iota zeta in H. rewrite silent_route_fails in H. exact H.
Defined.

(** ** The simulated route *)

Lemma draws_succ (W : Type) (random : W -> W * R) (n : nat) (s : W) :
  draws random (S n) s = draws random n (fst (random s)).
Proof. reflexivity. Qed.

Lemma Math_random_run (W : Type) (random : W -> W * R) (s : W) :
  Math_random random s = (fst (random s), Return (snd (random s))).
Proof. unfold Math_random. destruct (random s). reflexivity. Qed.

Lemma offset_bound (c rc : R) :
  -1 <= c <= 1 -> 0 <= rc <= 1.2 ->
  - 0.0096 <= c * (0.008 * rc) <= 0.0096.
Proof. intros Hc Hrc. nra. Qed.

Section SimulationRuns.
Context {W : Type}.
Variable random : W -> W * R.

Lemma hikingLoop_run (center : number * number) (remaining : nat) :
  forall (i : nat) (trailDirection currentAngle : R)
         (points : list SimulatedPoint) (s : W),
  exists new,
    hikingLoop random remaining i center trailDirection currentAngle points s
    = (draws random remaining s, Return (points ++ new))
    /\ length new = remaining
    /\ forall j p, nth_error new j = Some p ->
         simulated_day p = 1%nat /\ simulated_order p = (i + j)%nat
         /\ (unitInterval random ->
             forall lat lng, center = (Fin lat, Fin lng) ->
             nearCenter lat lng p).
Proof.
  induction remaining as [|remaining IH];
    intros i trailDirection currentAngle points s.
  - exists []. simpl. unfold ret. rewrite app_nil_r.
    repeat split; try reflexivity; destruct j; discriminate.
  - cbn [hikingLoop]. cbv zeta.
    match goal with
    | |- context [let (_, _) := ?e in _] => destruct e as [ac rc] eqn:Eseg
    end.
    assert (Hrc : 0 <= rc <= 1.2).
    { pose proof (pos_INR i) as Hi.
      destruct (i <? 8)%nat eqn:E8.
      - apply Nat.ltb_lt in E8. apply lt_INR in E8. simpl in E8.
        injection Eseg as _ <-. lra.
      - destruct (i <? 15)%nat; [injection Eseg as _ <-; lra|].
        destruct (i <? 22)%nat; [injection Eseg as _ <-; lra|].
        destruct (i <? 28)%nat; injection Eseg as _ <-; lra. }
    clear Eseg. unfold bind. rewrite Math_random_run.
    set (trailDirection' := trailDirection + ac).
    set (currentAngle' := currentAngle + (2 * PI / 35 + trailDirection' * 0.1)).
    match goal with
    | |- context [hikingLoop random remaining (S i) _ _ _ (points ++ [?q])] =>
        set (point := q)
    end.
    destruct (IH (S i) trailDirection' currentAngle' (points ++ [point])
                (fst (random s))) as [new [Hrun [Hlen Hnew]]].
    exists (point :: new). split; [|split].
    + rewrite Hrun, <- app_assoc. reflexivity.
    + simpl. rewrite Hlen. reflexivity.
    + intros [|j] p Hp; simpl in Hp.
      * injection Hp as <-. split; [reflexivity|]. split; [simpl; lia|].
        intros Hunit lat lng ->. specialize (Hunit s).
        pose proof (COS_bound currentAngle') as Hcos.
        pose proof (SIN_bound currentAngle') as Hsin.
        pose proof (SIN_bound (INR i / (35 - 1) * PI * 3)) as Hterrain.
        pose proof (offset_bound _ rc Hcos Hrc) as Hlat.
        pose proof (offset_bound _ rc Hsin Hrc) as Hlng.
        unfold nearCenter, point. simpl.
        eexists. eexists. split; [reflexivity|]. split; [reflexivity|].
        split; apply Rabs_le; lra.
      * destruct (Hnew j p Hp) as [Hday [Horder Hnear]].
        split; [exact Hday|]. split; [lia|exact Hnear].
Qed.

Lemma cyclingLoop_run (remaining : nat) :
  forall (i day : nat) (currentLat currentLng : number) (direction : R)
         (dayPoints : list SimulatedPoint) (s : W),
  exists points,
    cyclingLoop random remaining i day currentLat currentLng direction
      dayPoints s
    = (draws random (2 * remaining) s, Return points).
Proof.
  induction remaining as [|remaining IH];
    intros i day currentLat currentLng direction dayPoints s.
  - exists dayPoints. reflexivity.
  - cbn [cyclingLoop]. cbv zeta. unfold bind. rewrite !Math_random_run.
    replace (2 * S remaining)%nat with (S (S (2 * remaining))) by lia.
    rewrite !draws_succ. apply IH.
Qed.

Lemma cyclingDay_run (baseCoord : number * number) (dailyDistance : R)
    (day : nat) (s : W) :
  exists simulated,
    cyclingDay random baseCoord dailyDistance day s
    = (draws random 73 s, Return simulated).
Proof.
  unfold cyclingDay. cbv zeta. unfold bind at 1. rewrite Math_random_run.
  unfold bind at 1.
  match goal with
  | |- context [cyclingLoop random 35 0 day ?la ?lo ?d [] ?s1] =>
      destruct (cyclingLoop_run 35 0 day la lo d [] s1) as [points Hrun]
  end.
  rewrite Hrun. unfold bind. rewrite !Math_random_run. unfold ret.
  eexists. f_equal.
Qed.

(** The run of the hiking branch. *)
Lemma hiking_run (location tripType : string) (s : W) :
  isCycling tripType = false ->
  exists points,
    hikingLoop random 35 0 (baseCoordOf location) 0 0 [] (fst (random s))
    = (draws random 36 s, Return points)
    /\ generateSimulatedRoute random location tripType s
       = (draws random 40 s,
          Return
            (let dailyDistance := 8 + snd (random s) * 7 in
             mkSimulatedRoute points
               [mkSimulatedDay 1 dailyDistance (dailyDistance / 4)
                  (snd (random (draws random 36 s)) * 300,
                   snd (random (draws random 37 s)) * 300) points]
               dailyDistance (dailyDistance / 4)
               (snd (random (draws random 38 s)) * 300,
                snd (random (draws random 39 s)) * 300))).
Proof.
  intros Hc.
  destruct (hikingLoop_run (baseCoordOf location) 35 0 0 0 [] (fst (random s)))
    as [points [Hrun _]].
  exists points. split; [exact Hrun|].
  unfold generateSimulatedRoute. rewrite Hc. cbv zeta.
  unfold bind at 1. rewrite Math_random_run.
  unfold bind at 1. rewrite Hrun.
  unfold bind. rewrite !Math_random_run. unfold ret. reflexivity.
Qed.
End SimulationRuns.

(** X28. For a trip type other than cycling the simulation returns,
    after 40 random numbers, a route of 35 points, all of day 1 and
    numbered 0 to 34 in order, with a single daily route that holds the
    same points and has the total distance and duration; the duration is
    the distance divided by 4.  The total elevation is drawn apart from
    the elevation of the day: it comes from the last two random numbers,
    the elevation of the day from the two before. *)
Theorem simulated_hiking_route (W : Type) (random : W -> W * R)
    (location tripType : string) (s : W) :
  isCycling tripType = false ->
  exists route,
    generateSimulatedRoute random location tripType s
    = (draws random 40 s, Return route)
    /\ length (simulated_points route) = 35%nat
    /\ (forall i p, nth_error (simulated_points route) i = Some p ->
          simulated_day p = 1%nat /\ simulated_order p = i)
    /\ simulated_dailyRoutes route
       = [mkSimulatedDay 1 (simulated_totalDistance route)
            (simulated_totalDuration route)
            (snd (random (draws random 36 s)) * 300,
             snd (random (draws random 37 s)) * 300)
            (simulated_points route)]
    /\ simulated_totalDuration route = simulated_totalDistance route / 4
    /\ simulated_totalElevation route
       = (snd (random (draws random 38 s)) * 300,
          snd (random (draws random 39 s)) * 300).
Proof.
  intros Hc.
  destruct (hikingLoop_run random (baseCoordOf location) 35 0 0 0 []
              (fst (random s))) as [points [Hrun [Hlen Hpoints]]].
  destruct (hiking_run random location tripType s Hc) as [points' [Hrun' Hgen]].
  assert (points' = points) as ->.
  { rewrite Hrun in Hrun'. simpl in Hrun'. congruence. }
  eexists. split; [exact Hgen|]. cbv zeta. simpl.
  split; [exact Hlen|]. split; [|repeat split; reflexivity].
  intros i p Hp. destruct (Hpoints i p Hp) as [Hday [Horder _]].
  split; [exact Hday|exact Horder].
Qed.

Lemma simulated_hiking_route_witness :
  exists route,
    generateSimulatedRoute halves "Rome, Italy" "hiking" tt
    = (draws halves 40 tt, Return route)
    /\ length (simulated_points route) = 35%nat
    /\ (forall i p, nth_error (simulated_points route) i = Some p ->
          simulated_day p = 1%nat /\ simulated_order p = i)
    /\ simulated_dailyRoutes route
       = [mkSimulatedDay 1 (simulated_totalDistance route)
            (simulated_totalDuration route)
            (snd (halves (draws halves 36 tt)) * 300,
             snd (halves (draws halves 37 tt)) * 300)
            (simulated_points route)]
    /\ simulated_totalDuration route = simulated_totalDistance route / 4
    /\ simulated_totalElevation route
       = (snd (halves (draws halves 38 tt)) * 300,
          snd (halves (draws halves 39 tt)) * 300).
Proof.
  apply (simulated_hiking_route unit halves "Rome, Italy" "hiking" tt).
  reflexivity.
Defined.

(** X29. With random numbers in [0, 1) and a location whose base
    coordinates are real numbers, every point of the simulated hiking
    route lies within 0.01085 degrees of the base in latitude and in
    longitude, the distance is in [8, 15) and the duration in [2, 3.75). *)
Theorem simulated_hiking_bounds (W : Type) (random : W -> W * R)
    (location tripType : string) (lat lng : R) (s : W) :
  unitInterval random ->
  isCycling tripType = false ->
  baseCoordOf location = (Fin lat, Fin lng) ->
  exists route,
    snd (generateSimulatedRoute random location tripType s) = Return route
    /\ Forall (nearCenter lat lng) (simulated_points route)
    /\ 8 <= simulated_totalDistance route < 15
    /\ 2 <= simulated_totalDuration route < 3.75.
Proof.
  intros Hunit Hc Hbase.
  destruct (hikingLoop_run random (baseCoordOf location) 35 0 0 0 []
              (fst (random s))) as [points [Hrun [Hlen Hpoints]]].
  destruct (hiking_run random location tripType s Hc) as [points' [Hrun' Hgen]].
  assert (points' = points) as ->.
  { rewrite Hrun in Hrun'. simpl in Hrun'. congruence. }
  rewrite Hgen. eexists. split; [reflexivity|]. cbv zeta. simpl.
  pose proof (Hunit s) as Hr.
  split; [|split; lra].
  apply Forall_forall. intros p Hin. apply In_nth_error in Hin.
  destruct Hin as [i Hi]. destruct (Hpoints i p Hi) as [_ [_ Hnear]].
  apply Hnear; [exact Hunit|exact Hbase].
Qed.

Lemma halves_unitInterval : unitInterval halves.
Proof. intros s. simpl. lra. Qed.

Lemma simulated_hiking_bounds_witness :
  exists route,
    snd (generateSimulatedRoute halves "Rome, Italy" "hiking" tt) = Return route
    /\ Forall (nearCenter 41.9028 12.4964) (simulated_points route)
    /\ 8 <= simulated_totalDistance route < 15
    /\ 2 <= simulated_totalDuration route < 3.75.
Proof.
  apply (simulated_hiking_bounds unit halves "Rome, Italy" "hiking"
           41.9028 12.4964 tt halves_unitInterval); reflexivity.
Defined.

(** X30. For cycling the simulation never returns a route: after 147
    random numbers, spent on the two days it builds, it throws on the
    undeclared name [geometry]. *)
Theorem simulated_cycling_throws (W : Type) (random : W -> W * R)
    (location : string) (s : W) :
  generateSimulatedRoute random location "cycling" s
  = (draws random 147 s, Throw (Error "geometry is not defined")).
Proof.
  unfold generateSimulatedRoute.
  change (isCycling "cycling") with true. cbv iota zeta.
  unfold bind at 1. rewrite Math_random_run. unfold bind at 1.
  match goal with
  | |- context [cyclingDay random ?b ?d 1 ?s1] =>
      destruct (cyclingDay_run random b d 1 s1) as [day1 Hday1]
  end.
  rewrite Hday1. unfold bind at 1.
  match goal with
  | |- context [cyclingDay random ?b ?d 2 ?s1] =>
      destruct (cyclingDay_run random b d 2 s1) as [day2 Hday2]
  end.
  rewrite Hday2. reflexivity.
Qed.
